(** * GBMoney backend: the CSV import pipeline

    A shallow embedding of the import controller (row transformer, batch
    persistence, streaming pipeline, preview endpoint), of the streaming
    service (import-session tracker and broadcast) and of the status route,
    followed by the properties of the import specification that are settled
    on them.

    Conventions.
    - JavaScript strings are [string]s of bytes (UTF-8 for the accented
      Portuguese literals of the source).
    - JavaScript numbers are [jsnum]: a rational, an infinity or NaN. The
      quotients and products of the streaming service are rounded to
      binary64 ([JsNum.fdiv], [JsNum.fmul]); the parsers give the real
      value of the literal they read. The sign of zero is not represented.
    - A function that can [throw] returns a [result].
    - JavaScript objects used as dictionaries (a parsed CSV row, the two
      [Map]s of the service, the upload store) are [gmap]s. *)

From Stdlib Require Import ZArith QArith Qround Qabs Qpower Lia Lqa Ascii String List Bool.
From stdpp Require Import gmap strings list pretty.

Open Scope string_scope.
Open Scope Z_scope.

(** ** Exceptions *)

Inductive result (A : Type) : Type :=
  | Ok (a : A)
  | Throw (message : string).
Arguments Ok {A} a.
Arguments Throw {A} message.

Definition is_ok {A} (r : result A) : bool :=
  match r with Ok _ => true | Throw _ => false end.

(** ** JavaScript strings *)

Module JsString.

(** ASCII white space, as removed by [String.prototype.trim], skipped by
    [parseFloat] and matched by [\s]. The multi-byte Unicode spaces are not
    part of the model. *)
Definition is_space (c : ascii) : bool :=
  let n := nat_of_ascii c in
  ((9 <=? n)%nat && (n <=? 13)%nat) || (n =? 32)%nat.

Definition is_digit (c : ascii) : bool :=
  let n := nat_of_ascii c in (48 <=? n)%nat && (n <=? 57)%nat.

Definition digit_val (c : ascii) : Z := Z.of_nat (nat_of_ascii c) - 48.

Definition quote_char : ascii := ascii_of_nat 34.

Fixpoint startsWith (p s : string) : bool :=
  match p, s with
  | EmptyString, _ => true
  | String a p', String b s' => Ascii.eqb a b && startsWith p' s'
  | String _ _, EmptyString => false
  end.

Fixpoint includes (needle s : string) : bool :=
  startsWith needle s ||
  match s with
  | EmptyString => false
  | String _ s' => includes needle s'
  end.

(** [s.replace(/c/g, '')] for a single character [c]. *)
Fixpoint remove_all (c : ascii) (s : string) : string :=
  match s with
  | EmptyString => EmptyString
  | String a s' =>
      if Ascii.eqb a c then remove_all c s' else String a (remove_all c s')
  end.

(** [s.replace(c, d)] with string arguments: the first occurrence only. *)
Fixpoint replace_first (c d : ascii) (s : string) : string :=
  match s with
  | EmptyString => EmptyString
  | String a s' =>
      if Ascii.eqb a c then String d s' else String a (replace_first c d s')
  end.

Fixpoint trimStart (s : string) : string :=
  match s with
  | EmptyString => EmptyString
  | String a s' => if is_space a then trimStart s' else s
  end.

Fixpoint trimEnd (s : string) : string :=
  match s with
  | EmptyString => EmptyString
  | String a s' =>
      match trimEnd s' with
      | EmptyString => if is_space a then EmptyString else String a EmptyString
      | t => String a t
      end
  end.

Definition trim (s : string) : string := trimEnd (trimStart s).

(** [s.split(c)] for a one-character separator. *)
Fixpoint split (c : ascii) (s : string) : list string :=
  match s with
  | EmptyString => [EmptyString]
  | String a s' =>
      if Ascii.eqb a c then EmptyString :: split c s'
      else match split c s' with
           | [] => [String a EmptyString]
           | h :: t => String a h :: t
           end
  end.

(** ASCII lower-casing, extended to the two-byte UTF-8 letters
    U+00C0..U+00DE (lead byte 195), the accented capitals of Portuguese. *)
Definition lower_ascii (c : ascii) : ascii :=
  let n := nat_of_ascii c in
  if (65 <=? n)%nat && (n <=? 90)%nat then ascii_of_nat (n + 32) else c.

Definition lower_latin1 (c : ascii) : ascii :=
  let n := nat_of_ascii c in
  if (128 <=? n)%nat && (n <=? 158)%nat && negb (n =? 151)%nat
  then ascii_of_nat (n + 32) else c.

Fixpoint toLowerCase (s : string) : string :=
  match s with
  | EmptyString => EmptyString
  | String a s' =>
      if (nat_of_ascii a =? 195)%nat then
        match s' with
        | String b s'' => String a (String (lower_latin1 b) (toLowerCase s''))
        | EmptyString => String a EmptyString
        end
      else String (lower_ascii a) (toLowerCase s')
  end.

(** The longest prefix of decimal digits, and the rest. *)
Fixpoint span_digits (s : string) : string * string :=
  match s with
  | EmptyString => (EmptyString, EmptyString)
  | String a s' =>
      if is_digit a then
        let '(d, r) := span_digits s' in (String a d, r)
      else (EmptyString, s)
  end.

(** Every character of [s] satisfies [P]. *)
Fixpoint every (P : ascii -> bool) (s : string) : bool :=
  match s with
  | EmptyString => true
  | String a s' => P a && every P s'
  end.

Definition all_digits (s : string) : bool := every is_digit s.

(** The value of a string of decimal digits, most significant first. *)
Fixpoint digits_val_acc (acc : Z) (s : string) : Z :=
  match s with
  | EmptyString => acc
  | String a s' => digits_val_acc (10 * acc + digit_val a) s'
  end.

Definition digits_val (s : string) : Z := digits_val_acc 0 s.

(** JavaScript truthiness of a string. *)
Definition truthy (s : string) : bool :=
  match s with EmptyString => false | _ => true end.

End JsString.

(** ** JavaScript numbers *)

Inductive jsnum : Type :=
  | JNum (q : Q)
  | JInf (negative : bool)
  | JNaN.

Module JsNum.
Import JsString.

Definition of_Z (z : Z) : jsnum := JNum (inject_Z z).

Definition isNaN (x : jsnum) : bool :=
  match x with JNaN => true | _ => false end.

Definition abs (x : jsnum) : jsnum :=
  match x with
  | JNum q => JNum (Qabs q)
  | JInf _ => JInf false
  | JNaN => JNaN
  end.

Definition Qsign_neg (q : Q) : bool := (Qnum q <? 0)%Z.
Definition Qis_zero (q : Q) : bool := (Qnum q =? 0)%Z.

(** [x / y]. A zero divisor counts as [+0]. *)
Definition div (x y : jsnum) : jsnum :=
  match x, y with
  | JNaN, _ | _, JNaN => JNaN
  | JInf _, JInf _ => JNaN
  | JInf n, JNum q => JInf (xorb n (Qsign_neg q))
  | JNum _, JInf _ => JNum 0
  | JNum p, JNum q =>
      if Qis_zero q then
        if Qis_zero p then JNaN else JInf (Qsign_neg p)
      else JNum (p / q)
  end.

Definition mul (x y : jsnum) : jsnum :=
  match x, y with
  | JNaN, _ | _, JNaN => JNaN
  | JInf n, JInf m => JInf (xorb n m)
  | JInf n, JNum q | JNum q, JInf n =>
      if Qis_zero q then JNaN else JInf (xorb n (Qsign_neg q))
  | JNum p, JNum q => JNum (p * q)
  end.

Definition sub (x y : jsnum) : jsnum :=
  match x, y with
  | JNaN, _ | _, JNaN => JNaN
  | JInf n, JInf m => if Bool.eqb n m then JNaN else JInf n
  | JInf n, JNum _ => JInf n
  | JNum _, JInf m => JInf (negb m)
  | JNum p, JNum q => JNum (p - q)
  end.

(** The integer nearest to a rational, ties to the even one. *)
Definition rne (q : Q) : Z :=
  let f := Qfloor q in
  match (q - inject_Z f ?= 1 # 2)%Q with
  | Lt => f
  | Gt => f + 1
  | Eq => if Z.even f then f else f + 1
  end.

(** The binary exponent of a positive rational: the [e] with
    [2^e <= q < 2^(e+1)]. *)
Definition ilog2 (q : Q) : Z :=
  let d := Z.log2 (Qnum q) - Z.log2 (Zpos (Qden q)) in
  if Qle_bool (2 ^ d) q then d else d - 1.

(** The binary64 number nearest to a rational, ties to the even
    significand: 53 significant bits. The exponent is not bounded: the
    result is the IEEE-754 one for a magnitude from [2^-1022] up to the
    largest binary64 number, where the quotients and products of counts
    and milliseconds below [2^53] all lie. *)
Definition binary64 (q : Q) : Q :=
  match Qnum q with
  | Z0 => 0%Q
  | Zpos _ =>
      let e := ilog2 q - 52 in
      (inject_Z (rne (q / 2 ^ e)) * 2 ^ e)%Q
  | Zneg _ =>
      let e := ilog2 (- q) - 52 in
      (- (inject_Z (rne (- q / 2 ^ e)) * 2 ^ e))%Q
  end.

Definition fl (x : jsnum) : jsnum :=
  match x with
  | JNum q => JNum (binary64 q)
  | _ => x
  end.

(** [x / y] and [x * y] as the machine computes them: the real result
    rounded to binary64. *)
Definition fdiv (x y : jsnum) : jsnum := fl (div x y).
Definition fmul (x y : jsnum) : jsnum := fl (mul x y).

(** [Math.round]: the nearest integer, ties towards [+Infinity]. *)
Definition round (x : jsnum) : jsnum :=
  match x with
  | JNum q => JNum (inject_Z (Qfloor (q + (1 # 2))))
  | _ => x
  end.

(** [Math.floor]. *)
Definition floor (x : jsnum) : jsnum :=
  match x with
  | JNum q => JNum (inject_Z (Qfloor q))
  | _ => x
  end.

(** [x > y], [x <= y]: false as soon as one side is NaN. *)
Definition ltb (x y : jsnum) : bool :=
  match x, y with
  | JNaN, _ | _, JNaN => false
  | JInf true, JInf true => false
  | JInf true, _ => true
  | _, JInf true => false
  | JInf false, _ => false
  | JNum _, JInf false => true
  | JNum p, JNum q => if Qlt_le_dec p q then true else false
  end.

Definition eqb (x y : jsnum) : bool :=
  match x, y with
  | JNum p, JNum q => Qeq_bool p q
  | JInf n, JInf m => Bool.eqb n m
  | _, _ => false
  end.

Definition leb (x y : jsnum) : bool := ltb x y || eqb x y.
Definition gtb (x y : jsnum) : bool := ltb y x.

(** Equality of numbers as values ([===] away from NaN). *)
Definition same (x y : jsnum) : Prop :=
  match x, y with
  | JNum p, JNum q => p == q
  | JInf n, JInf m => n = m
  | JNaN, JNaN => True
  | _, _ => False
  end.

(** [10^k] for any integer [k]. *)
Definition pow10 (k : Z) : Q :=
  if (0 <=? k)%Z then inject_Z (10 ^ k) else / inject_Z (10 ^ (- k)).

(** The optional exponent part [[eE][+-]?digits] of a decimal literal;
    0 when there is none. *)
Definition exponent_part (s : string) : Z :=
  match s with
  | String e r =>
      if Ascii.eqb e "e" || Ascii.eqb e "E" then
        let '(neg, r') :=
          match r with
          | String "-" t => (true, t)
          | String "+" t => (false, t)
          | _ => (false, r)
          end in
        let '(ds, _) := span_digits r' in
        match ds with
        | EmptyString => 0
        | _ => if neg then - digits_val ds else digits_val ds
        end
      else 0
  | EmptyString => 0
  end.

(** An optional sign at the head of a literal. *)
Definition split_sign (s : string) : bool * string :=
  match s with
  | String "-" t => (true, t)
  | String "+" t => (false, t)
  | _ => (false, s)
  end.

(** The unsigned decimal literal at the head of [s1]: [Infinity], or
    digits with an optional fraction and exponent. *)
Definition parse_decimal (neg : bool) (s1 : string) : jsnum :=
  if startsWith "Infinity" s1 then JInf neg
  else
    let '(ip, r1) := span_digits s1 in
    let '(fp, r2) :=
      match r1 with
      | String "." t => span_digits t
      | _ => (EmptyString, r1)
      end in
    match ip, fp with
    | EmptyString, EmptyString => JNaN
    | _, _ =>
        let mant := digits_val (ip ++ fp) in
        let e := exponent_part r2 - Z.of_nat (String.length fp) in
        let q := (inject_Z mant * pow10 e)%Q in
        JNum (if neg then - q else q)%Q
    end.

(** [parseFloat]: leading white space is skipped and the longest prefix
    that is a decimal literal is read; NaN when there is none. *)
Definition parseFloat (s : string) : jsnum :=
  let '(neg, s1) := split_sign (trimStart s) in
  parse_decimal neg s1.

(** [parseInt(s)], radix 10: white space, a sign, then the decimal digits;
    [None] is NaN. (The hexadecimal prefix is left out: the callers pass
    strings of digits.) *)
Definition parseInt (s : string) : option Z :=
  let '(neg, s1) := split_sign (trimStart s) in
  let '(ds, _) := span_digits s1 in
  match ds with
  | EmptyString => None
  | _ => Some (if neg then - digits_val ds else digits_val ds)
  end.

End JsNum.


(** ** JavaScript dates *)

(** A [Date] built from calendar components is a day number (days since
    1 January 1970) at midnight, of the local calendar for
    [new Date(y, m, d)] and of the UTC calendar for a date-only ISO string. *)
Inductive jsdate : Type :=
  | LocalDate (day : Z)
  | UtcDate (day : Z)
  | InvalidDate.

Module JsDate.
Import JsString JsNum.

Definition InLeapYear (y : Z) : bool :=
  (y mod 4 =? 0) && (negb (y mod 100 =? 0) || (y mod 400 =? 0)).

Definition DaysInYear (y : Z) : Z := if InLeapYear y then 366 else 365.

(** Day number of 1 January of year [y] (ECMAScript [DayFromYear]). *)
Definition DayFromYear (y : Z) : Z :=
  365 * (y - 1970) + (y - 1969) / 4 - (y - 1901) / 100 + (y - 1601) / 400.

(** Month index 0..11. *)
Definition DaysInMonth (leap : bool) (mn : Z) : Z :=
  if mn =? 1 then (if leap then 29 else 28)
  else if (mn =? 3) || (mn =? 5) || (mn =? 8) || (mn =? 10) then 30
  else 31.

Definition DaysBeforeMonth (leap : bool) (mn : Z) : Z :=
  fold_right Z.add 0
    (map (fun k => DaysInMonth leap (Z.of_nat k)) (seq 0 (Z.to_nat mn))).

(** ECMAScript [MakeDay]: months and days out of range carry over. *)
Definition MakeDay (year month date : Z) : Z :=
  let ym := year + month / 12 in
  let mn := month mod 12 in
  DayFromYear ym + DaysBeforeMonth (InLeapYear ym) mn + date - 1.

(** ECMAScript [YearFromTime] on day numbers: the year [y] with
    [DayFromYear y <= d < DayFromYear (y + 1)], found from the estimate
    given by the mean length of a Gregorian year. *)
Definition YearFromDay (d : Z) : Z :=
  let y0 := 1970 + (400 * d) / 146097 in
  if DayFromYear (y0 + 1) <=? d then y0 + 1
  else if DayFromYear y0 <=? d then y0
  else y0 - 1.

(** [TimeClip]: a time value is at most 10^8 days from the epoch. *)
Definition in_range (day : Z) : bool := Z.abs day <=? 100000000.

(** [new Date(year, monthIndex, day)]; an argument [None] is NaN.
    A year from 0 to 99 means 1900 + year. *)
Definition new_Date (year monthIndex day : option Z) : jsdate :=
  match year, monthIndex, day with
  | Some y, Some m, Some d =>
      let yr := if (0 <=? y) && (y <=? 99) then 1900 + y else y in
      let t := MakeDay yr m d in
      if in_range t then LocalDate t else InvalidDate
  | _, _, _ => InvalidDate
  end.

(** [new Date(s)] for [s] of the shape [YYYY-MM-DD], as V8 reads it: UTC
    midnight, month 1..12 and day 1..31 (a day past the end of the month
    carries over), anything else an invalid date. *)
Definition new_Date_iso (s : string) : jsdate :=
  match split "-" s with
  | [y; m; d] =>
      match parseInt y, parseInt m, parseInt d with
      | Some y, Some m, Some d =>
          if (1 <=? m) && (m <=? 12) && (1 <=? d) && (d <=? 31)
          then UtcDate (MakeDay y (m - 1) d)
          else InvalidDate
      | _, _, _ => InvalidDate
      end
  | _ => InvalidDate
  end.

(** [getFullYear], defined on dates built by [new Date(y, m, d)]; NaN
    ([None]) on an invalid date. The local year of a UTC date depends on
    the time zone and is not defined here. *)
Definition getFullYear (d : jsdate) : option Z :=
  match d with
  | LocalDate t => Some (YearFromDay t)
  | UtcDate _ => None
  | InvalidDate => None
  end.

Definition getUTCFullYear (d : jsdate) : option Z :=
  match d with
  | UtcDate t => Some (YearFromDay t)
  | _ => None
  end.

(** Month index and day of the month of a day number. *)
Definition MonthFromDay (t : Z) : Z :=
  let y := YearFromDay t in
  let doy := t - DayFromYear y in
  let leap := InLeapYear y in
  Z.of_nat (List.length
    (filter (fun k => DaysBeforeMonth leap (Z.of_nat k + 1) <=? doy) (seq 0 11))).

Definition DateFromDay (t : Z) : Z :=
  let y := YearFromDay t in
  t - DayFromYear y - DaysBeforeMonth (InLeapYear y) (MonthFromDay t) + 1.

(** (year, month index, day of month) of a date in its own calendar. *)
Definition calendar (d : jsdate) : option (Z * Z * Z) :=
  match d with
  | LocalDate t | UtcDate t => Some (YearFromDay t, MonthFromDay t, DateFromDay t)
  | InvalidDate => None
  end.

(** [toISOString] throws a RangeError on an invalid date; only that is
    observable in the code below, which logs the string. *)
Definition toISOString_ok (d : jsdate) : bool :=
  match d with InvalidDate => false | _ => true end.

End JsDate.

(** ** The regular expressions of [parseDate] *)

Module Regex.
Import JsString.

(** The date patterns are sequences of literal characters and of
    [\d{lo,hi}] groups, anchored at both ends. *)
Inductive atom : Type :=
  | Lit (c : ascii)
  | Digits (lo hi : nat).

(** Exactly [k] digits at the head of [s]: the rest of [s]. *)
Fixpoint eat_digits (k : nat) (s : string) : option string :=
  match k with
  | O => Some s
  | S k' =>
      match s with
      | String a s' => if is_digit a then eat_digits k' s' else None
      | EmptyString => None
      end
  end.

Fixpoint test (p : list atom) (s : string) : bool :=
  match p with
  | [] => match s with EmptyString => true | _ => false end
  | Lit c :: p' =>
      match s with
      | String a s' => Ascii.eqb a c && test p' s'
      | EmptyString => false
      end
  | Digits lo hi :: p' =>
      existsb
        (fun k => match eat_digits k s with
                  | Some r => test p' r
                  | None => false
                  end)
        (seq lo (S hi - lo))
  end.

(** [/^\d{1,2}\/\d{1,2}\/\d{2}$/] *)
Definition re_dmy2 : list atom :=
  [Digits 1 2; Lit "/"; Digits 1 2; Lit "/"; Digits 2 2].
(** [/^\d{1,2}\/\d{1,2}\/\d{4}$/] *)
Definition re_dmy4 : list atom :=
  [Digits 1 2; Lit "/"; Digits 1 2; Lit "/"; Digits 4 4].
(** [/^\d{4}-\d{2}-\d{2}$/] *)
Definition re_iso : list atom :=
  [Digits 4 4; Lit "-"; Digits 2 2; Lit "-"; Digits 2 2].
(** [/^\d{1,2}\/\d{1,2}\/\d{4}$/], the pattern of the fourth branch. *)
Definition re_mdy4 : list atom :=
  [Digits 1 2; Lit "/"; Digits 1 2; Lit "/"; Digits 4 4].

End Regex.

Definition result_bind {A B} (r : result A) (k : A -> result B) : result B :=
  match r with
  | Ok a => k a
  | Throw m => Throw m
  end.

Notation "x <-! r ;; k" := (result_bind r (fun x => k))
  (at level 100, r at next level, right associativity).

(** ** Row transformer and validator (import controller) *)

Module Transformer.
Import JsString JsNum JsDate Regex.

(** A parsed CSV row: header to cell text. *)
Abbreviation Row := (gmap string string).

(** Logical field to source column; [None] is [null]. *)
Record ColumnMapping : Type := {
  m_date : option string;
  m_description : option string;
  m_amount : option string;
  m_category : option string;
  m_payment_type : option string;
  m_installments : option string;
  m_repeat : option string;
  m_fixed : option string
}.

(** [row[col]]: a [null] key is the property named "null"; a missing
    property is [undefined], here [None]. *)
Definition cell (r : Row) (col : option string) : option string :=
  r !! default "null" col.

(** Truthiness of a value that is a string, [null] or [undefined]. *)
Definition truthy_opt (v : option string) : bool :=
  match v with
  | Some s => truthy s
  | None => false
  end.

(** [v || d] *)
Definition or_default (v : option string) (d : string) : string :=
  match v with
  | Some s => if truthy s then s else d
  | None => d
  end.

Definition parseInt_part (p : option string) : option Z := p ≫= parseInt.

(** The formats of [parseDate], in the order of its tests. *)
Inductive DateFormat : Type :=
  | DMY2   (* D/M/YY, the GBMoney format *)
  | DMY4   (* DD/MM/YYYY *)
  | ISO    (* YYYY-MM-DD *)
  | MDY4.  (* MM/DD/YYYY, the American format *)

(** The chain of [if (/.../.test(cleanDate))]: the first pattern that
    matches decides. *)
Definition date_format (cleanDate : string) : option DateFormat :=
  if test re_dmy2 cleanDate then Some DMY2
  else if test re_dmy4 cleanDate then Some DMY4
  else if test re_iso cleanDate then Some ISO
  else if test re_mdy4 cleanDate then Some MDY4
  else None.

(** The date built in each branch; [console.log] evaluates
    [parsedDate.toISOString()] in the first three, which throws a
    RangeError on an invalid date. *)
Definition build_date (f : DateFormat) (cleanDate : string) : result (option jsdate) :=
  match f with
  | DMY2 =>
      let parts := split "/" cleanDate in
      let day := parts !! 0%nat in
      let month := parts !! 1%nat in
      let year := parts !! 2%nat in
      let fullYear := (fun y => y + 2000) <$> parseInt_part year in
      let parsedDate :=
        new_Date fullYear ((fun m => m - 1) <$> parseInt_part month)
                 (parseInt_part day) in
      if toISOString_ok parsedDate then Ok (Some parsedDate)
      else Throw "Invalid time value"
  | DMY4 =>
      let parts := split "/" cleanDate in
      let day := parts !! 0%nat in
      let month := parts !! 1%nat in
      let year := parts !! 2%nat in
      let parsedDate :=
        new_Date (parseInt_part year) ((fun m => m - 1) <$> parseInt_part month)
                 (parseInt_part day) in
      if toISOString_ok parsedDate then Ok (Some parsedDate)
      else Throw "Invalid time value"
  | ISO =>
      let parsedDate := new_Date_iso cleanDate in
      if toISOString_ok parsedDate then Ok (Some parsedDate)
      else Throw "Invalid time value"
  | MDY4 =>
      let parts := split "/" cleanDate in
      let month := parts !! 0%nat in
      let day := parts !! 1%nat in
      let year := parts !! 2%nat in
      Ok (Some (new_Date (parseInt_part year)
                         ((fun m => m - 1) <$> parseInt_part month)
                         (parseInt_part day)))
  end.

(** [parseDate]; [Ok None] is the [null] returned for an empty cell. *)
Definition parseDate (dateStr : option string) : result (option jsdate) :=
  match dateStr with
  | None | Some EmptyString => Ok None
  | Some dateStr =>
      let cleanDate := trim dateStr in
      match date_format cleanDate with
      | Some f => build_date f cleanDate
      | None => Throw ("Formato de data inválido: " ++ dateStr)
      end
  end.

(** [s.replace(/R\$\s*/g, '')]; [skipping] holds while the white space
    after a removed ["R$"] is being dropped. *)
Fixpoint strip_currency (skipping : bool) (s : string) : string :=
  match s with
  | EmptyString => EmptyString
  | String a s' =>
      if skipping && is_space a then strip_currency true s'
      else
        match s' with
        | String b s'' =>
            if Ascii.eqb a "R" && Ascii.eqb b "$" then strip_currency true s''
            else String a (strip_currency false s')
        | EmptyString => String a EmptyString
        end
  end.

(** The text handed to [parseFloat] by [parseAmount]. *)
Definition clean_amount (amountStr : string) : string :=
  let cleaned := remove_all quote_char amountStr in
  let cleaned := strip_currency false cleaned in
  let cleaned :=
    if includes "." cleaned && includes "," cleaned then
      replace_first "," "." (remove_all "." cleaned)
    else if includes "," cleaned && negb (includes "." cleaned) then
      replace_first "," "." cleaned
    else cleaned in
  trim cleaned.

Definition parseAmount (amountStr : option string) : result jsnum :=
  match amountStr with
  | None | Some EmptyString => Ok (of_Z 0)
  | Some amountStr =>
      let amount := parseFloat (clean_amount amountStr) in
      if isNaN amount then Throw ("Valor inválido: " ++ amountStr)
      else Ok (abs amount)
  end.

Definition parseBoolean (boolStr : option string) : bool :=
  match boolStr with
  | None | Some EmptyString => false
  | Some boolStr =>
      let lower := trim (toLowerCase boolStr) in
      String.eqb lower "sim" || String.eqb lower "yes" ||
      String.eqb lower "true" || String.eqb lower "1"
  end.

Definition determineTypeGBMoney (row : Row) (mapping : ColumnMapping) : string :=
  let originalAmount := cell row (m_amount mapping) in
  if truthy_opt originalAmount && startsWith "-" (default "" originalAmount)
  then "expense"
  else
    let description := toLowerCase (or_default (cell row (m_description mapping)) "") in
    if includes "pagamento recebido" description ||
       includes "pix recebido" description ||
       includes "ted recebido" description ||
       includes "depósito" description
    then "income"
    else "expense".

(** [mapCategory]; the category mapping is an object, [None] is [null]. *)
Definition mapCategory (categoryStr : string) (categoryMapping : gmap string string)
  : option string :=
  if truthy categoryStr then
    Some (or_default (categoryMapping !! categoryStr) categoryStr)
  else None.

(** The owner stored in a record: the given id when mongoose accepts it as
    an ObjectId (24 hexadecimal digits, or any 12 characters), a freshly
    generated id otherwise. *)
Inductive ObjectId : Type :=
  | ObjectIdOf (s : string)
  | ObjectIdFresh.

Definition is_hex (c : ascii) : bool :=
  let n := nat_of_ascii c in
  is_digit c || ((65 <=? n)%nat && (n <=? 70)%nat) || ((97 <=? n)%nat && (n <=? 102)%nat).

Definition ObjectId_isValid (s : string) : bool :=
  ((String.length s =? 24)%nat && forallb is_hex (list_ascii_of_string s))
  || (String.length s =? 12)%nat.

Record Transaction : Type := {
  user_id : ObjectId;
  buy_date : option jsdate;
  bill_name : string;
  bill_value : jsnum;
  bill_category : option string;
  bill_type : string;
  payment_type : string;
  repeat : bool;
  installments : string;
  fixed : bool
}.

Definition mapRowToTransaction (row : Row) (mapping : ColumnMapping)
    (categoryMapping : gmap string string) (userId : string) : result Transaction :=
  let validUserId :=
    if ObjectId_isValid userId then ObjectIdOf userId else ObjectIdFresh in
  d <-! parseDate (cell row (m_date mapping)) ;;
  v <-! parseAmount (cell row (m_amount mapping)) ;;
  Ok {| user_id := validUserId;
        buy_date := d;
        bill_name := or_default (cell row (m_description mapping)) "";
        bill_value := v;
        bill_category :=
          mapCategory (or_default (cell row (m_category mapping)) "") categoryMapping;
        bill_type := determineTypeGBMoney row mapping;
        payment_type :=
          if truthy_opt (m_payment_type mapping)
          then or_default (cell row (m_payment_type mapping)) "Importado"
          else "Nubank";
        repeat :=
          if truthy_opt (m_repeat mapping)
          then parseBoolean (cell row (m_repeat mapping)) else false;
        installments :=
          if truthy_opt (m_installments mapping)
          then or_default (cell row (m_installments mapping)) "1/1"
          else "1/1";
        fixed :=
          if truthy_opt (m_fixed mapping)
          then parseBoolean (cell row (m_fixed mapping)) else false |}.

(** The test [bill_value !== null] holds of every number and is left out. *)
Definition validateTransaction (t : Transaction) : bool :=
  match buy_date t with Some _ => true | None => false end &&
  truthy (bill_name t) &&
  negb (String.eqb (trim (bill_name t)) "") &&
  negb (isNaN (bill_value t)) &&
  (String.eqb (bill_type t) "income" || String.eqb (bill_type t) "expense").

Inductive ImportType : Type := GbmoneyCsv | Nubank | GenericCsv.

Definition isValidDataRow (data : Row) (type : ImportType) : bool :=
  match type with
  | GbmoneyCsv =>
      truthy_opt (data !! "Descrição") &&
      truthy_opt (data !! "Categoria") &&
      truthy_opt (data !! "Data") &&
      truthy_opt (data !! "Valor") &&
      negb (String.eqb (default "" (data !! "Valor")) "") &&
      negb (includes "Total" (default "" (data !! "Descrição"))) &&
      negb (includes "Valores base" (default "" (data !! "Descrição")))
  | _ =>
      existsb (fun value => truthy value && negb (String.eqb (trim value) ""))
              (map snd (map_to_list data))
  end.

End Transformer.

(** ** Import sessions and broadcast (streaming service) *)

Module StreamingService.
Import JsString JsNum.

Inductive Status : Type := Processing | Finalizing | Completed | Failed.

Definition Status_name (s : Status) : string :=
  match s with
  | Processing => "processing"
  | Finalizing => "finalizing"
  | Completed => "completed"
  | Failed => "failed"
  end.

Record ErrorEntry : Type := {
  e_message : string;
  e_row : option Z;
  e_timestamp : Z
}.

(** The payload handed to [completeImportSession]: the final result of the
    pipeline, or [{ success: false, error }]. *)
Record ImportResult : Type := {
  r_success : bool;
  r_imported : option Z;
  r_errors : option Z;
  r_total : option Z;
  r_message : option string;
  r_error : option string
}.

Record Session : Type := {
  uploadId : string;
  userId : string;
  filename : string;
  totalRows : Z;
  processedRows : Z;
  successfulRows : Z;
  errorRows : Z;
  errors : list ErrorEntry;
  startTime : Z;
  status : Status;
  currentBatch : Z;
  progress : jsnum;
  estimatedTimeRemaining : option jsnum;
  processingSpeed : jsnum;
  endTime : option Z;
  duration : option jsnum;
  result_ : option ImportResult
}.

(** The partial objects merged into a session by [updateProgress]. *)
Record Update : Type := {
  u_processedRows : option Z;
  u_successfulRows : option Z;
  u_errorRows : option Z;
  u_currentBatch : option Z;
  u_status : option Status
}.

Definition no_update : Update :=
  {| u_processedRows := None; u_successfulRows := None; u_errorRows := None;
     u_currentBatch := None; u_status := None |}.

(** [Object.assign(session, update)] *)
Definition assign (s : Session) (u : Update) : Session :=
  {| uploadId := uploadId s; userId := userId s; filename := filename s;
     totalRows := totalRows s;
     processedRows := default (processedRows s) (u_processedRows u);
     successfulRows := default (successfulRows s) (u_successfulRows u);
     errorRows := default (errorRows s) (u_errorRows u);
     errors := errors s; startTime := startTime s;
     status := default (status s) (u_status u);
     currentBatch := default (currentBatch s) (u_currentBatch u);
     progress := progress s;
     estimatedTimeRemaining := estimatedTimeRemaining s;
     processingSpeed := processingSpeed s;
     endTime := endTime s; duration := duration s; result_ := result_ s |}.

Definition set_metrics (s : Session) (p : jsnum) (speed : jsnum)
    (eta : option jsnum) : Session :=
  {| uploadId := uploadId s; userId := userId s; filename := filename s;
     totalRows := totalRows s; processedRows := processedRows s;
     successfulRows := successfulRows s; errorRows := errorRows s;
     errors := errors s; startTime := startTime s; status := status s;
     currentBatch := currentBatch s;
     progress := p;
     estimatedTimeRemaining := eta;
     processingSpeed := speed;
     endTime := endTime s; duration := duration s; result_ := result_ s |}.

Definition set_errors (s : Session) (n : Z) (l : list ErrorEntry) : Session :=
  {| uploadId := uploadId s; userId := userId s; filename := filename s;
     totalRows := totalRows s; processedRows := processedRows s;
     successfulRows := successfulRows s;
     errorRows := n;
     errors := l;
     startTime := startTime s; status := status s;
     currentBatch := currentBatch s; progress := progress s;
     estimatedTimeRemaining := estimatedTimeRemaining s;
     processingSpeed := processingSpeed s;
     endTime := endTime s; duration := duration s; result_ := result_ s |}.

Definition set_completed (s : Session) (st : Status) (t : Z) (d : jsnum)
    (r : ImportResult) : Session :=
  {| uploadId := uploadId s; userId := userId s; filename := filename s;
     totalRows := totalRows s; processedRows := processedRows s;
     successfulRows := successfulRows s; errorRows := errorRows s;
     errors := errors s; startTime := startTime s;
     status := st;
     currentBatch := currentBatch s; progress := progress s;
     estimatedTimeRemaining := estimatedTimeRemaining s;
     processingSpeed := processingSpeed s;
     endTime := Some t; duration := Some d; result_ := Some r |}.

(** A subscribed socket: whether [readyState] is [OPEN] and whether its
    [send] throws. *)
Record WebSocketClient : Type := {
  ws_id : nat;
  ws_userId : option string;
  ws_open : bool;
  ws_send_throws : bool
}.

(** [{ type, uploadId, ...session }] *)
Record Message : Type := {
  msg_type : string;
  msg_uploadId : string;
  msg_session : Session
}.

(** The service object. [sent] lists the messages delivered, latest first,
    with the socket they went to; [timers] the upload ids whose session has
    a deletion scheduled; [ticks] counts the readings of the clock. *)
Record Service : Type := {
  clients : gmap string (list WebSocketClient);
  importSessions : gmap string Session;
  sent : list (nat * Message);
  timers : list string;
  ticks : nat
}.

Definition with_clients (svc : Service) (c : gmap string (list WebSocketClient)) :=
  {| clients := c; importSessions := importSessions svc; sent := sent svc;
     timers := timers svc; ticks := ticks svc |}.
Definition with_sessions (svc : Service) (m : gmap string Session) :=
  {| clients := clients svc; importSessions := m; sent := sent svc;
     timers := timers svc; ticks := ticks svc |}.
Definition with_sent (svc : Service) (l : list (nat * Message)) :=
  {| clients := clients svc; importSessions := importSessions svc; sent := l;
     timers := timers svc; ticks := ticks svc |}.
Definition with_timers (svc : Service) (l : list string) :=
  {| clients := clients svc; importSessions := importSessions svc; sent := sent svc;
     timers := l; ticks := ticks svc |}.
Definition tick (svc : Service) :=
  {| clients := clients svc; importSessions := importSessions svc; sent := sent svc;
     timers := timers svc; ticks := S (ticks svc) |}.

Definition removeClient (ws : WebSocketClient) (svc : Service) : Service :=
  match ws_userId ws with
  | Some u =>
      if truthy u then
        match clients svc !! u with
        | Some set =>
            let set' := filter (fun w => negb (ws_id w =? ws_id ws)%nat) set in
            match set' with
            | [] => with_clients svc (delete u (clients svc))
            | _ => with_clients svc (<[u := set']> (clients svc))
            end
        | None => svc
        end
      else svc
  | None => svc
  end.

Definition broadcastToUser (userId : string) (message : Message) (svc : Service)
  : Service :=
  match clients svc !! userId with
  | None => svc
  | Some userClients =>
      foldl (fun svc ws =>
               if ws_open ws then
                 if ws_send_throws ws then removeClient ws svc
                 else with_sent svc ((ws_id ws, message) :: sent svc)
               else svc)
            svc userClients
  end.

(** [Math.round((processedRows / totalRows) * 100)] *)
Definition percent (processedRows totalRows : Z) : jsnum :=
  round (fmul (fdiv (of_Z processedRows) (of_Z totalRows)) (of_Z 100)).

(** The metrics recomputed by [updateProgress], [now] being the reading of
    the clock. *)
Definition recompute (now : Z) (session : Session) : Session :=
  let progress := percent (processedRows session) (totalRows session) in
  let elapsedTime := fdiv (of_Z (now - startTime session)) (of_Z 1000) in
  let processingSpeed :=
    round (fdiv (of_Z (processedRows session)) elapsedTime) in
  let eta :=
    if gtb processingSpeed (of_Z 0) then
      let remainingRows := totalRows session - processedRows session in
      Some (round (fdiv (of_Z remainingRows) processingSpeed))
    else estimatedTimeRemaining session in
  set_metrics session progress processingSpeed eta.

(** [l.slice(-n)]: the last [n] elements. *)
Definition lastn {A} (n : nat) (l : list A) : list A :=
  drop (length l - n)%nat l.

(** The counting and logging part of [addError]. *)
Definition push_error (now : Z) (session : Session) (error : string)
    (rowNumber : option Z) : Session :=
  let entry := {| e_message := error; e_row := rowNumber; e_timestamp := now |} in
  let pushed := (errors session ++ [entry])%list in
  let kept := if (100 <? length pushed)%nat then lastn 100 pushed else pushed in
  set_errors session (errorRows session + 1) kept.

Section Clocked.
(** [new Date()]: the [n]-th reading of the clock, in milliseconds. *)
Variable clock : nat -> Z.

Definition startImportSession (uploadId userId : string) (totalRows : Z)
    (filename : string) (svc : Service) : Session * Service :=
  let session :=
    {| uploadId := uploadId; userId := userId; filename := filename;
       totalRows := totalRows; processedRows := 0; successfulRows := 0;
       errorRows := 0; errors := []; startTime := clock (ticks svc);
       status := Processing; currentBatch := 0; progress := of_Z 0;
       estimatedTimeRemaining := None; processingSpeed := of_Z 0;
       endTime := None; duration := None; result_ := None |} in
  let svc := tick svc in
  let svc := with_sessions svc (<[uploadId := session]> (importSessions svc)) in
  (session,
   broadcastToUser userId
     {| msg_type := "import_started"; msg_uploadId := uploadId;
        msg_session := session |} svc).

Definition updateProgress (uploadId : string) (update : Update) (svc : Service)
  : Service :=
  match importSessions svc !! uploadId with
  | None => svc
  | Some session =>
      let session := recompute (clock (ticks svc)) (assign session update) in
      let svc := tick svc in
      let svc := with_sessions svc (<[uploadId := session]> (importSessions svc)) in
      broadcastToUser (userId session)
        {| msg_type := "progress"; msg_uploadId := uploadId;
           msg_session := session |} svc
  end.

Definition addError (uploadId : string) (error : string) (rowNumber : option Z)
    (svc : Service) : Service :=
  match importSessions svc !! uploadId with
  | None => svc
  | Some session =>
      let session := push_error (clock (ticks svc)) session error rowNumber in
      let svc := tick svc in
      let svc := with_sessions svc (<[uploadId := session]> (importSessions svc)) in
      updateProgress uploadId no_update svc
  end.

Definition completeImportSession (uploadId : string) (result : ImportResult)
    (svc : Service) : Service :=
  match importSessions svc !! uploadId with
  | None => svc
  | Some session =>
      let endTime := clock (ticks svc) in
      let svc := tick svc in
      let session :=
        set_completed session
          (if r_success result then Completed else Failed)
          endTime
          (round (fdiv (of_Z (endTime - startTime session)) (of_Z 1000)))
          result in
      let svc := with_sessions svc (<[uploadId := session]> (importSessions svc)) in
      let svc :=
        broadcastToUser (userId session)
          {| msg_type := "import_completed"; msg_uploadId := uploadId;
             msg_session := session |} svc in
      with_timers svc (uploadId :: timers svc)
  end.

Definition getSessionStatus (uploadId : string) (svc : Service) : option Session :=
  importSessions svc !! uploadId.

End Clocked.

End StreamingService.

(** ** Persistence collaborator (bills model and bills controller) *)

Module Persistence.
Import Transformer.

(** What a rejected persistence call carries: JavaScript can throw any
    value, an [Error] with its message or a value without properties
    ([undefined], [null]). *)
Inductive Thrown : Type :=
  | ThrownError (message : string)
  | ThrownNullish.

(** The bills model over a store [DB] of documents [Doc]:
    [insertMany(batch, { ordered: false })], [countDocuments({})] and
    [create(doc)]. *)
Record Model (DB Doc : Type) : Type := {
  insertMany : DB -> list Transaction -> DB * (Thrown + list Doc);
  countDocuments : DB -> option Thrown;
  create : DB -> Transaction -> DB * (Thrown + Doc)
}.
Arguments insertMany {DB Doc} _ _ _.
Arguments countDocuments {DB Doc} _ _.
Arguments create {DB Doc} _ _ _.

(** Reading [e.message]: a TypeError on a value without properties. *)
Definition message_of (e : Thrown) : result string :=
  match e with
  | ThrownError m => Ok m
  | ThrownNullish =>
      Throw "Cannot read properties of undefined (reading 'message')"
  end.

(** [billsController.createBillData]: whatever [create] throws is thrown
    again as an [Error] whose message starts with a fixed prefix. *)
Definition createBillData {DB Doc} (M : Model DB Doc) (db : DB) (billData : Transaction)
  : DB * result Doc :=
  match create M db billData with
  | (db', inr savedBill) => (db', Ok savedBill)
  | (db', inl error) =>
      match message_of error with
      | Ok m => (db', Throw ("Erro ao salvar transação: " ++ m))
      | Throw m => (db', Throw m)
      end
  end.

End Persistence.

(** ** Batch persistence and the streaming pipeline (import controller) *)

Module ImportController.
Import JsString JsNum Transformer StreamingService Persistence.

(** The calls made on the streaming service. They return nothing to the
    caller, so the pipeline is written as the producer of the sequence of
    its calls, which [run_calls] performs on the service in that order. *)
Inductive TrackerCall : Type :=
  | CallUpdateProgress (uploadId : string) (update : Update)
  | CallAddError (uploadId : string) (error : string) (rowNumber : option Z).

Definition run_call (clock : nat -> Z) (svc : Service) (c : TrackerCall) : Service :=
  match c with
  | CallUpdateProgress id u => updateProgress clock id u svc
  | CallAddError id e r => addError clock id e r svc
  end.

Definition run_calls (clock : nat -> Z) (calls : list TrackerCall) (svc : Service)
  : Service :=
  foldl (run_call clock) svc calls.

(** [{ success, errors }] *)
Record BatchResult : Type := {
  b_success : Z;
  b_errors : Z
}.

(** An entry of [Promise.allSettled]: fulfilled with
    [{ success: true, data }] or [{ success: false, error }], or rejected. *)
Inductive Settled (Doc : Type) : Type :=
  | FulfilledSaved (data : Doc)
  | FulfilledFailed (error : string)
  | Rejected (reason : string).
Arguments FulfilledSaved {Doc} data.
Arguments FulfilledFailed {Doc} error.
Arguments Rejected {Doc} reason.

Section Batch.
Context {DB Doc : Type} (M : Model DB Doc).

(** The per-record fallback: [batch.map(async (transaction, index) => ...)],
    the records taken in index order. *)
Fixpoint save_individually (uploadId : string) (index : Z) (batch : list Transaction)
    (db : DB) : list (Settled Doc) * DB * list TrackerCall :=
  match batch with
  | [] => ([], db, [])
  | transaction :: rest =>
      let '(db1, r) := createBillData M db transaction in
      let '(settled, db2, calls) := save_individually uploadId (index + 1) rest db1 in
      match r with
      | Ok saved => (FulfilledSaved saved :: settled, db2, calls)
      | Throw m =>
          (FulfilledFailed m :: settled, db2,
           CallAddError uploadId
             ("Erro ao salvar transação " ++ pretty (index + 1) ++ ": " ++ m)
             None :: calls)
      end
  end.

(** [settled.forEach((result, index) => ...)] *)
Fixpoint count_settled (uploadId : string) (index : Z) (settled : list (Settled Doc))
    (results : list Doc) (successCount errorCount : Z)
  : list Doc * Z * Z * list TrackerCall :=
  match settled with
  | [] => (results, successCount, errorCount, [])
  | FulfilledSaved data :: rest =>
      count_settled uploadId (index + 1) rest (results ++ [data])%list
                    (successCount + 1) errorCount
  | FulfilledFailed _ :: rest =>
      count_settled uploadId (index + 1) rest results successCount (errorCount + 1)
  | Rejected reason :: rest =>
      let '(res, s, e, calls) :=
        count_settled uploadId (index + 1) rest results successCount (errorCount + 1) in
      (res, s, e,
       CallAddError uploadId
         ("Erro não tratado na transação " ++ pretty (index + 1) ++ ": " ++ reason)
         None :: calls)
  end.

(** The body of the inner [try]: bulk insert, then the count query, then
    the accounting. [inl e] when one of the two calls rejects with [e];
    nothing has been counted at that point. *)
Definition bulk_insert (batch : list Transaction) (results : list Doc) (db : DB)
  : DB * (Thrown + (list Doc * Z * Z)) :=
  match insertMany M db batch with
  | (db1, inl bulkError) => (db1, inl bulkError)
  | (db1, inr saved) =>
      match countDocuments M db1 with
      | Some bulkError => (db1, inl bulkError)
      | None =>
          let successCount := Z.of_nat (length saved) in
          let errorCount :=
            if successCount <? Z.of_nat (length batch)
            then Z.of_nat (length batch) - successCount else 0 in
          (db1, inr ((results ++ saved)%list, successCount, errorCount))
      end
  end.

Definition processBatchStreamingAsync (batch : list Transaction) (results : list Doc)
    (uploadId : string) (db : DB)
  : BatchResult * list Doc * DB * list TrackerCall :=
  match bulk_insert batch results db with
  | (db1, inr (results', successCount, errorCount)) =>
      ({| b_success := successCount; b_errors := errorCount |}, results', db1, [])
  | (db1, inl bulkError) =>
      match message_of bulkError with
      | Ok _ =>
          let '(settled, db2, calls1) := save_individually uploadId 0 batch db1 in
          let '(results', successCount, errorCount, calls2) :=
            count_settled uploadId 0 settled results 0 0 in
          ({| b_success := successCount; b_errors := errorCount |},
           results', db2, (calls1 ++ calls2)%list)
      | Throw m =>
          ({| b_success := 0; b_errors := Z.of_nat (length batch) |},
           results, db1,
           [CallAddError uploadId ("Erro crítico no lote: " ++ m) None])
      end
  end.

End Batch.

(** What the preview of an upload records. *)
Record Preview : Type := {
  pv_type : ImportType;
  pv_headers : list string;
  pv_sample : list Row;
  pv_totalRows : Z;
  pv_isLargeFile : bool;
  pv_mapping : ColumnMapping
}.

(** An entry of the upload store [tempStorage]. *)
Record UploadData : Type := {
  up_filename : string;
  up_tempPath : string;
  up_preview : Preview;
  up_fileSize : Z;
  up_createdAt : Z;
  up_userId : string
}.

(** How the stream of parsed rows finishes. *)
Inductive StreamEnd : Type :=
  | EndOfStream
  | StreamError (message : string).

Definition BATCH_SIZE : Z := 100.
Definition UPDATE_FREQUENCY : Z := 50.

(** The variables closed over by the transform stream, with the store and
    the calls made so far on the streaming service. *)
Record PipelineState (DB Doc : Type) : Type := {
  processedCount : Z;
  successfulCount : Z;
  errorCount : Z;
  currentBatch_ : list Transaction;
  results : list Doc;
  db : DB;
  calls : list TrackerCall
}.
Arguments processedCount {DB Doc} _.
Arguments successfulCount {DB Doc} _.
Arguments errorCount {DB Doc} _.
Arguments currentBatch_ {DB Doc} _.
Arguments results {DB Doc} _.
Arguments db {DB Doc} _.
Arguments calls {DB Doc} _.

Section Pipeline.
Context {DB Doc : Type} (M : Model DB Doc).

Definition initial_state (db0 : DB) : PipelineState DB Doc :=
  {| processedCount := 0; successfulCount := 0; errorCount := 0;
     currentBatch_ := []; results := []; db := db0; calls := [] |}.

Definition counters (processed successful errors : Z) : Update :=
  {| u_processedRows := Some processed; u_successfulRows := Some successful;
     u_errorRows := Some errors; u_currentBatch := None; u_status := None |}.

(** The [transform] callback, for one row. *)
Definition transform (uploadData : UploadData) (mapping : ColumnMapping)
    (categoryMapping : gmap string string) (userId uploadId : string)
    (st : PipelineState DB Doc) (row : Row) : PipelineState DB Doc :=
  let processed := processedCount st + 1 in
  if isValidDataRow row (pv_type (up_preview uploadData)) then
    match mapRowToTransaction row mapping categoryMapping userId with
    | Ok transaction =>
        if validateTransaction transaction then
          let batch := (currentBatch_ st ++ [transaction])%list in
          if BATCH_SIZE <=? Z.of_nat (length batch) then
            let '(batchResults, results', db', batchCalls) :=
              processBatchStreamingAsync M batch (results st) uploadId (db st) in
            let successful := successfulCount st + b_success batchResults in
            let errs := errorCount st + b_errors batchResults in
            {| processedCount := processed; successfulCount := successful;
               errorCount := errs; currentBatch_ := []; results := results';
               db := db';
               calls :=
                 (calls st ++ batchCalls ++
                  [CallUpdateProgress uploadId
                     {| u_processedRows := Some processed;
                        u_successfulRows := Some successful;
                        u_errorRows := Some errs;
                        u_currentBatch := Some (processed / BATCH_SIZE);
                        u_status := None |}])%list |}
          else
            {| processedCount := processed;
               successfulCount := successfulCount st;
               errorCount := errorCount st; currentBatch_ := batch;
               results := results st; db := db st;
               calls :=
                 if processed mod UPDATE_FREQUENCY =? 0 then
                   (calls st ++
                    [CallUpdateProgress uploadId
                       (counters processed (successfulCount st) (errorCount st))])%list
                 else calls st |}
        else
          {| processedCount := processed;
             successfulCount := successfulCount st;
             errorCount := errorCount st + 1;
             currentBatch_ := currentBatch_ st;
             results := results st; db := db st;
             calls :=
               (calls st ++
                [CallAddError uploadId "Dados da transação inválidos"
                              (Some processed)])%list |}
    | Throw message =>
        {| processedCount := processed;
           successfulCount := successfulCount st;
           errorCount := errorCount st + 1;
           currentBatch_ := currentBatch_ st;
           results := results st; db := db st;
           calls :=
             (calls st ++ [CallAddError uploadId message (Some processed)])%list |}
    end
  else
    {| processedCount := processed;
       successfulCount := successfulCount st;
       errorCount := errorCount st;
       currentBatch_ := currentBatch_ st;
       results := results st; db := db st; calls := calls st |}.

(** After the stream has ended: the trailing batch, the final progress
    update and the final result. *)
Definition finish (uploadId : string) (st : PipelineState DB Doc)
  : ImportResult * PipelineState DB Doc :=
  let st1 :=
    match currentBatch_ st with
    | [] => st
    | _ =>
        let '(batchResults, results', db', batchCalls) :=
          processBatchStreamingAsync M (currentBatch_ st) (results st) uploadId (db st) in
        {| processedCount := processedCount st;
           successfulCount := successfulCount st + b_success batchResults;
           errorCount := errorCount st + b_errors batchResults;
           currentBatch_ := currentBatch_ st;
           results := results'; db := db';
           calls := (calls st ++ batchCalls)%list |}
    end in
  let final :=
    {| u_processedRows := Some (processedCount st1);
       u_successfulRows := Some (successfulCount st1);
       u_errorRows := Some (errorCount st1);
       u_currentBatch := None;
       u_status := Some Finalizing |} in
  ({| r_success := true;
      r_imported := Some (successfulCount st1);
      r_errors := Some (errorCount st1);
      r_total := Some (processedCount st1);
      r_message :=
        Some (pretty (successfulCount st1) ++
              " transações importadas com sucesso de " ++
              pretty (processedCount st1) ++ " processadas");
      r_error := None |},
   {| processedCount := processedCount st1;
      successfulCount := successfulCount st1;
      errorCount := errorCount st1;
      currentBatch_ := currentBatch_ st1;
      results := results st1; db := db st1;
      calls := (calls st1 ++ [CallUpdateProgress uploadId final])%list |}).

(** [processImportWithStreaming] on a stream that delivers [rows] and then
    ends as [ending]; a stream error is thrown to the caller. *)
Definition processImportWithStreaming (uploadData : UploadData)
    (mapping : ColumnMapping) (categoryMapping : gmap string string)
    (userId uploadId : string) (rows : list Row) (ending : StreamEnd) (db0 : DB)
  : result ImportResult * PipelineState DB Doc :=
  let st :=
    foldl (transform uploadData mapping categoryMapping userId uploadId)
          (initial_state db0) rows in
  match ending with
  | EndOfStream =>
      let '(finalResult, st') := finish uploadId st in (Ok finalResult, st')
  | StreamError message => (Throw message, st)
  end.

End Pipeline.

(** ** The handlers *)

Inductive ReplyBody : Type :=
  | ErrorBody (error : string)
  | PreviewBody (uploadId : string) (preview : Preview) (filename : string)
  | ConfirmBody (success : bool) (message uploadId sessionId : string)
  | StatusBody (session : Session) (lastErrors : list ErrorEntry).

Record Reply : Type := {
  status_code : Z;
  body : ReplyBody
}.

Record Request : Type := {
  param_uploadId : string;
  req_user_id : string;
  body_mapping : option ColumnMapping;
  body_categoryMapping : option (gmap string string)
}.

Definition getPreview (tempStorage : gmap string UploadData) (request : Request)
  : Reply :=
  let uploadId := param_uploadId request in
  match tempStorage !! uploadId with
  | None =>
      {| status_code := 404;
         body := ErrorBody "Upload não encontrado ou expirado" |}
  | Some uploadData =>
      if negb (String.eqb (up_userId uploadData) (req_user_id request)) then
        {| status_code := 403; body := ErrorBody "Não autorizado" |}
      else
        {| status_code := 200;
           body := PreviewBody uploadId (up_preview uploadData)
                               (up_filename uploadData) |}
  end.

(** The handler of [GET /import/status/:uploadId] (routes). *)
Definition getImportStatus (svc : Service) (request : Request) : Reply :=
  let uploadId := param_uploadId request in
  match getSessionStatus uploadId svc with
  | None =>
      {| status_code := 404;
         body := ErrorBody "Sessão de importação não encontrada" |}
  | Some session =>
      if negb (String.eqb (userId session) (req_user_id request)) then
        {| status_code := 403; body := ErrorBody "Não autorizado" |}
      else
        {| status_code := 200;
           body := StatusBody session
                     (drop (length (errors session) - 10)%nat (errors session)) |}
  end.

(** The state shared by the handlers. *)
Record World (DB : Type) : Type := {
  w_tempStorage : gmap string UploadData;
  w_service : Service;
  w_db : DB
}.
Arguments w_tempStorage {DB} _.
Arguments w_service {DB} _.
Arguments w_db {DB} _.

Section Confirm.
Context {DB Doc : Type} (M : Model DB Doc) (clock : nat -> Z).

(** [confirmImport]: the reply, sent as soon as the session is
    registered, and the state once the detached import has run to its
    end on the stream [rows], [ending] read from the staged file. *)
Definition confirmImport (w : World DB) (request : Request)
    (rows : list Row) (ending : StreamEnd) : Reply * World DB :=
  let uploadId := param_uploadId request in
  match w_tempStorage w !! uploadId with
  | None =>
      ({| status_code := 404;
          body := ErrorBody "Upload não encontrado ou expirado" |}, w)
  | Some uploadData =>
      if negb (String.eqb (up_userId uploadData) (req_user_id request)) then
        ({| status_code := 403; body := ErrorBody "Não autorizado" |}, w)
      else
        let mapping :=
          default (pv_mapping (up_preview uploadData)) (body_mapping request) in
        let categoryMapping := default ∅ (body_categoryMapping request) in
        let '(session, svc1) :=
          startImportSession clock uploadId (req_user_id request)
            (pv_totalRows (up_preview uploadData)) (up_filename uploadData)
            (w_service w) in
        let '(outcome, st) :=
          processImportWithStreaming M uploadData mapping categoryMapping
            (req_user_id request) uploadId rows ending (w_db w) in
        let svc2 := run_calls clock (calls st) svc1 in
        let result :=
          match outcome with
          | Ok finalResult => finalResult
          | Throw message =>
              {| r_success := false; r_imported := None; r_errors := None;
                 r_total := None; r_message := None; r_error := Some message |}
          end in
        let svc3 := completeImportSession clock uploadId result svc2 in
        ({| status_code := 200;
            body := ConfirmBody true
              "Importação iniciada. Acompanhe o progresso em tempo real."
              uploadId (StreamingService.uploadId session) |},
         {| w_tempStorage := delete uploadId (w_tempStorage w);
            w_service := svc3;
            w_db := db st |})
  end.

(** The part of [confirmImport] that has run when the reply is sent: the
    checks and the registration of the session. The import is started
    without being awaited; it has read no row yet and the upload is still
    staged. *)
Definition confirm_reply (w : World DB) (request : Request) : Reply * World DB :=
  let uploadId := param_uploadId request in
  match w_tempStorage w !! uploadId with
  | None =>
      ({| status_code := 404;
          body := ErrorBody "Upload não encontrado ou expirado" |}, w)
  | Some uploadData =>
      if negb (String.eqb (up_userId uploadData) (req_user_id request)) then
        ({| status_code := 403; body := ErrorBody "Não autorizado" |}, w)
      else
        let '(session, svc1) :=
          startImportSession clock uploadId (req_user_id request)
            (pv_totalRows (up_preview uploadData)) (up_filename uploadData)
            (w_service w) in
        ({| status_code := 200;
            body := ConfirmBody true
              "Importação iniciada. Acompanhe o progresso em tempo real."
              uploadId (StreamingService.uploadId session) |},
         {| w_tempStorage := w_tempStorage w;
            w_service := svc1;
            w_db := w_db w |})
  end.

(** The import that [confirmImport] started for [uploadData], run from the
    state [w] to its end on the stream [rows], [ending], no other request
    being served meanwhile: the rows, the removal of the upload, then the
    completion of the session. *)
Definition detached_import (uploadData : UploadData) (request : Request)
    (rows : list Row) (ending : StreamEnd) (w : World DB) : World DB :=
  let uploadId := param_uploadId request in
  let mapping :=
    default (pv_mapping (up_preview uploadData)) (body_mapping request) in
  let categoryMapping := default ∅ (body_categoryMapping request) in
  let '(outcome, st) :=
    processImportWithStreaming M uploadData mapping categoryMapping
      (req_user_id request) uploadId rows ending (w_db w) in
  let svc2 := run_calls clock (calls st) (w_service w) in
  let result :=
    match outcome with
    | Ok finalResult => finalResult
    | Throw message =>
        {| r_success := false; r_imported := None; r_errors := None;
           r_total := None; r_message := None; r_error := Some message |}
    end in
  {| w_tempStorage := delete uploadId (w_tempStorage w);
     w_service := completeImportSession clock uploadId result svc2;
     w_db := db st |}.

End Confirm.

End ImportController.

(** ** An in-memory bills model

    A store with a unique index on the bill name, as an instance of the
    persistence collaborator for the examples: [insertMany] keeps the records
    that do not collide and rejects when one did (unordered insert), [create]
    rejects a colliding record. *)

Module MemoryStore.
Import Transformer Persistence.

Definition taken (db : list Transaction) (t : Transaction) : bool :=
  existsb (fun d => String.eqb (bill_name d) (bill_name t)) db.

Fixpoint insert_each (db : list Transaction) (batch : list Transaction)
  : list Transaction * list Transaction * bool :=
  match batch with
  | [] => (db, [], false)
  | t :: rest =>
      if taken db t then
        let '(db', saved, _) := insert_each db rest in (db', saved, true)
      else
        let '(db', saved, collided) := insert_each (db ++ [t]) rest in
        (db', t :: saved, collided)
  end.

Definition duplicate_key : Thrown := ThrownError "E11000 duplicate key error".

Definition model : Model (list Transaction) Transaction :=
  {| insertMany := fun db batch =>
       let '(db', saved, collided) := insert_each db batch in
       if collided then (db', inl duplicate_key) else (db', inr saved);
     countDocuments := fun _ => None;
     create := fun db t =>
       if taken db t then (db, inl duplicate_key) else ((db ++ [t])%list, inr t) |}.

End MemoryStore.

(** ** Sample data *)

Module Examples.
Import JsNum Transformer StreamingService Persistence ImportController.

(** A clock that advances one second at each reading. *)
Definition clock (n : nat) : Z := 1000 * Z.of_nat n.

Definition mapping : ColumnMapping :=
  {| m_date := Some "Data"; m_description := Some "Descrição";
     m_amount := Some "Valor"; m_category := None; m_payment_type := None;
     m_installments := None; m_repeat := None; m_fixed := None |}.

Definition mk_row (date description amount : string) : Row :=
  <["Data" := date]> (<["Descrição" := description]> (<["Valor" := amount]> ∅)).

Definition row_market : Row := mk_row "15/03/2024" "Mercado" "1.234,56".
Definition row_blank : Row := mk_row "" "" "".
Definition row_pix : Row := mk_row "16/03/24" "Pix recebido" "50,00".
Definition row_refund : Row := mk_row "17/03/24" "Estorno" "-50,00".
Definition row_no_amount : Row := mk_row "18/03/24" "Padaria" "".
Definition row_bad_amount : Row := mk_row "18/03/24" "Padaria" "abc".

(** The file read by the pipeline: a blank-celled line between two
    transactions. The preview counts the valid data rows only. *)
Definition file_rows : list Row := [row_market; row_blank; row_pix].

Definition preview : Preview :=
  {| pv_type := GenericCsv;
     pv_headers := ["Data"; "Descrição"; "Valor"];
     pv_sample := filter (fun r => isValidDataRow r GenericCsv) file_rows;
     pv_totalRows :=
       Z.of_nat (length (filter (fun r => isValidDataRow r GenericCsv) file_rows));
     pv_isLargeFile := false;
     pv_mapping := mapping |}.

Definition upload : UploadData :=
  {| up_filename := "extrato.csv"; up_tempPath := "temp/import_u1.csv";
     up_preview := preview; up_fileSize := 96; up_createdAt := 0;
     up_userId := "alice" |}.

Definition socket : WebSocketClient :=
  {| ws_id := 1; ws_userId := Some "alice"; ws_open := true;
     ws_send_throws := false |}.

Definition service0 : Service :=
  {| clients := {[ "alice" := [socket] ]}; importSessions := ∅; sent := [];
     timers := []; ticks := 0 |}.

Definition world0 : World (list Transaction) :=
  {| w_tempStorage := {[ "u1" := upload ]}; w_service := service0; w_db := [] |}.

Definition request_of (user : string) : Request :=
  {| param_uploadId := "u1"; req_user_id := user;
     body_mapping := None; body_categoryMapping := None |}.

(** The service at the moment the import of [file_rows] is finalizing:
    session started, every call of the pipeline performed, completion not
    yet signalled. *)
Definition service_finalizing : Service :=
  let '(_, svc1) :=
    startImportSession clock "u1" "alice" (pv_totalRows preview) "extrato.csv"
                       service0 in
  let '(_, st) :=
    processImportWithStreaming MemoryStore.model upload mapping ∅ "alice" "u1"
                               file_rows EndOfStream [] in
  run_calls clock (calls st) svc1.

(** The same moment for a file with a header line only: the preview
    counted no row and the stream delivers none. *)
Definition calls_of_empty_file : list TrackerCall :=
  calls (processImportWithStreaming MemoryStore.model upload mapping ∅ "alice" "u1"
                                    [] EndOfStream []).2.

Definition service_started_empty : Service :=
  (startImportSession clock "u1" "alice" 0 "extrato.csv" service0).2.

Definition transaction_of (name : string) : Transaction :=
  {| user_id := ObjectIdFresh; buy_date := Some (LocalDate 19797);
     bill_name := name; bill_value := of_Z 10; bill_category := None;
     bill_type := "expense"; payment_type := "Nubank"; repeat := false;
     installments := "1/1"; fixed := false |}.

(** A session whose log already holds [n] entries. *)
Definition session_with_errors (n : nat) : Session :=
  {| uploadId := "u1"; userId := "alice"; filename := "extrato.csv";
     totalRows := 500; processedRows := Z.of_nat n; successfulRows := 0;
     errorRows := Z.of_nat n;
     errors :=
       map (fun k => {| e_message := "Dados da transação inválidos";
                        e_row := Some (Z.of_nat k + 1);
                        e_timestamp := 0 |})
           (seq 0 n);
     startTime := 0; status := Processing; currentBatch := 0;
     progress := percent (Z.of_nat n) 500;
     estimatedTimeRemaining := None; processingSpeed := of_Z 0;
     endTime := None; duration := None; result_ := None |}.

Definition service_with_errors (n : nat) : Service :=
  {| clients := ∅; importSessions := {[ "u1" := session_with_errors n ]};
     sent := []; timers := []; ticks := 1 |}.

End Examples.

(** ** Vocabulary of the properties *)

Module Spec.
Import JsString JsNum Transformer StreamingService Persistence ImportController.

(** The characters of a Brazilian amount: digits, point, comma. *)
Definition amount_char (a : ascii) : bool :=
  is_digit a || Ascii.eqb a "." || Ascii.eqb a ",".

(** A number that is not negative (and not NaN). *)
Definition nonnegative (x : jsnum) : Prop :=
  match x with
  | JNum q => (0 <= q)%Q
  | JInf negative => negative = false
  | JNaN => False
  end.

(** What identifies an entry of the error log, its time stamp apart. *)
Definition entry_key (e : ErrorEntry) : string * option Z :=
  (e_message e, e_row e).

(** [addError] called once for each (message, row) of [log], in order. *)
Definition add_errors (clock : nat -> Z) (id : string)
    (log : list (string * option Z)) (svc : Service) : Service :=
  foldl (fun svc c => addError clock id c.1 c.2 svc) svc log.

Definition progress_of (id : string) (svc : Service) : jsnum :=
  match importSessions svc !! id with
  | Some s => progress s
  | None => JNaN
  end.

(** The progress of session [id] before the calls and after each of them. *)
Fixpoint progress_history (clock : nat -> Z) (id : string) (cs : list TrackerCall)
    (svc : Service) : list jsnum :=
  progress_of id svc ::
  match cs with
  | [] => []
  | c :: rest => progress_history clock id rest (run_call clock svc c)
  end.

(** Each number is [<=] the next one. *)
Fixpoint nondecreasing (l : list jsnum) : bool :=
  match l with
  | x :: t =>
      match t with
      | y :: _ => leb x y && nondecreasing t
      | [] => true
      end
  | [] => true
  end.

(** Calls that are all for upload [id], the processed-row counts carried by
    the updates never going down from [p]. *)
Fixpoint rising_calls (id : string) (p : Z) (cs : list TrackerCall) : Prop :=
  match cs with
  | [] => True
  | CallAddError id' _ _ :: rest => id' = id /\ rising_calls id p rest
  | CallUpdateProgress id' u :: rest =>
      id' = id /\
      exists p', u_processedRows u = Some p' /\ p <= p' /\ rising_calls id p' rest
  end.

(** The processed-row count left by the calls, [p] before them. *)
Fixpoint last_processed (p : Z) (cs : list TrackerCall) : Z :=
  match cs with
  | [] => p
  | CallAddError _ _ _ :: rest => last_processed p rest
  | CallUpdateProgress _ u :: rest =>
      last_processed (default p (u_processedRows u)) rest
  end.

Definition only_errors (id : string) (cs : list TrackerCall) : Prop :=
  Forall (fun c => exists e r, c = CallAddError id e r) cs.

(** Session [id] has [t] total rows, [p] processed rows and a progress in
    step with them. *)
Definition in_step (id : string) (t p : Z) (svc : Service) : Prop :=
  exists s, importSessions svc !! id = Some s /\
            totalRows s = t /\ processedRows s = p /\ progress s = percent p t.

(** The calls made so far rise from 0 and stop at or below the number of
    rows read. *)
Definition calls_rise {DB Doc} (id : string) (st : PipelineState DB Doc) : Prop :=
  rising_calls id 0 (calls st) /\ last_processed 0 (calls st) <= processedCount st.

End Spec.

(** ** Separator detection, column mapping and preprocessing (import controller) *)

Module Detection.
Import JsString Transformer.

Definition newline : ascii := ascii_of_nat 10.
Definition tab : ascii := ascii_of_nat 9.

(** [(s.match(/c/g) || []).length] for a one-character pattern. *)
Fixpoint count_char (c : ascii) (s : string) : nat :=
  match s with
  | EmptyString => 0%nat
  | String a s' => if Ascii.eqb a c then S (count_char c s') else count_char c s'
  end.

(** [content.split('\n')[0]] *)
Definition first_line (content : string) : string :=
  match split newline content with
  | l :: _ => l
  | [] => EmptyString
  end.

(** One turn of the loop over the candidate separators: the running
    maximum and the separator that reached it. *)
Definition try_separator (firstLine : string) (acc : nat * ascii) (sep : ascii)
  : nat * ascii :=
  let '(maxCount, detectedSeparator) := acc in
  let count := count_char sep firstLine in
  if (maxCount <? count)%nat then (count, sep) else (maxCount, detectedSeparator).

Definition separators : list ascii := [","%char; ";"%char; tab].

Definition detectSeparator (content : string) : ascii :=
  (foldl (try_separator (first_line content)) (0%nat, ","%char) separators).2.

(** The inner loop of [findColumn]: some candidate name occurs in the
    header, case apart. *)
Fixpoint matches_any (header : string) (possibleNames : list string) : bool :=
  match possibleNames with
  | [] => false
  | name :: rest =>
      if includes (toLowerCase name) (toLowerCase header) then true
      else matches_any header rest
  end.

Fixpoint findColumn (headers : list string) (possibleNames : list string)
  : option string :=
  match headers with
  | [] => None
  | header :: rest =>
      if matches_any header possibleNames then Some header
      else findColumn rest possibleNames
  end.

(** [v || null] *)
Definition or_null (v : option string) : option string :=
  match v with
  | Some s => if truthy s then Some s else None
  | None => None
  end.

Definition generateColumnMapping (headers : list string) (type : ImportType)
  : ColumnMapping :=
  match type with
  | GbmoneyCsv =>
      {| m_date := Some "Data"; m_description := Some "Descrição";
         m_amount := Some "Valor"; m_category := Some "Categoria";
         m_payment_type := Some "Forma de Pagamento";
         m_installments := Some "Parcelas";
         m_repeat := Some "Repete"; m_fixed := Some "Fixa" |}
  | Nubank =>
      {| m_date := Some "date"; m_description := Some "title";
         m_amount := Some "amount";
         m_category := or_null (findColumn headers ["categoria"; "category"]);
         m_payment_type := None; m_installments := None;
         m_repeat := None; m_fixed := None |}
  | GenericCsv =>
      {| m_date := findColumn headers ["data"; "date"; "dt"];
         m_description :=
           findColumn headers ["descrição"; "description"; "desc"; "historico"];
         m_amount := findColumn headers ["valor"; "amount"; "value"; "vlr"];
         m_category := findColumn headers ["categoria"; "category"; "cat"];
         m_payment_type := None; m_installments := None;
         m_repeat := None; m_fixed := None |}
  end.

(** [line.split(',').slice(0, 8).join(',')] *)
Definition first8 (line : string) : string :=
  String.concat "," (take 8 (split "," line)).

Definition header_phrase : string := "Descrição,Categoria,Data,Forma de Pagamento".

Definition is_stop_line (line : string) : bool :=
  includes "A receber" line || includes "Total" line || includes "Valores base" line.

(** The loop of [preprocessGBMoneyCSV] over the lines still to read,
    [foundDataHeader] as it stands; the lines pushed from here on. *)
Fixpoint preprocess_lines (foundDataHeader : bool) (lines : list string)
  : list string :=
  match lines with
  | [] => []
  | l :: rest =>
      let line := trim l in
      if includes header_phrase line then
        first8 line :: preprocess_lines true rest
      else if foundDataHeader then
        if is_stop_line line then []
        else if truthy line && negb (startsWith ",,," line) then
          match split "," line with
          | p0 :: _ =>
              if truthy p0 && negb (String.eqb (trim p0) "") then
                first8 line :: preprocess_lines true rest
              else preprocess_lines true rest
          | [] => preprocess_lines true rest
          end
        else preprocess_lines true rest
      else preprocess_lines false rest
  end.

Definition preprocessGBMoneyCSV (content : string) : string :=
  String.concat (String newline "") (preprocess_lines false (split newline content)).

End Detection.

(** ** Session registry: sweeping, listing, unsubscribing (streaming service) *)

Module Registry.
Import JsString JsNum StreamingService.

Definition ONE_HOUR : Z := 60 * 60 * 1000.

(** [cleanup]: [Date.now()] is one reading of the clock; a session whose
    start time is before one hour ago is deleted. *)
Definition cleanup (clock : nat -> Z) (svc : Service) : Service :=
  let oneHourAgo := clock (ticks svc) - ONE_HOUR in
  let svc := tick svc in
  with_sessions svc
    (filter (fun kv : string * Session => ~ (startTime kv.2 < oneHourAgo))
            (importSessions svc)).

(** [getUserSessions]: the sessions of [userId] with their upload ids. The
    order of the list is the order in which the map is enumerated. *)
Definition getUserSessions (user : string) (svc : Service) : list (string * Session) :=
  List.filter (fun kv : string * Session => String.eqb (userId kv.2) user)
              (map_to_list (importSessions svc)).

(** [unsubscribeClient]: the socket leaves the set of [userId]; the set
    stays in the map, even empty. *)
Definition unsubscribeClient (ws : WebSocketClient) (user : string) (svc : Service)
  : Service :=
  match clients svc !! user with
  | Some set =>
      with_clients svc
        (<[user := filter (fun w => negb (ws_id w =? ws_id ws)%nat) set]>
           (clients svc))
  | None => svc
  end.

(** The sockets of [user] that are open and whose [send] does not throw. *)
Definition reachable (user : string) (svc : Service) : list WebSocketClient :=
  List.filter (fun ws => ws_open ws && negb (ws_send_throws ws))
              (default [] (clients svc !! user)).

End Registry.

(** ** Sweeping the upload store (import controller) *)

Module Uploads.
Import JsString JsNum Transformer StreamingService Persistence ImportController.

(** [cleanupOldUploads], [now] being [Date.now()]: an upload created before
    one hour ago is deleted (and its staged file removed). *)
Definition cleanupOldUploads (now : Z) (tempStorage : gmap string UploadData)
  : gmap string UploadData :=
  let oneHourAgo := now - 60 * 60 * 1000 in
  filter (fun kv : string * UploadData => ~ (up_createdAt kv.2 < oneHourAgo))
         tempStorage.

(** A bills model whose bulk insert never returns more documents than it
    was given. *)
Definition bounded_bulk {DB Doc} (M : Model DB Doc) : Prop :=
  forall db batch,
    match insertMany M db batch with
    | (_, inr saved) => (length saved <= length batch)%nat
    | (_, inl _) => True
    end.

(** The number of rows that pass the structural check. *)
Definition valid_rows (type : ImportType) (rows : list Row) : Z :=
  Z.of_nat (length (List.filter (fun r => isValidDataRow r type) rows)).

End Uploads.

(** ** Rolling the monthly bills forward (bills controller) *)

Module MonthlyBills.
Import JsString JsNum JsDate Transformer Persistence.

(** [`${n}`] for a result of [parseInt], [None] being NaN. *)
Definition show (n : option Z) : string :=
  match n with
  | Some z => pretty z
  | None => "NaN"
  end.

(** [parcel + 1] *)
Definition succ_number (n : option Z) : option Z := option_map (fun z => z + 1) n.

(** [parcel == totalParcel] on two numbers: NaN equals nothing. *)
Definition loose_eq (a b : option Z) : bool :=
  match a, b with
  | Some x, Some y => x =? y
  | _, _ => false
  end.

(** What [createMonthlyBills] answers: 200 with the bills created, or 404
    with the value that was thrown. *)
Inductive MonthlyReply (Doc : Type) : Type :=
  | MonthlyCreated (data : list Doc)
  | MonthlyFailed (error : Thrown).
Arguments MonthlyCreated {Doc} _.
Arguments MonthlyFailed {Doc} _.

Section Monthly.
Context {DB Doc : Type} (M : Model DB Doc).
(** The end of last month and the owner read from the request. *)
Variables (endOfLastMonth : jsdate) (owner : ObjectId).

(** One turn of the loop up to the call of [create]: the two counters as
    the turn leaves them, and the record to create, [None] when the turn
    ends with [continue]. The bills read from the store hold their
    installments as a text. *)
Definition next_bill (bill : Transaction) (parcel totalParcel : option Z)
  : option Z * option Z * option Transaction :=
  let '(parcel, totalParcel) :=
    if repeat bill then
      (parseInt_part (split "/" (installments bill) !! 0%nat),
       parseInt_part (split "/" (installments bill) !! 1%nat))
    else (parcel, totalParcel) in
  if repeat bill && loose_eq parcel totalParcel then (parcel, totalParcel, None)
  else
    (parcel, totalParcel,
     Some {| user_id := owner;
             bill_name := bill_name bill;
             bill_category := bill_category bill;
             bill_type := bill_type bill;
             bill_value := bill_value bill;
             buy_date := Some endOfLastMonth;
             fixed := fixed bill;
             repeat := repeat bill;
             installments :=
               if repeat bill
               then show (succ_number parcel) ++ "/" ++ show totalParcel
               else installments bill;
             payment_type := payment_type bill |}).

(** The loop over the bills found, [billsUpdate] as it stands. *)
Fixpoint monthly_loop (bills : list Transaction) (parcel totalParcel : option Z)
    (db : DB) (billsUpdate : list Doc) : DB * (Thrown + list Doc) :=
  match bills with
  | [] => (db, inr billsUpdate)
  | bill :: rest =>
      match next_bill bill parcel totalParcel with
      | (parcel, totalParcel, None) =>
          monthly_loop rest parcel totalParcel db billsUpdate
      | (parcel, totalParcel, Some data) =>
          match create M db data with
          | (db', inr billCreated) =>
              monthly_loop rest parcel totalParcel db'
                           (billsUpdate ++ [billCreated])%list
          | (db', inl error) => (db', inl error)
          end
      end
  end.

(** [createMonthlyBills], [found] being what the query for the fixed and
    repeated bills of last month gave. *)
Definition createMonthlyBills (found : Thrown + list Transaction) (db : DB)
  : DB * MonthlyReply Doc :=
  match found with
  | inl error => (db, MonthlyFailed error)
  | inr getAllBillsForLastMonth =>
      match monthly_loop getAllBillsForLastMonth (Some 0) (Some 0) db [] with
      | (db', inr billsUpdate) => (db', MonthlyCreated billsUpdate)
      | (db', inl error) => (db', MonthlyFailed error)
      end
  end.

(** Installments written k/n with two numbers of one to fifteen digits,
    which [parseInt] reads exactly. *)
Definition written_k_of_n (s : string) : bool :=
  match split "/" s with
  | [k; n] =>
      all_digits k && all_digits n &&
      (1 <=? String.length k)%nat && (String.length k <=? 15)%nat &&
      (1 <=? String.length n)%nat && (String.length n <=? 15)%nat
  | _ => false
  end.

(** A repeated bill whose installments read "k/k". *)
Definition finished (bill : Transaction) : bool :=
  repeat bill &&
  loose_eq (parseInt_part (split "/" (installments bill) !! 0%nat))
           (parseInt_part (split "/" (installments bill) !! 1%nat)).

End Monthly.

End MonthlyBills.

(** ** More example data *)

Module Scenarios.
Import JsString JsNum Transformer StreamingService Persistence ImportController.
Import Detection Registry Uploads MonthlyBills Examples.

(** A bank export of two lines, without the header of the finance app. *)
Definition bank_text : string :=
  "date,title,amount" ++ String newline "2024-03-15,Mercado,10".

(** A clock read more than one hour after the start of the sessions of
    [service_with_errors]. *)
Definition late_clock (n : nat) : Z := 3600001 + 1000 * Z.of_nat n.

Definition headers : list string := ["Data"; "Descrição"; "Valor"].

Definition closed_socket : WebSocketClient :=
  {| ws_id := 2; ws_userId := Some "alice"; ws_open := false;
     ws_send_throws := false |}.

Definition service_two_sockets : Service :=
  {| clients := {[ "alice" := [socket; closed_socket] ]}; importSessions := ∅;
     sent := []; timers := []; ticks := 0 |}.

Definition started_message : Message :=
  {| msg_type := "import_started"; msg_uploadId := "u1";
     msg_session := session_with_errors 0 |}.

(** A store without index: nothing is rejected. *)
Definition append_model : Model (list Transaction) Transaction :=
  {| insertMany := fun db batch => ((db ++ batch)%list, inr batch);
     countDocuments := fun _ => None;
     create := fun db t => ((db ++ [t])%list, inr t) |}.

Definition bill_of (name installments : string) (repeat fixed : bool) : Transaction :=
  {| user_id := ObjectIdOf "64b7f0c2a1b2c3d4e5f60718";
     buy_date := Some (LocalDate 19797);
     bill_name := name; bill_value := of_Z 10; bill_category := None;
     bill_type := "expense"; payment_type := "Nubank"; repeat := repeat;
     installments := installments; fixed := fixed |}.

(** Last month's bills: a rent, the second of three installments, a last
    installment, and an installment numbered past its total. *)
Definition last_month : list Transaction :=
  [bill_of "Aluguel" "1/1" false true; bill_of "Sofá" "2/3" true false;
   bill_of "Curso" "3/3" true false; bill_of "Celular" "5/3" true false].

End Scenarios.
(** * Properties of the import pipeline *)

Import JsString JsNum JsDate Regex Transformer StreamingService Persistence
       ImportController Spec.


(** ** Strings *)

Section StringFacts.

Lemma is_digit_inv c :
  is_digit c = true ->
  c = "0"%char \/ c = "1"%char \/ c = "2"%char \/ c = "3"%char \/ c = "4"%char \/
  c = "5"%char \/ c = "6"%char \/ c = "7"%char \/ c = "8"%char \/ c = "9"%char.
Proof.
  destruct c as [[] [] [] [] [] [] [] []]; vm_compute; intros H;
    try discriminate H; tauto.
Qed.

Lemma every_app P a b : every P (a ++ b) = every P a && every P b.
Proof. induction a as [|x a IH]; simpl; [reflexivity|]. rewrite IH. apply andb_assoc. Qed.

Lemma every_impl (P Q : ascii -> bool) s :
  (forall c, P c = true -> Q c = true) -> every P s = true -> every Q s = true.
Proof.
  intros HPQ. induction s as [|x s IH]; simpl; [reflexivity|].
  intros [Hx Hs]%andb_prop. rewrite (HPQ _ Hx). simpl. auto.
Qed.

End StringFacts.

Ltac digit_case H :=
  apply is_digit_inv in H;
  repeat (destruct H as [H | H]); subst.

Lemma digit_not_space c : is_digit c = true -> is_space c = false.
Proof. intros H. digit_case H; reflexivity. Qed.

Lemma trimEnd_nospace s : every (fun c => negb (is_space c)) s = true -> trimEnd s = s.
Proof.
  induction s as [|a s IH]; simpl; [reflexivity|].
  intros [Ha Hs]%andb_prop. rewrite (IH Hs).
  destruct s; [|reflexivity]. apply negb_true_iff in Ha. now rewrite Ha.
Qed.

Lemma trimStart_nospace s : every (fun c => negb (is_space c)) s = true -> trimStart s = s.
Proof.
  destruct s as [|a s]; simpl; [reflexivity|].
  intros [Ha Hs]%andb_prop. apply negb_true_iff in Ha. now rewrite Ha.
Qed.

Lemma trim_nospace s : every (fun c => negb (is_space c)) s = true -> trim s = s.
Proof. intros H. unfold trim. rewrite (trimStart_nospace _ H). now apply trimEnd_nospace. Qed.

Lemma split_no_sep c s :
  every (fun a => negb (Ascii.eqb a c)) s = true -> split c s = [s].
Proof.
  induction s as [|a s IH]; simpl; [reflexivity|].
  intros [Ha Hs]%andb_prop. apply negb_true_iff in Ha. rewrite Ha, (IH Hs). reflexivity.
Qed.

Lemma split_app_sep c d r :
  every (fun a => negb (Ascii.eqb a c)) d = true ->
  split c (d ++ String c r) = d :: split c r.
Proof.
  induction d as [|a d IH]; simpl.
  - intros _. now rewrite Ascii.eqb_refl.
  - intros [Ha Hs]%andb_prop. apply negb_true_iff in Ha. rewrite Ha, (IH Hs). reflexivity.
Qed.

Lemma span_digits_all d : all_digits d = true -> span_digits d = (d, "").
Proof.
  induction d as [|a d IH]; simpl; [reflexivity|].
  intros [Ha Hs]%andb_prop. rewrite Ha, (IH Hs). reflexivity.
Qed.

Lemma span_digits_app d c r :
  all_digits d = true -> is_digit c = false ->
  span_digits (d ++ String c r) = (d, String c r).
Proof.
  intros Hd Hc. induction d as [|a d IH]; simpl.
  - now rewrite Hc.
  - simpl in Hd. apply andb_prop in Hd as [Ha Hs]. rewrite Ha, (IH Hs). reflexivity.
Qed.

Lemma parseInt_digits d :
  all_digits d = true -> d <> "" -> parseInt d = Some (digits_val d).
Proof.
  intros Hd Hne. destruct d as [|a d]; [congruence|].
  unfold parseInt. pose proof Hd as Hd'. simpl in Hd'. apply andb_prop in Hd' as [Ha Hs].
  assert (Hsp : trimStart (String a d) = String a d).
  { simpl. now rewrite (digit_not_space _ Ha). }
  rewrite Hsp.
  assert (Hsign : split_sign (String a d) = (false, String a d)).
  { clear -Ha. digit_case Ha; reflexivity. }
  rewrite Hsign. rewrite (span_digits_all _ Hd). reflexivity.
Qed.

Lemma eat_digits_app d r :
  all_digits d = true -> eat_digits (String.length d) (d ++ r) = Some r.
Proof.
  induction d as [|a d IH]; simpl; [reflexivity|].
  intros [Ha Hs]%andb_prop. rewrite Ha. auto.
Qed.

Lemma test_digits lo hi p d r :
  all_digits d = true -> (lo <= String.length d <= hi)%nat ->
  test p r = true -> test (Digits lo hi :: p) (d ++ r) = true.
Proof.
  intros Hd Hlen Hr. simpl. apply existsb_exists.
  exists (String.length d). split.
  - apply in_seq. lia.
  - now rewrite (eat_digits_app _ _ Hd).
Qed.

Lemma test_lit c p r : test (Lit c :: p) (String c r) = test p r.
Proof. simpl. now rewrite Ascii.eqb_refl. Qed.

(** ** The calendar *)

Lemma YearFromDay_unique t y :
  DayFromYear y <= t < DayFromYear (y + 1) -> YearFromDay t = y.
Proof.
  unfold YearFromDay, DayFromYear. intros H.
  repeat match goal with |- context [Z.leb ?a ?b] => destruct (Z.leb_spec a b) end;
  Z.div_mod_to_equations; lia.
Qed.

Lemma DayFromYear_succ y : DayFromYear (y + 1) = DayFromYear y + DaysInYear y.
Proof.
  unfold DayFromYear, DaysInYear, InLeapYear.
  repeat match goal with |- context [Z.eqb ?a ?b] => destruct (Z.eqb_spec a b) end;
  simpl; Z.div_mod_to_equations; lia.
Qed.

Lemma month_offset_in_year leap mn d :
  0 <= mn < 12 -> 1 <= d <= 31 ->
  0 <= DaysBeforeMonth leap mn + d - 1 < (if leap then 366 else 365).
Proof.
  intros Hm Hd.
  assert (Hc : mn = 0 \/ mn = 1 \/ mn = 2 \/ mn = 3 \/ mn = 4 \/ mn = 5 \/ mn = 6 \/
               mn = 7 \/ mn = 8 \/ mn = 9 \/ mn = 10 \/ mn = 11) by lia.
  destruct leap;
  repeat (destruct Hc as [-> | Hc]); try subst mn;
  match goal with
  | |- context [DaysBeforeMonth ?l ?k] =>
      let v := eval vm_compute in (DaysBeforeMonth l k) in
      change (DaysBeforeMonth l k) with v
  end; lia.
Qed.

Lemma MakeDay_in_year y mn d :
  0 <= mn < 12 -> 1 <= d <= 31 ->
  YearFromDay (MakeDay y mn d) = y.
Proof.
  intros Hm Hd. apply YearFromDay_unique.
  unfold MakeDay. rewrite Z.div_small, Z.mod_small, Z.add_0_r by lia.
  rewrite DayFromYear_succ. unfold DaysInYear.
  pose proof (month_offset_in_year (InLeapYear y) mn d Hm Hd). lia.
Qed.

Lemma app_cons c (s r : string) : String c s ++ r = String c (s ++ r).
Proof. reflexivity. Qed.

Lemma app_nil (r : string) : "" ++ r = r.
Proof. reflexivity. Qed.

Lemma app_nil_right (s : string) : s ++ "" = s.
Proof. induction s as [|a s IH]; [reflexivity|]. rewrite app_cons. now rewrite IH. Qed.

Ltac norm_app := rewrite ?app_cons, ?app_nil.

Lemma digit_not_char c x :
  is_digit c = true -> is_digit x = false -> Ascii.eqb c x = false.
Proof.
  intros Hc Hx. destruct (Ascii.eqb_spec c x) as [->|]; [congruence | reflexivity].
Qed.

Lemma digit_val_bounds c : is_digit c = true -> 0 <= digit_val c <= 9.
Proof. intros H. digit_case H; vm_compute; split; discriminate. Qed.

Lemma digits_val_acc_bounds s : forall acc,
  all_digits s = true -> 0 <= acc ->
  10 ^ Z.of_nat (String.length s) * acc <= digits_val_acc acc s
    < 10 ^ Z.of_nat (String.length s) * (acc + 1).
Proof.
  induction s as [|a s IH]; intros acc Hs Hacc.
  - simpl. lia.
  - simpl in Hs. apply andb_prop in Hs as [Ha Hs].
    pose proof (digit_val_bounds _ Ha).
    cbn [String.length digits_val_acc].
    specialize (IH (10 * acc + digit_val a) Hs ltac:(lia)).
    rewrite Nat2Z.inj_succ, Z.pow_succ_r by lia.
    assert (0 < 10 ^ Z.of_nat (String.length s)) by (apply Z.pow_pos_nonneg; lia).
    nia.
Qed.

Lemma digits_val_bounds s :
  all_digits s = true -> 0 <= digits_val s < 10 ^ Z.of_nat (String.length s).
Proof.
  intros Hs. pose proof (digits_val_acc_bounds s 0 Hs ltac:(lia)). unfold digits_val. lia.
Qed.

Lemma parseDate_nonempty s :
  s <> "" ->
  parseDate (Some s) =
    match date_format (trim s) with
    | Some f => build_date f (trim s)
    | None => Throw ("Formato de data inválido: " ++ s)
    end.
Proof. destruct s; [congruence | reflexivity]. Qed.

Lemma digits_no_slash d :
  all_digits d = true -> every (fun a => negb (Ascii.eqb a "/")) d = true.
Proof.
  apply every_impl. intros c Hc. apply negb_true_iff. now apply digit_not_char.
Qed.

Lemma digits_nospace d :
  all_digits d = true -> every (fun a => negb (is_space a)) d = true.
Proof.
  apply every_impl. intros c Hc. apply negb_true_iff. now apply digit_not_space.
Qed.

Lemma DayFromYear_bounds y : 0 <= y <= 9999 -> -720000 <= DayFromYear y <= 2940000.
Proof. intros H. unfold DayFromYear. Z.div_mod_to_equations. lia. Qed.

(** C9, as the code has it: a text [D/M/YY] of one or two digits for the
    day, one or two for the month and two for the year, with a month from 1
    to 12 and a day from 1 to 31, is parsed to a date of the year 2000 + YY
    (a day past the end of its month is carried into the next month, which
    is still in that year). *)
Theorem parseDate_two_digit_year_valid (d m y : string) :
  all_digits d = true -> all_digits m = true -> all_digits y = true ->
  (1 <= String.length d <= 2)%nat -> (1 <= String.length m <= 2)%nat ->
  String.length y = 2%nat ->
  1 <= digits_val m <= 12 ->
  1 <= digits_val d <= 31 ->
  exists date,
    parseDate (Some (d ++ "/" ++ m ++ "/" ++ y)) = Ok (Some date) /\
    getFullYear date = Some (2000 + digits_val y).
Proof.
  intros Hd Hm Hy Ld Lm Ly Vm Vd.
  set (s := d ++ "/" ++ m ++ "/" ++ y).
  assert (Hne : s <> "") by (subst s; destruct d; simpl in *; [lia | discriminate]).
  assert (Htrim : trim s = s).
  { apply trim_nospace. subst s. rewrite !every_app. cbn [every].
    rewrite !digits_nospace by assumption. reflexivity. }
  assert (Htest : test re_dmy2 s = true).
  { subst s. unfold re_dmy2.
    apply test_digits; [assumption | lia |]. norm_app. rewrite test_lit.
    apply test_digits; [assumption | lia |]. norm_app. rewrite test_lit.
    rewrite <- (app_nil_right y).
    apply test_digits; [assumption | lia | reflexivity]. }
  assert (Hsplit : split "/" s = [d; m; y]).
  { subst s. norm_app.
    rewrite split_app_sep by now apply digits_no_slash.
    rewrite split_app_sep by now apply digits_no_slash.
    rewrite split_no_sep by now apply digits_no_slash. reflexivity. }
  assert (Hyb : 0 <= digits_val y < 100).
  { pose proof (digits_val_bounds y Hy) as H. rewrite Ly in H. exact H. }
  rewrite (parseDate_nonempty _ Hne), Htrim.
  unfold date_format. rewrite Htest. unfold build_date. rewrite Hsplit.
  cbn [lookup list_lookup]. unfold parseInt_part. simpl mbind.
  rewrite !parseInt_digits by (try assumption; intros ->; simpl in *; lia).
  cbn [fmap option_fmap option_map]. unfold new_Date.
  replace ((0 <=? digits_val y + 2000) && (digits_val y + 2000 <=? 99)) with false
    by (symmetry; apply andb_false_iff; right; apply Z.leb_gt; lia).
  replace (digits_val y + 2000) with (2000 + digits_val y) by lia.
  assert (Hyear : YearFromDay (MakeDay (2000 + digits_val y) (digits_val m - 1)
                                       (digits_val d)) = 2000 + digits_val y).
  { apply MakeDay_in_year; [lia | assumption]. }
  assert (Hrange : in_range (MakeDay (2000 + digits_val y) (digits_val m - 1)
                                     (digits_val d)) = true).
  { unfold in_range. apply Z.leb_le.
    pose proof (month_offset_in_year (InLeapYear (2000 + digits_val y))
                  (digits_val m - 1) (digits_val d) ltac:(lia) Vd) as Hoff.
    pose proof (DayFromYear_bounds (2000 + digits_val y) ltac:(lia)) as Hb.
    unfold MakeDay. rewrite Z.div_small, Z.mod_small, Z.add_0_r by lia.
    destruct (InLeapYear (2000 + digits_val y)); lia. }
  rewrite Hrange. simpl toISOString_ok. cbv iota.
  eexists. split; [reflexivity|]. simpl. now rewrite Hyear.
Qed.

(** ** Cleaning and reading an amount *)

Lemma remove_all_none q s :
  every (fun a => negb (Ascii.eqb a q)) s = true -> remove_all q s = s.
Proof.
  induction s as [|a s IH]; simpl; [reflexivity|].
  intros [Ha Hs]%andb_prop. apply negb_true_iff in Ha. now rewrite Ha, (IH Hs).
Qed.

Lemma remove_all_app q a b : remove_all q (a ++ b) = remove_all q a ++ remove_all q b.
Proof.
  induction a as [|x a IH]; [reflexivity|]. rewrite app_cons. simpl.
  destruct (Ascii.eqb x q); [assumption|]. now rewrite app_cons, IH.
Qed.

Lemma includes_char_false ch s :
  includes (String ch "") s = false -> every (fun a => negb (Ascii.eqb a ch)) s = true.
Proof.
  induction s as [|a s IH]; [reflexivity|].
  cbn [includes startsWith every]. rewrite andb_true_r.
  intros [H1 H2]%orb_false_iff. rewrite Ascii.eqb_sym, H1. simpl. auto.
Qed.

Lemma includes_char_app ch a r : includes (String ch "") (a ++ String ch r) = true.
Proof.
  induction a as [|x a IH].
  - rewrite app_nil. cbn [includes startsWith]. now rewrite Ascii.eqb_refl.
  - rewrite app_cons. cbn [includes]. rewrite IH. apply orb_true_r.
Qed.

Lemma strip_currency_none s :
  every (fun a => negb (Ascii.eqb a "R")) s = true -> strip_currency false s = s.
Proof.
  induction s as [|a s IH]; [reflexivity|].
  cbn [every]. intros [Ha Hs]%andb_prop. apply negb_true_iff in Ha.
  cbn [strip_currency andb]. destruct s as [|b s]; [reflexivity|].
  rewrite Ha. cbn [andb]. now rewrite (IH Hs).
Qed.

Lemma replace_first_app c d a r :
  every (fun x => negb (Ascii.eqb x c)) a = true ->
  replace_first c d (a ++ String c r) = a ++ String d r.
Proof.
  induction a as [|x a IH].
  - intros _. rewrite !app_nil. simpl. now rewrite Ascii.eqb_refl.
  - cbn [every]. intros [Hx Ha]%andb_prop. apply negb_true_iff in Hx.
    rewrite !app_cons. simpl. now rewrite Hx, (IH Ha).
Qed.

(** With a comma in the text, the two Brazilian branches of the cleaning
    agree: every point goes and the first comma becomes the point. *)
Lemma brazilian_branches t :
  includes "," t = true ->
  (if includes "." t && includes "," t then
     replace_first "," "." (remove_all "." t)
   else if includes "," t && negb (includes "." t) then
     replace_first "," "." t
   else t) = replace_first "," "." (remove_all "." t).
Proof.
  intros Hc. rewrite Hc. destruct (includes "." t) eqn:Hp; simpl; [reflexivity|].
  now rewrite (remove_all_none _ _ (includes_char_false _ _ Hp)).
Qed.

Lemma amount_char_not a x :
  amount_char a = true -> amount_char x = false -> Ascii.eqb a x = false.
Proof.
  intros Ha Hx. destruct (Ascii.eqb_spec a x) as [->|]; [congruence | reflexivity].
Qed.

Lemma digits_amount s : all_digits s = true -> every amount_char s = true.
Proof. apply every_impl. intros c Hc. unfold amount_char. now rewrite Hc. Qed.

Lemma digits_every_not x s :
  is_digit x = false -> all_digits s = true ->
  every (fun a => negb (Ascii.eqb a x)) s = true.
Proof.
  intros Hx. apply every_impl. intros c Hc. apply negb_true_iff.
  now apply digit_not_char.
Qed.

Lemma concat_digits groups :
  Forall (fun g => all_digits g = true) groups ->
  all_digits (String.concat "" groups) = true.
Proof.
  induction 1 as [|g gs Hg Hgs IH]; [reflexivity|].
  destruct gs as [|g' gs]; [exact Hg|].
  change (String.concat "" (g :: g' :: gs)) with (g ++ "" ++ String.concat "" (g' :: gs)).
  rewrite app_nil. unfold all_digits in *. rewrite every_app, Hg, IH. reflexivity.
Qed.

Lemma concat_amount groups :
  Forall (fun g => all_digits g = true) groups ->
  every amount_char (String.concat "." groups) = true.
Proof.
  induction 1 as [|g gs Hg Hgs IH]; [reflexivity|].
  destruct gs as [|g' gs]; [now apply digits_amount|].
  change (String.concat "." (g :: g' :: gs)) with (g ++ "." ++ String.concat "." (g' :: gs)).
  rewrite !every_app, (digits_amount _ Hg), IH. reflexivity.
Qed.

Lemma remove_points groups :
  Forall (fun g => all_digits g = true) groups ->
  remove_all "." (String.concat "." groups) = String.concat "" groups.
Proof.
  induction 1 as [|g gs Hg Hgs IH]; [reflexivity|].
  destruct gs as [|g' gs].
  - simpl String.concat. apply remove_all_none. now apply digits_every_not.
  - change (String.concat "." (g :: g' :: gs)) with (g ++ "." ++ String.concat "." (g' :: gs)).
    change (String.concat "" (g :: g' :: gs)) with (g ++ "" ++ String.concat "" (g' :: gs)).
    rewrite !remove_all_app, IH.
    rewrite (remove_all_none "." g) by now apply digits_every_not.
    reflexivity.
Qed.

Lemma parse_decimal_fraction a c :
  all_digits a = true -> all_digits c = true -> a ++ c <> "" ->
  parseFloat (a ++ String "." c) =
    JNum (inject_Z (digits_val (a ++ c)) * pow10 (0 - Z.of_nat (String.length c))).
Proof.
  intros Ha Hc Hne.
  assert (Hhead : trimStart (a ++ String "." c) = a ++ String "." c /\
                  split_sign (a ++ String "." c) = (false, a ++ String "." c) /\
                  startsWith "Infinity" (a ++ String "." c) = false).
  { destruct a as [|x a]; [repeat split; reflexivity|].
    simpl in Ha. apply andb_prop in Ha as [Hx _]. rewrite app_cons.
    digit_case Hx; repeat split; reflexivity. }
  destruct Hhead as (Ht & Hs & Hi).
  unfold parseFloat. rewrite Ht, Hs. unfold parse_decimal. rewrite Hi.
  rewrite (span_digits_app a "." c Ha eq_refl).
  rewrite (span_digits_all c Hc).
  destruct a as [|x a], c as [|y c]; try reflexivity.
  now rewrite app_nil in Hne.
Qed.

Lemma pow10_neg_length n :
  (pow10 (0 - Z.of_nat n) == / inject_Z (10 ^ Z.of_nat n))%Q.
Proof.
  unfold pow10. destruct (Z.leb_spec 0 (0 - Z.of_nat n)).
  - assert (n = 0%nat) by lia. subst. reflexivity.
  - replace (- (0 - Z.of_nat n)) with (Z.of_nat n) by lia. reflexivity.
Qed.

Lemma pow10_nonneg k : (0 <= pow10 k)%Q.
Proof.
  unfold pow10. destruct (0 <=? k).
  - change 0%Q with (inject_Z 0). rewrite <- Zle_Qle. apply Z.pow_nonneg. lia.
  - apply Qinv_le_0_compat. change 0%Q with (inject_Z 0). rewrite <- Zle_Qle.
    apply Z.pow_nonneg. lia.
Qed.

Lemma app_cons_nonempty (a : string) ch r : a ++ String ch r <> "".
Proof. destruct a; discriminate. Qed.

Lemma parseAmount_nonempty s :
  s <> "" ->
  parseAmount (Some s) =
    if isNaN (parseFloat (clean_amount s)) then Throw ("Valor inválido: " ++ s)
    else Ok (abs (parseFloat (clean_amount s))).
Proof. destruct s; [congruence | reflexivity]. Qed.

Lemma clean_amount_groups groups c :
  Forall (fun g => all_digits g = true) groups -> all_digits c = true ->
  clean_amount (String.concat "." groups ++ "," ++ c) =
    String.concat "" groups ++ String "." c.
Proof.
  intros Hg Hc. unfold clean_amount.
  set (s := String.concat "." groups ++ "," ++ c).
  assert (Hs : every amount_char s = true).
  { subst s. rewrite !every_app, (concat_amount _ Hg), (digits_amount _ Hc). reflexivity. }
  assert (Hq : remove_all quote_char s = s).
  { apply remove_all_none. revert Hs. apply every_impl. intros a Ha.
    apply negb_true_iff. now apply amount_char_not. }
  assert (Hr : strip_currency false s = s).
  { apply strip_currency_none. revert Hs. apply every_impl. intros a Ha.
    apply negb_true_iff. now apply amount_char_not. }
  rewrite Hq, Hr.
  rewrite brazilian_branches by (subst s; norm_app; apply includes_char_app).
  subst s. rewrite !remove_all_app, (remove_points _ Hg).
  rewrite (remove_all_none "." c) by now apply digits_every_not.
  change (remove_all "." ",") with ",". norm_app.
  rewrite replace_first_app
    by (apply digits_every_not; [reflexivity | now apply concat_digits]).
  apply trim_nospace. rewrite every_app. cbn [every].
  rewrite !digits_nospace by (try assumption; now apply concat_digits). reflexivity.
Qed.

Lemma parseAmount_groups groups c :
  Forall (fun g => all_digits g = true) groups -> all_digits c = true ->
  String.concat "" groups ++ c <> "" ->
  exists q,
    parseAmount (Some (String.concat "." groups ++ "," ++ c)) = Ok (JNum q) /\
    (q == inject_Z (digits_val (String.concat "" groups ++ c)) /
          inject_Z (10 ^ Z.of_nat (String.length c)))%Q.
Proof.
  intros Hg Hc Hne.
  rewrite parseAmount_nonempty by (norm_app; apply app_cons_nonempty).
  rewrite (clean_amount_groups _ _ Hg Hc).
  rewrite (parse_decimal_fraction _ _ (concat_digits _ Hg) Hc Hne).
  cbn [isNaN abs]. eexists; split; [reflexivity|].
  rewrite Qabs_pos.
  - rewrite pow10_neg_length. reflexivity.
  - apply Qmult_le_0_compat; [|apply pow10_nonneg].
    change 0%Q with (inject_Z 0). rewrite <- Zle_Qle.
    apply digits_val_bounds. pose proof (concat_digits _ Hg) as Hcd.
    unfold all_digits in *. rewrite every_app, Hcd, Hc. reflexivity.
Qed.


(** ** The streaming service *)

Section TrackerFacts.
Variable clock : nat -> Z.

Lemma removeClient_sessions ws svc :
  importSessions (removeClient ws svc) = importSessions svc.
Proof.
  unfold removeClient. destruct (ws_userId ws) as [u|]; [|reflexivity].
  destruct (truthy u); [|reflexivity].
  destruct (clients svc !! u) as [set|]; [|reflexivity].
  destruct (filter _ set); reflexivity.
Qed.

Lemma removeClient_ticks ws svc : ticks (removeClient ws svc) = ticks svc.
Proof.
  unfold removeClient. destruct (ws_userId ws) as [u|]; [|reflexivity].
  destruct (truthy u); [|reflexivity].
  destruct (clients svc !! u) as [set|]; [|reflexivity].
  destruct (filter _ set); reflexivity.
Qed.

Lemma broadcast_fold_sessions message l : forall svc,
  importSessions
    (foldl (fun svc ws =>
              if ws_open ws then
                if ws_send_throws ws then removeClient ws svc
                else with_sent svc ((ws_id ws, message) :: sent svc)
              else svc) svc l) = importSessions svc
  /\
  ticks
    (foldl (fun svc ws =>
              if ws_open ws then
                if ws_send_throws ws then removeClient ws svc
                else with_sent svc ((ws_id ws, message) :: sent svc)
              else svc) svc l) = ticks svc.
Proof.
  induction l as [|ws l IH]; intros svc; [split; reflexivity|].
  cbn [foldl]. destruct (IH (if ws_open ws then
                if ws_send_throws ws then removeClient ws svc
                else with_sent svc ((ws_id ws, message) :: sent svc)
              else svc)) as [-> ->].
  destruct (ws_open ws); [|split; reflexivity].
  destruct (ws_send_throws ws); [|split; reflexivity].
  split; [apply removeClient_sessions | apply removeClient_ticks].
Qed.

Lemma broadcastToUser_sessions u message svc :
  importSessions (broadcastToUser u message svc) = importSessions svc.
Proof.
  unfold broadcastToUser. destruct (clients svc !! u); [|reflexivity].
  apply broadcast_fold_sessions.
Qed.

Lemma broadcastToUser_ticks u message svc :
  ticks (broadcastToUser u message svc) = ticks svc.
Proof.
  unfold broadcastToUser. destruct (clients svc !! u); [|reflexivity].
  apply broadcast_fold_sessions.
Qed.

Lemma updateProgress_sessions id u svc s :
  importSessions svc !! id = Some s ->
  importSessions (updateProgress clock id u svc) =
    <[id := recompute (clock (ticks svc)) (assign s u)]> (importSessions svc).
Proof.
  intros H. unfold updateProgress. rewrite H.
  rewrite broadcastToUser_sessions. reflexivity.
Qed.

Lemma updateProgress_ticks id u svc s :
  importSessions svc !! id = Some s ->
  ticks (updateProgress clock id u svc) = S (ticks svc).
Proof.
  intros H. unfold updateProgress. rewrite H.
  rewrite broadcastToUser_ticks. reflexivity.
Qed.

Lemma addError_sessions id e r svc s :
  importSessions svc !! id = Some s ->
  importSessions (addError clock id e r svc) =
    <[id := recompute (clock (S (ticks svc))) (assign (push_error (clock (ticks svc)) s e r) no_update)]>
      (importSessions svc).
Proof.
  intros H. unfold addError. rewrite H.
  erewrite updateProgress_sessions by (cbn; apply lookup_insert_eq).
  cbn. rewrite insert_insert_eq. reflexivity.
Qed.

End TrackerFacts.

Section LastN.
Context {A : Type}.

Lemma lastn_length (n : nat) (l : list A) : (length (lastn n l) <= n)%nat.
Proof. unfold lastn. rewrite length_drop. lia. Qed.

Lemma lastn_short (n : nat) (l : list A) : (length l <= n)%nat -> lastn n l = l.
Proof. intros H. unfold lastn. replace (length l - n)%nat with 0%nat by lia. reflexivity. Qed.

Lemma lastn_app (n : nat) (l x : list A) :
  lastn n (lastn n l ++ x) = lastn n (l ++ x).
Proof.
  destruct (Nat.le_gt_cases (length l) n) as [Hle | Hgt].
  - now rewrite (lastn_short n l Hle).
  - unfold lastn. rewrite !length_app, length_drop.
    replace (length l - (length l - n) + length x - n)%nat with (length x) by lia.
    replace (length l + length x - n)%nat with ((length l - n) + length x)%nat by lia.
    rewrite <- drop_drop. rewrite (drop_app_le l x (length l - n)) by lia. reflexivity.
Qed.
End LastN.

Section ErrorLog.
Variable clock : nat -> Z.

Lemma push_error_errors now s e r :
  errors (push_error now s e r) =
    lastn 100 (errors s ++ [{| e_message := e; e_row := r; e_timestamp := now |}]).
Proof.
  unfold push_error. cbn [errors set_errors].
  destruct (Nat.ltb_spec 100 (length (errors s ++ [{| e_message := e; e_row := r; e_timestamp := now |}]))).
  - reflexivity.
  - symmetry. apply lastn_short. assumption.
Qed.

Lemma recompute_errors now s : errors (recompute now s) = errors s.
Proof. reflexivity. Qed.

Lemma assign_errors s u : errors (assign s u) = errors s.
Proof. reflexivity. Qed.

Lemma addError_step id e r svc s :
  importSessions svc !! id = Some s ->
  exists s',
    importSessions (addError clock id e r svc) !! id = Some s' /\
    errors s' =
      lastn 100 (errors s ++ [{| e_message := e; e_row := r;
                                  e_timestamp := clock (ticks svc) |}]).
Proof.
  intros H. rewrite (addError_sessions clock _ _ _ _ _ H), lookup_insert_eq.
  eexists. split; [reflexivity|].
  rewrite recompute_errors, assign_errors. apply push_error_errors.
Qed.

Lemma map_lastn {A B} (f : A -> B) n (l : list A) : map f (lastn n l) = lastn n (map f l).
Proof. unfold lastn. rewrite length_map. symmetry. apply skipn_map. Qed.

Lemma addError_sequence (calls : list (string * option Z)) : forall id svc s,
  importSessions svc !! id = Some s ->
  (length (errors s) <= 100)%nat ->
  exists s',
    importSessions (foldl (fun svc c => addError clock id c.1 c.2 svc) svc calls) !! id
      = Some s' /\
    (length (errors s') <= 100)%nat /\
    map entry_key (errors s') = lastn 100 (map entry_key (errors s) ++ calls).
Proof.
  induction calls as [|[e r] calls IH]; intros id svc s Hs Hlen.
  - exists s. split; [assumption|]. split; [assumption|].
    rewrite app_nil_r. symmetry. apply lastn_short. now rewrite length_map.
  - cbn [foldl fst snd].
    destruct (addError_step id e r svc s Hs) as (s1 & Hs1 & He1).
    assert (Hlen1 : (length (errors s1) <= 100)%nat)
      by (rewrite He1; apply lastn_length).
    destruct (IH id _ s1 Hs1 Hlen1) as (s' & Hs' & Hlen' & He').
    exists s'. split; [assumption|]. split; [assumption|].
    rewrite He', He1, map_lastn, map_app. cbn [map entry_key e_message e_row].
    rewrite lastn_app, <- app_assoc. reflexivity.
Qed.

(** C2: after any non-empty sequence of [addError] calls on a registered
    session, the error log holds at most 100 entries, and they are the last
    100 of the entries it held before followed by the added ones, in
    order: the oldest entries are the ones dropped. *)
Theorem addError_keeps_last_100 id svc s (log : list (string * option Z)) :
  importSessions svc !! id = Some s ->
  log <> [] ->
  exists s',
    importSessions (add_errors clock id log svc) !! id = Some s' /\
    (length (errors s') <= 100)%nat /\
    map entry_key (errors s') = lastn 100 (map entry_key (errors s) ++ log).
Proof.
  intros Hs Hne. destruct log as [|[e r] calls]; [congruence|].
  unfold add_errors. cbn [foldl fst snd].
  destruct (addError_step id e r svc s Hs) as (s1 & Hs1 & He1).
  assert (Hlen1 : (length (errors s1) <= 100)%nat)
    by (rewrite He1; apply lastn_length).
  destruct (addError_sequence calls id _ s1 Hs1 Hlen1) as (s' & Hs' & Hlen' & He').
  exists s'. split; [assumption|]. split; [assumption|].
  rewrite He', He1, map_lastn, map_app. cbn [map entry_key e_message e_row].
  rewrite lastn_app, <- app_assoc. reflexivity.
Qed.

End ErrorLog.

(** ** Rounding to binary64 *)

Section Binary64Facts.
Local Open Scope Q_scope.

Lemma pow2_pos e : 0 < 2 ^ e.
Proof. apply Qpower_0_lt. reflexivity. Qed.

Lemma pow2_plus a b : 2 ^ (a + b) == 2 ^ a * 2 ^ b.
Proof. apply Qpower_plus. discriminate. Qed.

Lemma pow2_le a b : (a <= b)%Z -> 2 ^ a <= 2 ^ b.
Proof. intros H. apply Qpower_le_compat_l; [assumption | discriminate]. Qed.

Lemma pow2_lt a b : (a < b)%Z -> 2 ^ a < 2 ^ b.
Proof. intros H. apply Qpower_lt_compat_l; [assumption | reflexivity]. Qed.

Lemma pow2_succ a : 2 ^ (a + 1) == 2 * 2 ^ a.
Proof. rewrite pow2_plus. change (2 ^ 1) with 2. ring. Qed.

Lemma pow2_Z n : (0 <= n)%Z -> 2 ^ n == inject_Z (2 ^ n).
Proof. intros H. symmetry. apply (Zpower_Qpower 2 n H). Qed.

(** [rne] *)

Lemma rne_floor q : (Qfloor q <= rne q <= Qfloor q + 1)%Z.
Proof.
  unfold rne. destruct (q - inject_Z (Qfloor q) ?= 1 # 2); [|lia|lia].
  destruct (Z.even (Qfloor q)); lia.
Qed.

Lemma rne_comp x y : x == y -> rne x = rne y.
Proof.
  intros H. unfold rne. rewrite (Qfloor_comp _ _ H).
  now rewrite H.
Qed.

Lemma rne_Z z : rne (inject_Z z) = z.
Proof.
  unfold rne. rewrite Qfloor_Z.
  destruct (Qcompare_spec (inject_Z z - inject_Z z) (1 # 2)) as [H|H|H];
    [exfalso; lra | reflexivity | exfalso; lra].
Qed.

Lemma rne_mono x y : x <= y -> (rne x <= rne y)%Z.
Proof.
  intros H. pose proof (Qfloor_resp_le _ _ H) as Hf.
  destruct (Z.eq_dec (Qfloor x) (Qfloor y)) as [E|N].
  - unfold rne. rewrite E.
    destruct (Qcompare_spec (x - inject_Z (Qfloor y)) (1 # 2)) as [Hx|Hx|Hx];
    destruct (Qcompare_spec (y - inject_Z (Qfloor y)) (1 # 2)) as [Hy|Hy|Hy];
      try destruct (Z.even (Qfloor y)); try lia; exfalso; lra.
  - pose proof (rne_floor x). pose proof (rne_floor y). lia.
Qed.

(** [ilog2] *)

Lemma ilog2_spec q : 0 < q -> 2 ^ ilog2 q <= q < 2 ^ (ilog2 q + 1).
Proof.
  intros Hq. destruct q as [a b]. 
  assert (Ha : (0 < a)%Z) by (unfold Qlt in Hq; cbn in Hq; lia).
  unfold ilog2. cbn [Qnum Qden].
  set (la := Z.log2 a). set (lb := Z.log2 (Z.pos b)).
  pose proof (Z.log2_nonneg a) as Hla0. pose proof (Z.log2_nonneg (Z.pos b)) as Hlb0.
  fold la in Hla0. fold lb in Hlb0.
  destruct (Z.log2_spec a Ha) as [Ha1 Ha2]. fold la in Ha1, Ha2.
  destruct (Z.log2_spec (Z.pos b) eq_refl) as [Hb1 Hb2]. fold lb in Hb1, Hb2.
  unfold Z.succ in *.
  rewrite Zle_Qle, <- pow2_Z in Ha1, Hb1 by lia.
  rewrite Zlt_Qlt, <- pow2_Z in Ha2, Hb2 by lia.
  rewrite pow2_succ in Ha2, Hb2.
  assert (Hq' : (a # b) * inject_Z (Z.pos b) == inject_Z a).
  { rewrite Qmake_Qdiv. field. discriminate. }
  pose proof (pow2_pos la) as Pla. pose proof (pow2_pos lb) as Plb.
  assert (Hd : 2 ^ (la - lb) * 2 ^ lb == 2 ^ la).
  { rewrite <- pow2_plus. now replace (la - lb + lb)%Z with la by lia. }
  assert (Pd := pow2_pos (la - lb)).
  set (q := a # b) in *. set (B := inject_Z (Z.pos b)) in *.
  set (A := inject_Z a) in *. set (x := 2 ^ lb) in *. set (y := 2 ^ la) in *.
  set (d := 2 ^ (la - lb)) in *.
  assert (Hup : q < 2 * d).
  { apply (Qmult_lt_r _ _ x Plb).
    apply Qle_lt_trans with (q * B).
    - apply Qmult_le_l; assumption.
    - rewrite Hq'. setoid_replace (2 * d * x) with (2 * y) using relation Qeq
      by (rewrite <- Hd; ring).
      assumption. }
  assert (Hlow : d < 2 * q).
  { apply (Qmult_lt_r _ _ B); [unfold B; reflexivity|].
    setoid_replace (2 * q * B) with (2 * A) using relation Qeq
      by (rewrite <- Hq'; ring).
    apply Qlt_le_trans with (d * (2 * x)).
    - apply Qmult_lt_l; assumption.
    - setoid_replace (d * (2 * x)) with (2 * y) using relation Qeq
      by (rewrite <- Hd; ring). lra. }
  destruct (Qle_bool d q) eqn:Hb.
  - apply Qle_bool_iff in Hb. split; [exact Hb|].
    subst d. rewrite pow2_succ. exact Hup.
  - assert (Hlt : q < d).
    { apply Qnot_le_lt. intros Hle. apply Qle_bool_iff in Hle. congruence. }
    replace (la - lb - 1 + 1)%Z with (la - lb)%Z by lia. fold d.
    split; [|exact Hlt].
    assert (E : 2 * 2 ^ (la - lb - 1) == d).
    { rewrite <- pow2_succ. now replace (la - lb - 1 + 1)%Z with (la - lb)%Z by lia. }
    lra.
Qed.

Lemma ilog2_unique q e : 2 ^ e <= q < 2 ^ (e + 1) -> ilog2 q = e.
Proof.
  intros [H1 H2].
  assert (Hq : 0 < q) by (pose proof (pow2_pos e); lra).
  destruct (ilog2_spec q Hq) as [H3 H4].
  destruct (Z.lt_trichotomy (ilog2 q) e) as [L|[E|G]]; [|exact E|]; exfalso.
  - assert (2 ^ (ilog2 q + 1) <= 2 ^ e) by (apply pow2_le; lia). lra.
  - assert (2 ^ (e + 1) <= 2 ^ ilog2 q) by (apply pow2_le; lia). lra.
Qed.

Lemma ilog2_comp x y : 0 < x -> x == y -> ilog2 x = ilog2 y.
Proof.
  intros Hx H. symmetry. apply ilog2_unique. rewrite <- H. now apply ilog2_spec.
Qed.

Lemma ilog2_mono x y : 0 < x -> x <= y -> (ilog2 x <= ilog2 y)%Z.
Proof.
  intros Hx H. assert (Hy : 0 < y) by lra.
  destruct (ilog2_spec x Hx) as [H1 H2]. destruct (ilog2_spec y Hy) as [H3 H4].
  destruct (Z_le_gt_dec (ilog2 x) (ilog2 y)) as [L|G]; [exact L|exfalso].
  assert (2 ^ (ilog2 y + 1) <= 2 ^ ilog2 x) by (apply pow2_le; lia). lra.
Qed.

(** [binary64] *)

Lemma binary64_pos q :
  0 < q ->
  binary64 q = inject_Z (rne (q / 2 ^ (ilog2 q - 52))) * 2 ^ (ilog2 q - 52).
Proof.
  intros H. unfold binary64. destruct q as [[|a|a] b]; [| reflexivity |];
    unfold Qlt in H; cbn in H; lia.
Qed.

Lemma binary64_zero q : q == 0 -> binary64 q = 0.
Proof.
  intros H. unfold binary64. destruct q as [[|a|a] b]; [reflexivity| |];
    unfold Qeq in H; cbn in H; lia.
Qed.

Lemma binary64_neg q : q < 0 -> binary64 q = - binary64 (- q).
Proof.
  intros H. unfold binary64 at 1. destruct q as [[|a|a] b];
    [unfold Qlt in H; cbn in H; lia | unfold Qlt in H; cbn in H; lia |].
  rewrite binary64_pos by reflexivity. reflexivity.
Qed.

Lemma scaled_range q :
  0 < q ->
  inject_Z (2 ^ 52) <= q / 2 ^ (ilog2 q - 52) < inject_Z (2 ^ 53).
Proof.
  intros Hq. destruct (ilog2_spec q Hq) as [H1 H2].
  pose proof (pow2_pos (ilog2 q - 52)) as Pu.
  assert (E1 : inject_Z (2 ^ 52) * 2 ^ (ilog2 q - 52) == 2 ^ ilog2 q).
  { rewrite <- (pow2_Z 52) by lia. rewrite <- pow2_plus.
    now replace (52 + (ilog2 q - 52))%Z with (ilog2 q) by lia. }
  assert (E2 : inject_Z (2 ^ 53) * 2 ^ (ilog2 q - 52) == 2 ^ (ilog2 q + 1)).
  { rewrite <- (pow2_Z 53) by lia. rewrite <- pow2_plus.
    now replace (53 + (ilog2 q - 52))%Z with (ilog2 q + 1)%Z by lia. }
  split.
  - apply Qle_shift_div_l; [assumption|]. rewrite E1. assumption.
  - apply Qlt_shift_div_r; [assumption|]. rewrite E2. assumption.
Qed.

Lemma binary64_bounds q :
  0 < q -> 2 ^ ilog2 q <= binary64 q <= 2 ^ (ilog2 q + 1).
Proof.
  intros Hq. rewrite binary64_pos by assumption.
  destruct (scaled_range q Hq) as [H1 H2].
  pose proof (pow2_pos (ilog2 q - 52)) as Pu.
  apply rne_mono in H1. rewrite rne_Z in H1.
  apply Qlt_le_weak, rne_mono in H2. rewrite rne_Z in H2.
  rewrite Zle_Qle in H1, H2.
  assert (E1 : inject_Z (2 ^ 52) * 2 ^ (ilog2 q - 52) == 2 ^ ilog2 q).
  { rewrite <- (pow2_Z 52) by lia. rewrite <- pow2_plus.
    now replace (52 + (ilog2 q - 52))%Z with (ilog2 q) by lia. }
  assert (E2 : inject_Z (2 ^ 53) * 2 ^ (ilog2 q - 52) == 2 ^ (ilog2 q + 1)).
  { rewrite <- (pow2_Z 53) by lia. rewrite <- pow2_plus.
    now replace (53 + (ilog2 q - 52))%Z with (ilog2 q + 1)%Z by lia. }
  rewrite <- E1, <- E2. split; apply Qmult_le_compat_r; lra.
Qed.

Lemma binary64_comp x y : x == y -> binary64 x == binary64 y.
Proof.
  intros H. destruct (Q_dec x 0) as [[Hn|Hp]|Hz].
  - assert (Hy : y < 0) by lra.
    rewrite (binary64_neg x Hn), (binary64_neg y Hy).
    assert (Hx' : 0 < - x) by lra. assert (Hy' : 0 < - y) by lra.
    rewrite (binary64_pos _ Hx'), (binary64_pos _ Hy').
    assert (E : - x == - y) by lra.
    rewrite (ilog2_comp _ _ Hx' E).
    rewrite (rne_comp (- x / 2 ^ (ilog2 (- y) - 52)) (- y / 2 ^ (ilog2 (- y) - 52)))
      by now rewrite E.
    reflexivity.
  - assert (Hy : 0 < y) by lra.
    rewrite (binary64_pos x Hp), (binary64_pos y Hy).
    rewrite (ilog2_comp _ _ Hp H).
    rewrite (rne_comp (x / 2 ^ (ilog2 y - 52)) (y / 2 ^ (ilog2 y - 52)))
      by now rewrite H.
    reflexivity.
  - rewrite (binary64_zero x Hz), (binary64_zero y) by lra. reflexivity.
Qed.

Lemma binary64_mono_pos x y : 0 < x -> x <= y -> binary64 x <= binary64 y.
Proof.
  intros Hx H. assert (Hy : 0 < y) by lra.
  pose proof (ilog2_mono x y Hx H) as He.
  destruct (Z.eq_dec (ilog2 x) (ilog2 y)) as [E|N].
  - rewrite (binary64_pos x Hx), (binary64_pos y Hy), E.
    pose proof (pow2_pos (ilog2 y - 52)) as Pu.
    apply Qmult_le_compat_r; [|lra].
    rewrite <- Zle_Qle. apply rne_mono.
    apply Qle_shift_div_l; [assumption|].
    setoid_replace (x / 2 ^ (ilog2 y - 52) * 2 ^ (ilog2 y - 52)) with x using relation Qeq
      by (field; lra).
    assumption.
  - destruct (binary64_bounds x Hx) as [_ H1].
    destruct (binary64_bounds y Hy) as [H2 _].
    assert (2 ^ (ilog2 x + 1) <= 2 ^ ilog2 y) by (apply pow2_le; lia). lra.
Qed.

Lemma binary64_mono x y : x <= y -> binary64 x <= binary64 y.
Proof.
  intros H. destruct (Q_dec x 0) as [[Hn|Hp]|Hz].
  - rewrite (binary64_neg x Hn).
    assert (Hx' : 0 < - x) by lra.
    destruct (binary64_bounds _ Hx') as [Bx _].
    pose proof (pow2_pos (ilog2 (- x))).
    destruct (Q_dec y 0) as [[Hyn|Hyp]|Hyz].
    + rewrite (binary64_neg y Hyn).
      assert (binary64 (- y) <= binary64 (- x)) by (apply binary64_mono_pos; lra).
      lra.
    + destruct (binary64_bounds _ Hyp) as [By _].
      pose proof (pow2_pos (ilog2 y)). lra.
    + rewrite (binary64_zero y Hyz). lra.
  - now apply binary64_mono_pos.
  - rewrite (binary64_zero x Hz).
    destruct (Q_dec y 0) as [[Hyn|Hyp]|Hyz]; [lra| |].
    + destruct (binary64_bounds _ Hyp) as [By _].
      pose proof (pow2_pos (ilog2 y)). lra.
    + rewrite (binary64_zero y Hyz). lra.
Qed.

End Binary64Facts.

(** ** Progress *)
Lemma percent_value p t :
  0 < t ->
  percent p t =
    JNum (inject_Z (Qfloor (binary64 (binary64 (inject_Z p / inject_Z t) * inject_Z 100)
                            + (1 # 2)))).
Proof.
  intros Ht. unfold percent, fmul, fdiv, of_Z, div, Qis_zero. cbn [Qnum inject_Z].
  destruct (Z.eqb_spec t 0); [lia|]. reflexivity.
Qed.

Lemma leb_JNum_le p q : (p <= q)%Q -> leb (JNum p) (JNum q) = true.
Proof.
  intros H. unfold leb, ltb, eqb.
  destruct (Qlt_le_dec p q) as [|Hge]; [reflexivity|].
  simpl. apply Qeq_bool_iff. now apply Qle_antisym.
Qed.

Lemma percent_mono p p' t :
  0 < t -> p <= p' -> leb (percent p t) (percent p' t) = true.
Proof.
  intros Ht Hp. rewrite !percent_value by assumption.
  apply leb_JNum_le. rewrite <- Zle_Qle. apply Qfloor_resp_le.
  apply Qplus_le_l. apply binary64_mono.
  apply Qmult_le_compat_r; [|discriminate]. apply binary64_mono.
  apply Qmult_le_compat_r.
  - now rewrite <- Zle_Qle.
  - apply Qinv_le_0_compat. change 0%Q with (inject_Z 0). rewrite <- Zle_Qle. lia.
Qed.

Lemma percent_zero t : 0 < t -> percent 0 t = of_Z 0.
Proof.
  intros Ht. rewrite percent_value by assumption. reflexivity.
Qed.

Lemma percent_full t : 0 < t -> percent t t = of_Z 100.
Proof.
  intros Ht. rewrite percent_value by assumption. unfold of_Z. do 2 f_equal.
  assert (H1 : (inject_Z t / inject_Z t == 1)%Q).
  { unfold Qdiv. rewrite Qmult_inv_r; [reflexivity|]. unfold Qeq. cbn. lia. }
  assert (H2 : (binary64 (inject_Z t / inject_Z t) == 1)%Q).
  { rewrite (binary64_comp _ _ H1). vm_compute. reflexivity. }
  assert (H3 : (binary64 (binary64 (inject_Z t / inject_Z t) * inject_Z 100) == 100)%Q).
  { rewrite (binary64_comp _ (1 * inject_Z 100)%Q) by now rewrite H2.
    vm_compute. reflexivity. }
  rewrite (Qfloor_comp _ (100 + (1 # 2))%Q) by now rewrite H3.
  reflexivity.
Qed.

(** The rounding shows: 41/40 and 23/40 times 100 are 102.49999999999999
    and 57.49999999999999 in binary64, where the real values are 102.5 and
    57.5. *)
Lemma percent_rounds_the_binary64_product :
  percent 41 40 = of_Z 102 /\ percent 23 40 = of_Z 57 /\
  percent 3 2 = of_Z 150 /\ percent 1 3 = of_Z 33 /\ percent 0 0 = JNaN.
Proof. repeat split; vm_compute; reflexivity. Qed.

Section ProgressFacts.
Variable clock : nat -> Z.
Variable id : string.

Lemma in_step_progress t p svc : in_step id t p svc -> progress_of id svc = percent p t.
Proof. intros (s & Hs & _ & _ & Hp). unfold progress_of. now rewrite Hs. Qed.

Lemma update_in_step t p p' u svc :
  in_step id t p svc -> u_processedRows u = Some p' ->
  in_step id t p' (updateProgress clock id u svc).
Proof.
  intros (s & Hs & Ht & Hp & Hpr) Hu.
  exists (recompute (clock (ticks svc)) (assign s u)).
  rewrite (updateProgress_sessions clock _ _ _ _ Hs), lookup_insert_eq.
  split; [reflexivity|]. cbn. rewrite Hu. cbn. rewrite Ht. auto.
Qed.

Lemma addError_in_step t p e r svc :
  in_step id t p svc -> in_step id t p (addError clock id e r svc).
Proof.
  intros (s & Hs & Ht & Hp & Hpr).
  eexists. rewrite (addError_sessions clock _ _ _ _ _ Hs), lookup_insert_eq.
  split; [reflexivity|]. cbn. rewrite Ht, Hp. auto.
Qed.

Lemma leb_refl_percent p t : 0 < t -> leb (percent p t) (percent p t) = true.
Proof. intros. apply percent_mono; lia. Qed.

Lemma nondecreasing_cons x y l :
  hd_error l = Some y -> leb x y = true -> nondecreasing l = true ->
  nondecreasing (x :: l) = true.
Proof.
  destruct l as [|z l]; [discriminate|]. intros [= ->] Hxy Hl.
  cbn [nondecreasing] in *. now rewrite Hxy.
Qed.

Lemma history_head cs svc :
  hd_error (progress_history clock id cs svc) = Some (progress_of id svc).
Proof. destruct cs; reflexivity. Qed.

Lemma rising_history t : 0 < t -> forall cs p svc,
  in_step id t p svc -> rising_calls id p cs ->
  nondecreasing (progress_history clock id cs svc) = true /\
  in_step id t (last_processed p cs) (run_calls clock cs svc).
Proof.
  intros Ht. induction cs as [|c cs IH]; intros p svc Hin Hr.
  - split; [reflexivity | exact Hin].
  - cbn [progress_history].
    destruct c as [id' u | id' e r]; cbn [rising_calls] in Hr.
    + destruct Hr as (-> & p' & Hu & Hle & Hr).
      pose proof (update_in_step t p p' u svc Hin Hu) as Hin'.
      destruct (IH p' _ Hin' Hr) as [Hmono Hfin].
      cbn [last_processed run_calls foldl run_call]. rewrite Hu. cbn [default].
      split; [|exact Hfin].
      eapply nondecreasing_cons; [apply history_head | | exact Hmono].
      cbn [run_call].
      rewrite (in_step_progress _ _ _ Hin), (in_step_progress _ _ _ Hin').
      now apply percent_mono.
    + destruct Hr as (-> & Hr).
      pose proof (addError_in_step t p e r svc Hin) as Hin'.
      destruct (IH p _ Hin' Hr) as [Hmono Hfin].
      cbn [last_processed run_calls foldl run_call].
      split; [|exact Hfin].
      eapply nondecreasing_cons; [apply history_head | | exact Hmono].
      cbn [run_call].
      rewrite (in_step_progress _ _ _ Hin), (in_step_progress _ _ _ Hin').
      now apply leb_refl_percent.
Qed.

Lemma rising_app cs1 : forall p cs2,
  rising_calls id p cs1 ->
  rising_calls id (last_processed p cs1) cs2 ->
  rising_calls id p (cs1 ++ cs2).
Proof.
  induction cs1 as [|c cs1 IH]; intros p cs2 H1 H2; [exact H2|].
  destruct c as [id' u | id' e r]; cbn [rising_calls last_processed app] in *.
  - destruct H1 as (-> & p' & Hu & Hle & H1). split; [reflexivity|].
    exists p'. rewrite Hu in H2. cbn in H2. auto.
  - destruct H1 as (-> & H1). split; [reflexivity|]. auto.
Qed.

Lemma last_processed_app cs1 : forall p cs2,
  last_processed p (cs1 ++ cs2) = last_processed (last_processed p cs1) cs2.
Proof.
  induction cs1 as [|c cs1 IH]; intros p cs2; [reflexivity|].
  destruct c; cbn [last_processed app]; apply IH.
Qed.

End ProgressFacts.

(** ** The calls of the pipeline *)

Section PipelineFacts.
Context {DB Doc : Type} (M : Model DB Doc).
Variables (uploadData : UploadData) (mapping : ColumnMapping)
          (categoryMapping : gmap string string) (userId id : string).

Lemma only_errors_rising cs p :
  only_errors id cs -> rising_calls id p cs /\ last_processed p cs = p.
Proof.
  induction 1 as [|c cs (e & r & ->) _ [IH1 IH2]]; [split; reflexivity|].
  cbn [rising_calls last_processed]. auto.
Qed.

Lemma save_individually_calls batch : forall index db0,
  only_errors id (save_individually M id index batch db0).2.
Proof.
  induction batch as [|t batch IH]; intros index db0; [constructor|].
  cbn [save_individually].
  destruct (createBillData M db0 t) as [db1 r].
  specialize (IH (index + 1) db1).
  destruct (save_individually M id (index + 1) batch db1) as [[settled db2] cs].
  destruct r; cbn [snd] in *; [assumption|].
  constructor; [eauto | assumption].
Qed.

Lemma count_settled_calls (settled : list (Settled Doc)) : forall index res s e,
  only_errors id (count_settled id index settled res s e).2.
Proof.
  induction settled as [|x settled IH]; intros index res s e; [constructor|].
  destruct x; cbn [count_settled]; try apply IH.
  specialize (IH (index + 1) res s (e + 1)).
  destruct (count_settled id (index + 1) settled res s (e + 1)) as [[[res' s'] e'] cs].
  cbn [snd] in *. constructor; [eauto | assumption].
Qed.

Lemma processBatch_calls batch res db0 :
  only_errors id (processBatchStreamingAsync M batch res id db0).2.
Proof.
  unfold processBatchStreamingAsync.
  destruct (bulk_insert M batch res db0) as [db1 [bulkError | [[res' s] e]]];
    [|constructor].
  destruct (message_of bulkError).
  - pose proof (save_individually_calls batch 0 db1) as H1.
    destruct (save_individually M id 0 batch db1) as [[settled db2] cs1].
    pose proof (count_settled_calls settled 0 res 0 0) as H2.
    destruct (count_settled id 0 settled res 0 0) as [[[res' s'] e'] cs2].
    cbn [snd] in *. apply Forall_app. split; assumption.
  - cbn [snd]. constructor; [eauto | constructor].
Qed.

Local Abbreviation step := (transform M uploadData mapping categoryMapping userId id).

Lemma snoc_update_rises cs p u :
  rising_calls id 0 cs -> last_processed 0 cs <= p ->
  u_processedRows u = Some p ->
  rising_calls id 0 (cs ++ [CallUpdateProgress id u]) /\
  last_processed 0 (cs ++ [CallUpdateProgress id u]) <= p.
Proof.
  intros H1 H2 Hu. split.
  - apply rising_app; [assumption|]. cbn. split; [reflexivity|]. eauto.
  - rewrite last_processed_app. cbn. rewrite Hu. cbn. lia.
Qed.

Lemma snoc_errors_rise cs es p :
  rising_calls id 0 cs -> last_processed 0 cs <= p -> only_errors id es ->
  rising_calls id 0 (cs ++ es) /\ last_processed 0 (cs ++ es) <= p.
Proof.
  intros H1 Hp H2. destruct (only_errors_rising es (last_processed 0 cs) H2) as [H3 H4].
  split; [now apply rising_app | rewrite last_processed_app; lia].
Qed.

Lemma step_count (st : PipelineState DB Doc) row : processedCount (step st row) = processedCount st + 1.
Proof.
  unfold step, transform.
  destruct (isValidDataRow _ _); [|reflexivity].
  destruct (mapRowToTransaction _ _ _ _); [|reflexivity].
  destruct (validateTransaction _); [|reflexivity].
  destruct (BATCH_SIZE <=? _); [|reflexivity].
  destruct (processBatchStreamingAsync _ _ _ _ _) as [[[? ?] ?] ?]. reflexivity.
Qed.

Lemma step_rises st row : calls_rise id st -> calls_rise id (step st row).
Proof.
  intros [H1 H2]. unfold calls_rise. rewrite step_count.
  unfold step, transform.
  destruct (isValidDataRow _ _); [|cbn; split; [assumption | lia]].
  destruct (mapRowToTransaction _ _ _ _) as [t | m].
  - destruct (validateTransaction _).
    + destruct (BATCH_SIZE <=? _).
      * pose proof (processBatch_calls (currentBatch_ st ++ [t]) (results st) (db st)) as Hb.
        destruct (processBatchStreamingAsync _ _ _ _ _) as [[[br res'] db'] bc].
        cbn [snd calls] in *.
        destruct (snoc_errors_rise _ _ (processedCount st + 1) H1 ltac:(lia) Hb) as [H3 H4].
        rewrite app_assoc.
        apply snoc_update_rises; [exact H3 | exact H4 | reflexivity].
      * cbn [calls].
        destruct (_ =? 0); [|split; [assumption | lia]].
        apply snoc_update_rises; [exact H1 | lia | reflexivity].
    + cbn [calls]. apply snoc_errors_rise; [exact H1 | lia |].
      constructor; [eauto | constructor].
  - cbn [calls]. apply snoc_errors_rise; [exact H1 | lia |].
    constructor; [eauto | constructor].
Qed.

Lemma fold_rises rows : forall st,
  calls_rise id st ->
  calls_rise id (foldl step st rows) /\
  processedCount (foldl step st rows) = processedCount st + Z.of_nat (length rows).
Proof.
  induction rows as [|row rows IH]; intros st Hst.
  - cbn. split; [assumption | lia].
  - cbn [foldl length]. destruct (IH _ (step_rises st row Hst)) as [H1 H2].
    split; [assumption|]. rewrite H2, step_count. lia.
Qed.

(** What [finish] adds: error reports of the trailing batch, then the
    final update. *)
Lemma finish_calls (st : PipelineState DB Doc) :
  exists es,
    only_errors id es /\
    calls (finish M id st).2 =
      (calls st ++ es ++
       [CallUpdateProgress id
          {| u_processedRows := Some (processedCount st);
             u_successfulRows := Some (successfulCount (finish M id st).2);
             u_errorRows := Some (errorCount (finish M id st).2);
             u_currentBatch := None;
             u_status := Some Finalizing |}])%list /\
    r_success (finish M id st).1 = true /\
    processedCount (finish M id st).2 = processedCount st.
Proof.
  unfold finish. destruct (currentBatch_ st) as [|t batch].
  - exists []. cbn. split; [constructor|]. auto.
  - pose proof (processBatch_calls (t :: batch) (results st) (db st)) as Hb.
    destruct (processBatchStreamingAsync _ _ _ _ _) as [[[br res'] db'] bc].
    exists bc. cbn in *. split; [assumption|]. rewrite <- app_assoc. auto.
Qed.

End PipelineFacts.

(** ** A whole import *)

Section Runs.
Context {DB Doc : Type} (M : Model DB Doc).
Variable clock : nat -> Z.

Lemma startImportSession_sessions id userId totalRows filename svc :
  importSessions (startImportSession clock id userId totalRows filename svc).2 =
    <[id := (startImportSession clock id userId totalRows filename svc).1]>
      (importSessions svc).
Proof. cbn. now rewrite broadcastToUser_sessions. Qed.

Lemma started_in_step id userId totalRows filename svc :
  0 < totalRows ->
  in_step id totalRows 0 (startImportSession clock id userId totalRows filename svc).2.
Proof.
  intros Ht. eexists. rewrite startImportSession_sessions, lookup_insert_eq.
  split; [reflexivity|]. cbn. rewrite percent_zero by assumption. auto.
Qed.

Lemma run_calls_snoc cs c svc :
  run_calls clock (cs ++ [c]) svc = run_call clock (run_calls clock cs svc) c.
Proof. unfold run_calls. now rewrite foldl_app. Qed.

Lemma run_call_keeps id c svc :
  is_Some (importSessions svc !! id) ->
  is_Some (importSessions (run_call clock svc c) !! id).
Proof.
  intros Hid. destruct c as [id' u | id' e r]; cbn [run_call].
  - destruct (importSessions svc !! id') as [s'|] eqn:Hs'.
    + rewrite (updateProgress_sessions clock _ _ _ _ Hs').
      destruct (decide (id' = id)) as [->|Hne].
      * rewrite lookup_insert_eq. eauto.
      * now rewrite lookup_insert_ne.
    + unfold updateProgress. now rewrite Hs'.
  - destruct (importSessions svc !! id') as [s'|] eqn:Hs'.
    + rewrite (addError_sessions clock _ _ _ _ _ Hs').
      destruct (decide (id' = id)) as [->|Hne].
      * rewrite lookup_insert_eq. eauto.
      * now rewrite lookup_insert_ne.
    + unfold addError. now rewrite Hs'.
Qed.

Lemma run_calls_keep id cs : forall svc,
  is_Some (importSessions svc !! id) ->
  is_Some (importSessions (run_calls clock cs svc) !! id).
Proof.
  induction cs as [|c cs IH]; intros svc H; [exact H|].
  cbn [run_calls foldl]. apply IH. now apply run_call_keeps.
Qed.

Lemma completeImportSession_status id r svc s :
  importSessions svc !! id = Some s ->
  exists s',
    importSessions (completeImportSession clock id r svc) !! id = Some s' /\
    status s' = (if r_success r then Completed else Failed) /\
    result_ s' = Some r.
Proof.
  intros Hs. unfold completeImportSession. rewrite Hs. cbn.
  rewrite broadcastToUser_sessions. cbn. rewrite lookup_insert_eq.
  eexists. split; [reflexivity|]. split; reflexivity.
Qed.

(** X25: for a session started with a positive total, the progress never
    decreases along the calls that the pipeline makes on the streaming
    service; when the stream has ended, the session is finalizing with the
    progress [Math.round((rows read / total) * 100)], quotient and product
    rounded to binary64, which is 100 when the number of rows read is the
    total. *)
Theorem progress_rises_to_final_ratio
    (uploadData : UploadData) (mapping : ColumnMapping)
    (categoryMapping : gmap string string) (user id filename : string)
    (rows : list Row) (ending : StreamEnd) (total : Z) (svc0 : Service) (db0 : DB) :
  0 < total ->
  let svc1 := (startImportSession clock id user total filename svc0).2 in
  let st :=
    (processImportWithStreaming M uploadData mapping categoryMapping user id
                                rows ending db0).2 in
  nondecreasing (progress_history clock id (calls st) svc1) = true /\
  (ending = EndOfStream ->
   exists s,
     importSessions (run_calls clock (calls st) svc1) !! id = Some s /\
     status s = Finalizing /\
     progress s = percent (Z.of_nat (length rows)) total /\
     (Z.of_nat (length rows) = total -> progress s = of_Z 100)).
Proof.
  intros Ht svc1 st.
  pose proof (started_in_step id user total filename svc0 Ht) as Hin. fold svc1 in Hin.
  assert (Hinit : calls_rise id (initial_state (Doc:=Doc) db0)) by (split; cbn; [exact I | lia]).
  destruct (fold_rises M uploadData mapping categoryMapping user id rows _ Hinit)
    as [[Hr Hl] Hcount].
  cbn [initial_state processedCount] in Hcount. rewrite Z.add_0_l in Hcount.
  subst st. unfold processImportWithStreaming.
  set (st0 := foldl (transform M uploadData mapping categoryMapping user id)
                    (initial_state db0) rows) in *.
  destruct ending as [|message].
  - destruct (finish_calls M id st0) as (es & Hes & Hcalls & _ & _).
    destruct (finish M id st0) as [finalResult st'] eqn:Hfin. cbn [fst snd] in *.
    rewrite Hcalls.
    destruct (snoc_errors_rise id _ _ (processedCount st0) Hr Hl Hes) as [H3 H4].
    assert (Hrise : rising_calls id 0
              (calls st0 ++ es ++
               [CallUpdateProgress id
                  {| u_processedRows := Some (processedCount st0);
                     u_successfulRows := Some (successfulCount st');
                     u_errorRows := Some (errorCount st');
                     u_currentBatch := None;
                     u_status := Some Finalizing |}])).
    { rewrite app_assoc.
      match goal with
      | |- rising_calls _ _ (_ ++ [CallUpdateProgress _ ?u]) =>
          apply (proj1 (snoc_update_rises id _ (processedCount st0) u H3 H4 eq_refl))
      end. }
    destruct (rising_history clock id total Ht _ 0 svc1 Hin Hrise) as [Hmono _].
    split; [exact Hmono|]. intros _.
    destruct (rising_history clock id total Ht _ 0 svc1 Hin H3) as [_ (s & Hs & Hst & _)].
    rewrite app_assoc, run_calls_snoc. cbn [run_call].
    rewrite (updateProgress_sessions clock _ _ _ _ Hs), lookup_insert_eq.
    eexists. split; [reflexivity|]. cbn. rewrite Hst, Hcount.
    split; [reflexivity|]. split; [reflexivity|].
    intros ->. now apply percent_full.
  - cbn [snd].
    destruct (rising_history clock id total Ht _ 0 svc1 Hin Hr) as [Hmono _].
    split; [exact Hmono | discriminate].
Qed.

(** C5: when the owner confirms an upload and the row stream reaches its
    end, the session ends with status completed and with a result whose
    success flag is true, whatever the rows and whatever the persistence
    collaborator answered. *)
Theorem stream_end_completes (w : World DB) (request : Request) (rows : list Row)
    (uploadData : UploadData) :
  w_tempStorage w !! param_uploadId request = Some uploadData ->
  up_userId uploadData = req_user_id request ->
  exists s r,
    importSessions
      (w_service (confirmImport M clock w request rows EndOfStream).2)
      !! param_uploadId request = Some s /\
    status s = Completed /\
    result_ s = Some r /\
    r_success r = true.
Proof.
  intros Hup Hown. unfold confirmImport. rewrite Hup, Hown, String.eqb_refl.
  cbn [negb].
  set (id := param_uploadId request).
  destruct (startImportSession clock id (req_user_id request)
              (pv_totalRows (up_preview uploadData)) (up_filename uploadData)
              (w_service w)) as [session svc1] eqn:Hstart.
  assert (Hs1 : is_Some (importSessions svc1 !! id)).
  { replace svc1 with (session, svc1).2 by reflexivity. rewrite <- Hstart.
    rewrite startImportSession_sessions, lookup_insert_eq. eauto. }
  unfold processImportWithStreaming.
  set (st0 := foldl _ _ rows).
  destruct (finish_calls M id st0) as (es & _ & _ & Hsucc & _).
  destruct (finish M id st0) as [finalResult st'] eqn:Hfin. cbn [fst snd] in *.
  destruct (run_calls_keep id (calls st') svc1 Hs1) as [s2 Hs2].
  destruct (completeImportSession_status id finalResult _ s2 Hs2)
    as (s3 & Hs3 & Hstatus & Hres).
  exists s3, finalResult. rewrite Hsucc in Hstatus. auto.
Qed.

End Runs.

(** ** Batch persistence *)

Section BatchFacts.
Context {DB Doc : Type} (M : Model DB Doc).

Lemma save_individually_length id batch : forall index db0,
  length (save_individually M id index batch db0).1.1 = length batch.
Proof.
  induction batch as [|t batch IH]; intros index db0; [reflexivity|].
  cbn [save_individually].
  destruct (createBillData M db0 t) as [db1 r].
  specialize (IH (index + 1) db1).
  destruct (save_individually M id (index + 1) batch db1) as [[settled db2] cs].
  destruct r; cbn [fst length] in *; now rewrite IH.
Qed.

Lemma count_settled_sum id (settled : list (Settled Doc)) : forall index res s e,
  let out := count_settled id index settled res s e in
  out.1.1.2 + out.1.2 = s + e + Z.of_nat (length settled) /\
  s <= out.1.1.2 /\ e <= out.1.2 /\
  Z.of_nat (length out.1.1.1) = Z.of_nat (length res) + (out.1.1.2 - s).
Proof.
  induction settled as [|x settled IH]; intros index res s e.
  - cbn. lia.
  - destruct x as [data | err | reason]; cbn [count_settled].
    + specialize (IH (index + 1) (res ++ [data])%list (s + 1) e). cbn zeta in IH.
      rewrite length_app in IH. cbn [length] in *. lia.
    + specialize (IH (index + 1) res s (e + 1)). cbn zeta in IH.
      cbn [length] in *. lia.
    + specialize (IH (index + 1) res s (e + 1)). cbn zeta in IH.
      destruct (count_settled id (index + 1) settled res s (e + 1))
        as [[[res' s'] e'] cs].
      cbn [fst snd length] in *. lia.
Qed.

End BatchFacts.

(** C1: whichever way a batch is persisted (bulk insert, per-record
    fallback, or the outer failure handler), the success count and the error
    count returned by [processBatchStreamingAsync] add up to the length of the
    batch, neither is negative, and the list of saved documents grows by
    exactly the success count: a record is counted once. The bulk insert is
    taken to return no more documents than it was given. *)
Theorem processBatch_accounts_for_every_record
    {DB Doc : Type} (M : Model DB Doc)
    (batch : list Transaction) (res : list Doc) (id : string) (db0 : DB) :
  match insertMany M db0 batch with
  | (_, inr saved) => (length saved <= length batch)%nat
  | (_, inl _) => True
  end ->
  let out := processBatchStreamingAsync M batch res id db0 in
  b_success out.1.1.1 + b_errors out.1.1.1 = Z.of_nat (length batch) /\
  0 <= b_success out.1.1.1 /\ 0 <= b_errors out.1.1.1 /\
  Z.of_nat (length out.1.1.2) = Z.of_nat (length res) + b_success out.1.1.1.
Proof.
  intros Hbulk out. subst out.
  unfold processBatchStreamingAsync, bulk_insert.
  destruct (insertMany M db0 batch) as [db1 [bulkError | saved]].
  - destruct (message_of bulkError).
    + pose proof (save_individually_length M id batch 0 db1) as Hlen.
      destruct (save_individually M id 0 batch db1) as [[settled db2] cs1].
      pose proof (count_settled_sum id settled 0 res 0 0) as Hsum. cbn zeta in Hsum.
      destruct (count_settled id 0 settled res 0 0) as [[[res' s'] e'] cs2].
      cbn [fst snd b_success b_errors] in *. rewrite Hlen in Hsum. lia.
    + cbn [fst snd b_success b_errors]. lia.
  - destruct (countDocuments M db1) as [bulkError|].
    + destruct (message_of bulkError).
      * pose proof (save_individually_length M id batch 0 db1) as Hlen.
        destruct (save_individually M id 0 batch db1) as [[settled db2] cs1].
        pose proof (count_settled_sum id settled 0 res 0 0) as Hsum. cbn zeta in Hsum.
        destruct (count_settled id 0 settled res 0 0) as [[[res' s'] e'] cs2].
        cbn [fst snd b_success b_errors] in *. rewrite Hlen in Hsum. lia.
      * cbn [fst snd b_success b_errors]. lia.
    + cbn [fst snd b_success b_errors]. rewrite length_app.
      destruct (Z.ltb_spec (Z.of_nat (length saved)) (Z.of_nat (length batch))); lia.
Qed.

(** C8: a preview request or a status request for an upload or session that
    exists under another owner is answered 403 with [Não autorizado]; one for
    an id that is not registered is answered with another status, 404. *)
Theorem foreign_owner_is_forbidden
    (tempStorage : gmap string UploadData) (svc : Service) (request : Request) :
  (forall uploadData,
     tempStorage !! param_uploadId request = Some uploadData ->
     up_userId uploadData <> req_user_id request ->
     getPreview tempStorage request =
       {| status_code := 403; body := ErrorBody "Não autorizado" |}) /\
  (tempStorage !! param_uploadId request = None ->
     status_code (getPreview tempStorage request) = 404) /\
  (forall session,
     importSessions svc !! param_uploadId request = Some session ->
     userId session <> req_user_id request ->
     getImportStatus svc request =
       {| status_code := 403; body := ErrorBody "Não autorizado" |}) /\
  (importSessions svc !! param_uploadId request = None ->
     status_code (getImportStatus svc request) = 404).
Proof.
  repeat split.
  - intros uploadData Hup Hne. unfold getPreview. rewrite Hup.
    apply String.eqb_neq in Hne. now rewrite Hne.
  - intros Hup. unfold getPreview. now rewrite Hup.
  - intros session Hs Hne. unfold getImportStatus, getSessionStatus. rewrite Hs.
    apply String.eqb_neq in Hne. now rewrite Hne.
  - intros Hs. unfold getImportStatus, getSessionStatus. now rewrite Hs.
Qed.

(** C10: for an upload id with no session in the map, [updateProgress],
    [addError] and [completeImportSession] leave the whole service as it was:
    no session is changed or created, nothing is sent, no timer is set and
    the clock is not read. *)
Theorem tracker_ignores_unknown_upload
    (clock : nat -> Z) (svc : Service) (id : string)
    (update : Update) (error : string) (rowNumber : option Z) (result : ImportResult) :
  importSessions svc !! id = None ->
  updateProgress clock id update svc = svc /\
  addError clock id error rowNumber svc = svc /\
  completeImportSession clock id result svc = svc.
Proof.
  intros H. unfold updateProgress, addError, completeImportSession.
  rewrite H. auto.
Qed.

(** ** Amounts and types *)

Lemma parseAmount_nonnegative a v : parseAmount a = Ok v -> nonnegative v.
Proof.
  unfold parseAmount.
  destruct a as [[|c s]|]; try (intros [= <-]; cbn; apply Z.le_refl).
  destruct (parseFloat (clean_amount (String c s))) as [q | n |]; cbn [isNaN abs];
    intros [= <-]; cbn; [apply Qabs_nonneg | reflexivity].
Qed.

Lemma negative_amount_is_expense row mapping s :
  cell row (m_amount mapping) = Some s -> startsWith "-" s = true ->
  determineTypeGBMoney row mapping = "expense".
Proof.
  intros Hc Hs. unfold determineTypeGBMoney. rewrite Hc.
  destruct s as [|c s']; [discriminate|].
  change (default "" (Some (String c s'))) with (String c s').
  rewrite Hs. reflexivity.
Qed.

(** C3: in an amount made of groups of digits separated by points, a comma
    and a fraction, the points separate thousands and the comma is the
    decimal point; with no point the comma is still the decimal point. For
    any text with a comma, every point is dropped and the first comma is read
    as the decimal point. "1.234,56" and "1234,56" give 1234.56. The result
    is never negative: "-50,00" gives 50.00, and a row whose amount text
    starts with a minus sign is typed as an expense. *)
Theorem parseAmount_brazilian_format :
  (forall groups c,
     Forall (fun g => all_digits g = true) groups -> all_digits c = true ->
     String.concat "" groups ++ c <> "" ->
     exists q,
       parseAmount (Some (String.concat "." groups ++ "," ++ c)) = Ok (JNum q) /\
       (q == inject_Z (digits_val (String.concat "" groups ++ c)) /
             inject_Z (10 ^ Z.of_nat (String.length c)))%Q) /\
  (forall s,
     let stripped := strip_currency false (remove_all quote_char s) in
     includes "," stripped = true ->
     clean_amount s = trim (replace_first "," "." (remove_all "." stripped))) /\
  (exists q, parseAmount (Some "1.234,56") = Ok (JNum q) /\ (q == 1234.56)%Q) /\
  (exists q, parseAmount (Some "1234,56") = Ok (JNum q) /\ (q == 1234.56)%Q) /\
  (exists q, parseAmount (Some "-50,00") = Ok (JNum q) /\ (q == 50.00)%Q) /\
  (forall a v, parseAmount a = Ok v -> nonnegative v) /\
  (forall row mapping s,
     cell row (m_amount mapping) = Some s -> startsWith "-" s = true ->
     determineTypeGBMoney row mapping = "expense").
Proof.
  split; [exact parseAmount_groups|].
  split.
  { intros s stripped Hc. unfold clean_amount. fold stripped.
    now rewrite brazilian_branches. }
  split; [eexists; split; [vm_compute; reflexivity | reflexivity]|].
  split; [eexists; split; [vm_compute; reflexivity | reflexivity]|].
  split; [eexists; split; [vm_compute; reflexivity | reflexivity]|].
  split; [exact parseAmount_nonnegative | exact negative_amount_is_expense].
Qed.

(** C7, as the code has it: a non-empty amount text in which [parseFloat]
    finds no number makes [parseAmount] throw [Valor inválido: <text>], and
    nothing else does; a row that passes the structural check and whose date
    parses is then counted as an error, reported with its row number, and
    kept out of the batch. An empty or absent cell is not a failure: it is
    read as 0. *)
Theorem unparsable_amount_is_row_error :
  (forall s,
     s <> "" -> parseFloat (clean_amount s) = JNaN ->
     parseAmount (Some s) = Throw ("Valor inválido: " ++ s)) /\
  (forall a m,
     parseAmount a = Throw m ->
     exists s, a = Some s /\ s <> "" /\ parseFloat (clean_amount s) = JNaN /\
               m = "Valor inválido: " ++ s) /\
  parseAmount None = Ok (of_Z 0) /\
  parseAmount (Some "") = Ok (of_Z 0) /\
  (forall (DB Doc : Type) (M : Model DB Doc) uploadData mapping categoryMapping
          userId id (st : PipelineState DB Doc) row s,
     isValidDataRow row (pv_type (up_preview uploadData)) = true ->
     is_ok (parseDate (cell row (m_date mapping))) = true ->
     cell row (m_amount mapping) = Some s ->
     s <> "" -> parseFloat (clean_amount s) = JNaN ->
     let st' := transform M uploadData mapping categoryMapping userId id st row in
     errorCount st' = errorCount st + 1 /\
     calls st' =
       (calls st ++
        [CallAddError id ("Valor inválido: " ++ s) (Some (processedCount st + 1))])%list /\
     currentBatch_ st' = currentBatch_ st).
Proof.
  split.
  { intros s Hne Hnan. rewrite parseAmount_nonempty by assumption. now rewrite Hnan. }
  split.
  { intros a m. destruct a as [s|]; [|discriminate].
    destruct (string_dec s "") as [->|Hne]; [discriminate|].
    rewrite parseAmount_nonempty by assumption.
    destruct (parseFloat (clean_amount s)) eqn:Hp; cbn [isNaN]; try discriminate.
    intros [= <-]. exists s. auto. }
  split; [reflexivity|]. split; [reflexivity|].
  intros DB Doc M uploadData mapping categoryMapping userId id st row s
         Hvalid Hdate Hcell Hne Hnan st'.
  subst st'. unfold transform. rewrite Hvalid.
  unfold mapRowToTransaction.
  destruct (parseDate (cell row (m_date mapping))) as [d|]; [|discriminate].
  cbn [result_bind]. rewrite Hcell, parseAmount_nonempty by assumption.
  rewrite Hnan. cbn. auto.
Qed.

(** ** Dates *)

(** C6: no text ever reaches the fourth, month-first branch of [parseDate],
    its pattern being the pattern of the second branch. "12/25/2024" matches
    it, and is read by the second branch, day first: day 12 of month 25 of
    2024, which the [Date] constructor carries over to 12 January 2026. The
    fourth branch would have given 25 December 2024. *)
Theorem american_format_is_unreachable :
  (forall cleanDate,
     match date_format cleanDate with
     | Some MDY4 => False
     | _ => True
     end) /\
  test re_mdy4 "12/25/2024" = true /\
  date_format "12/25/2024" = Some DMY4 /\
  (exists date,
     parseDate (Some "12/25/2024") = Ok (Some date) /\
     calendar date = Some (2026, 0, 12)) /\
  (exists date,
     build_date MDY4 "12/25/2024" = Ok (Some date) /\
     calendar date = Some (2024, 11, 25)).
Proof.
  split.
  { intros cleanDate. unfold date_format.
    destruct (test re_dmy2 cleanDate); [exact I|].
    change re_mdy4 with re_dmy4.
    destruct (test re_dmy4 cleanDate); [exact I|].
    destruct (test re_iso cleanDate); exact I. }
  split; [reflexivity|]. split; [reflexivity|].
  split.
  - eexists. split; [vm_compute; reflexivity|]. vm_compute. reflexivity.
  - eexists. split; [vm_compute; reflexivity|]. vm_compute. reflexivity.
Qed.

(** ** The properties on the sample data *)

Import Examples.

Lemma processBatch_accounts_witness :
  let batch := [transaction_of "Mercado"; transaction_of "Padaria"] in
  let db0 := [transaction_of "Feira"] in
  match insertMany MemoryStore.model db0 batch with
  | (_, inr saved) => (length saved <= length batch)%nat
  | (_, inl _) => True
  end /\
  let out := processBatchStreamingAsync MemoryStore.model batch [] "u1" db0 in
  b_success out.1.1.1 + b_errors out.1.1.1 = Z.of_nat (length batch) /\
  0 <= b_success out.1.1.1 /\ 0 <= b_errors out.1.1.1 /\
  Z.of_nat (length out.1.1.2) =
    Z.of_nat (length (@nil Transaction)) + b_success out.1.1.1.
Proof.
  intros batch db0.
  assert (H : match insertMany MemoryStore.model db0 batch with
              | (_, inr saved) => (length saved <= length batch)%nat
              | (_, inl _) => True
              end) by (vm_compute; lia).
  split; [exact H|].
  exact (processBatch_accounts_for_every_record MemoryStore.model batch [] "u1" db0 H).
Defined.

Lemma addError_keeps_last_100_witness :
  let log := [("Valor inválido: abc", Some 101); ("Erro crítico no lote: x", None)] in
  importSessions (service_with_errors 100) !! "u1" = Some (session_with_errors 100) /\
  log <> [] /\
  exists s',
    importSessions (add_errors clock "u1" log (service_with_errors 100)) !! "u1"
      = Some s' /\
    (length (errors s') <= 100)%nat /\
    map entry_key (errors s') =
      lastn 100 (map entry_key (errors (session_with_errors 100)) ++ log).
Proof.
  intros log.
  assert (H1 : importSessions (service_with_errors 100) !! "u1"
               = Some (session_with_errors 100)) by (vm_compute; reflexivity).
  assert (H2 : log <> []) by discriminate.
  split; [exact H1|]. split; [exact H2|].
  exact (addError_keeps_last_100 clock "u1" (service_with_errors 100)
           (session_with_errors 100) log H1 H2).
Defined.

Lemma parseAmount_brazilian_witness :
  exists q,
    parseAmount (Some (String.concat "." ["1"; "234"] ++ "," ++ "56")) = Ok (JNum q) /\
    (q == inject_Z (digits_val (String.concat "" ["1"; "234"] ++ "56")) /
          inject_Z (10 ^ Z.of_nat (String.length "56")))%Q.
Proof.
  apply (proj1 parseAmount_brazilian_format ["1"; "234"] "56").
  - repeat constructor.
  - reflexivity.
  - discriminate.
Defined.

(** C4: the code misses what the claim says. Importing a file of three
    lines whose preview counted two data rows leaves the progress at 150,
    not 100, when the session is finalizing: the total is the preview's
    count of valid rows, the numerator counts every row read. With a total
    of 0 the progress goes from 0 to NaN, which is not a rise either. *)
Lemma finalizing_progress_is_not_100 :
  (exists s,
     importSessions service_finalizing !! "u1" = Some s /\
     status s = Finalizing /\
     totalRows s = 2 /\ processedRows s = 3 /\
     progress s = of_Z 150 /\
     JsNum.eqb (progress s) (of_Z 100) = false) /\
  progress_history clock "u1" calls_of_empty_file service_started_empty
    = [of_Z 0; JNaN] /\
  nondecreasing (progress_history clock "u1" calls_of_empty_file service_started_empty)
    = false.
Proof.
  split.
  - eexists.
    split; [vm_compute; reflexivity|]. split; [vm_compute; reflexivity|].
    split; [vm_compute; reflexivity|]. split; [vm_compute; reflexivity|].
    split; [vm_compute; reflexivity|]. vm_compute. reflexivity.
  - split; vm_compute; reflexivity.
Qed.

Lemma progress_rises_witness :
  0 < pv_totalRows preview /\
  let svc1 :=
    (startImportSession clock "u1" "alice" (pv_totalRows preview) "extrato.csv"
                        service0).2 in
  let st :=
    (processImportWithStreaming MemoryStore.model upload mapping ∅ "alice" "u1"
                                file_rows EndOfStream []).2 in
  nondecreasing (progress_history clock "u1" (calls st) svc1) = true /\
  (EndOfStream = EndOfStream ->
   exists s,
     importSessions (run_calls clock (calls st) svc1) !! "u1" = Some s /\
     status s = Finalizing /\
     progress s = percent (Z.of_nat (length file_rows)) (pv_totalRows preview) /\
     (Z.of_nat (length file_rows) = pv_totalRows preview -> progress s = of_Z 100)).
Proof.
  assert (H : 0 < pv_totalRows preview) by (vm_compute; reflexivity).
  split; [exact H|].
  exact (progress_rises_to_final_ratio MemoryStore.model clock upload mapping ∅
           "alice" "u1" "extrato.csv" file_rows EndOfStream (pv_totalRows preview)
           service0 [] H).
Defined.

Lemma stream_end_completes_witness :
  w_tempStorage world0 !! param_uploadId (request_of "alice") = Some upload /\
  up_userId upload = req_user_id (request_of "alice") /\
  exists s r,
    importSessions
      (w_service (confirmImport MemoryStore.model clock world0 (request_of "alice")
                                file_rows EndOfStream).2)
      !! param_uploadId (request_of "alice") = Some s /\
    status s = Completed /\ result_ s = Some r /\ r_success r = true.
Proof.
  assert (H1 : w_tempStorage world0 !! param_uploadId (request_of "alice") = Some upload)
    by (vm_compute; reflexivity).
  assert (H2 : up_userId upload = req_user_id (request_of "alice")) by reflexivity.
  split; [exact H1|]. split; [exact H2|].
  exact (stream_end_completes MemoryStore.model clock world0 (request_of "alice")
           file_rows upload H1 H2).
Defined.

(** C7, as stated, fails on the empty and on the absent cell: [parseFloat]
    finds no number in the empty text, yet [parseAmount] returns 0, and the
    pipeline puts the row in the batch without counting an error. *)
Lemma empty_amount_is_not_an_error :
  parseFloat "" = JNaN /\
  parseAmount (Some "") = Ok (of_Z 0) /\
  parseAmount None = Ok (of_Z 0) /\
  let st :=
    transform MemoryStore.model upload mapping ∅ "alice" "u1"
              (initial_state []) row_no_amount in
  errorCount st = 0 /\ calls st = [] /\
  map bill_value (currentBatch_ st) = [of_Z 0].
Proof.
  split; [vm_compute; reflexivity|]. split; [vm_compute; reflexivity|].
  split; [vm_compute; reflexivity|]. intros st.
  split; [vm_compute; reflexivity|]. split; [vm_compute; reflexivity|].
  vm_compute. reflexivity.
Qed.

Lemma unparsable_amount_witness :
  ("abc" <> "" /\ parseFloat (clean_amount "abc") = JNaN /\
   parseAmount (Some "abc") = Throw ("Valor inválido: " ++ "abc")) /\
  let st := initial_state (DB := list Transaction) (Doc := Transaction) [] in
  let st' :=
    transform MemoryStore.model upload mapping ∅ "alice" "u1" st row_bad_amount in
  errorCount st' = errorCount st + 1 /\
  calls st' =
    (calls st ++
     [CallAddError "u1" ("Valor inválido: " ++ "abc") (Some (processedCount st + 1))])%list /\
  currentBatch_ st' = currentBatch_ st.
Proof.
  assert (H1 : "abc" <> "") by discriminate.
  assert (H2 : parseFloat (clean_amount "abc") = JNaN) by (vm_compute; reflexivity).
  split.
  - split; [exact H1|]. split; [exact H2|].
    exact (proj1 unparsable_amount_is_row_error "abc" H1 H2).
  - apply (proj2 (proj2 (proj2 (proj2 unparsable_amount_is_row_error)))
             (list Transaction) Transaction MemoryStore.model upload mapping ∅
             "alice" "u1" (initial_state []) row_bad_amount "abc").
    + vm_compute; reflexivity.
    + vm_compute; reflexivity.
    + vm_compute; reflexivity.
    + exact H1.
    + exact H2.
Defined.

Lemma foreign_owner_witness :
  w_tempStorage world0 !! param_uploadId (request_of "bob") = Some upload /\
  up_userId upload <> req_user_id (request_of "bob") /\
  getPreview (w_tempStorage world0) (request_of "bob") =
    {| status_code := 403; body := ErrorBody "Não autorizado" |}.
Proof.
  assert (H1 : w_tempStorage world0 !! param_uploadId (request_of "bob") = Some upload)
    by (vm_compute; reflexivity).
  assert (H2 : up_userId upload <> req_user_id (request_of "bob")) by discriminate.
  split; [exact H1|]. split; [exact H2|].
  exact (proj1 (foreign_owner_is_forbidden (w_tempStorage world0) service_finalizing
                  (request_of "bob")) upload H1 H2).
Defined.

(** C9, as stated, fails: "32/12/24" is accepted, and day 32 of December
    2024 is carried over to 1 January 2025. *)
Lemma day_overflow_changes_year :
  exists date,
    parseDate (Some "32/12/24") = Ok (Some date) /\
    getFullYear date = Some 2025 /\
    calendar date = Some (2025, 0, 1).
Proof.
  eexists. split; [vm_compute; reflexivity|].
  split; [vm_compute; reflexivity|]. vm_compute. reflexivity.
Qed.

Lemma two_digit_year_witness :
  all_digits "5" = true /\ all_digits "3" = true /\ all_digits "24" = true /\
  (1 <= String.length "5" <= 2)%nat /\ (1 <= String.length "3" <= 2)%nat /\
  String.length "24" = 2%nat /\
  1 <= digits_val "3" <= 12 /\
  1 <= digits_val "5" <= 31 /\
  exists date,
    parseDate (Some ("5" ++ "/" ++ "3" ++ "/" ++ "24")) = Ok (Some date) /\
    getFullYear date = Some (2000 + digits_val "24").
Proof.
  assert (H4 : (1 <= String.length "5" <= 2)%nat) by (simpl; lia).
  assert (H5 : (1 <= String.length "3" <= 2)%nat) by (simpl; lia).
  assert (H7 : 1 <= digits_val "3" <= 12) by (vm_compute; split; discriminate).
  assert (H8 : 1 <= digits_val "5" <= 31) by (vm_compute; split; discriminate).
  repeat (split; [first [reflexivity | assumption]|]).
  exact (parseDate_two_digit_year_valid "5" "3" "24" eq_refl eq_refl eq_refl
           H4 H5 eq_refl H7 H8).
Defined.

Lemma tracker_ignores_unknown_witness :
  importSessions service0 !! "missing" = None /\
  updateProgress clock "missing" no_update service0 = service0 /\
  addError clock "missing" "Dados da transação inválidos" (Some 1) service0 = service0 /\
  completeImportSession clock "missing"
    {| r_success := true; r_imported := Some 0; r_errors := Some 0; r_total := Some 0;
       r_message := None; r_error := None |} service0 = service0.
Proof.
  assert (H : importSessions service0 !! "missing" = None) by (vm_compute; reflexivity).
  split; [exact H|].
  exact (tracker_ignores_unknown_upload clock service0 "missing" no_update
           "Dados da transação inválidos" (Some 1)
           {| r_success := true; r_imported := Some 0; r_errors := Some 0;
              r_total := Some 0; r_message := None; r_error := None |} H).
Defined.

(** * Further properties *)

Import Detection Registry Uploads MonthlyBills.

(** ** Separator detection and column mapping *)

(** X1: the separator detected is one of comma, semicolon and tab, none of
    them occurs more often in the first line, and every candidate tried
    before it occurs strictly less often: a tie goes to the earlier
    candidate, and a first line with none of them gives the comma. *)
Theorem detectSeparator_most_frequent (content : string) :
  let line := first_line content in
  let r := detectSeparator content in
  exists pre post,
    separators = (pre ++ r :: post)%list /\
    Forall (fun s => (count_char s line < count_char r line)%nat) pre /\
    Forall (fun s => (count_char s line <= count_char r line)%nat) post.
Proof.
  intros line r. subst r. unfold detectSeparator. fold line.
  unfold separators. cbn [foldl]. unfold try_separator.
  repeat match goal with
         | |- context [Nat.ltb ?a ?b] => destruct (Nat.ltb_spec a b)
         end; cbn [snd].
  all: first
    [ exists [], [";"%char; tab]; split; [reflexivity|];
      split; repeat constructor; lia
    | exists [","%char], [tab]; split; [reflexivity|];
      split; repeat constructor; lia
    | exists [","%char; ";"%char], []; split; [reflexivity|];
      split; repeat constructor; lia ].
Qed.

Lemma matches_any_Exists header names :
  matches_any header names = true <->
  Exists (fun n => includes (toLowerCase n) (toLowerCase header) = true) names.
Proof.
  induction names as [|n names IH]; cbn [matches_any].
  - split; [discriminate | intros H; inversion H].
  - destruct (includes (toLowerCase n) (toLowerCase header)) eqn:Hn.
    + split; [intros _; now constructor | reflexivity].
    + rewrite IH. split; [now constructor|].
      intros H. inversion H; subst; [congruence | assumption].
Qed.

Lemma findColumn_spec headers names :
  match findColumn headers names with
  | Some h =>
      exists pre post,
        headers = (pre ++ h :: post)%list /\
        matches_any h names = true /\
        Forall (fun x => matches_any x names = false) pre
  | None => Forall (fun x => matches_any x names = false) headers
  end.
Proof.
  induction headers as [|x headers IH]; cbn [findColumn]; [constructor|].
  destruct (matches_any x names) eqn:Hx.
  - exists [], headers. auto.
  - destruct (findColumn headers names) as [h|].
    + destruct IH as (pre & post & -> & Hh & Hpre).
      exists (x :: pre), post. repeat split; [assumption | now constructor].
    + now constructor.
Qed.

(** X2: [findColumn] returns the first header, in the order of the file,
    in which one of the candidate names occurs (letter case apart), whatever
    the rank of that name among the candidates; it returns nothing exactly
    when no header contains any candidate. *)
Theorem findColumn_first_matching_header (headers names : list string) :
  match findColumn headers names with
  | Some h =>
      exists pre post,
        headers = (pre ++ h :: post)%list /\
        Exists (fun n => includes (toLowerCase n) (toLowerCase h) = true) names /\
        Forall (fun x =>
                  Forall (fun n => includes (toLowerCase n) (toLowerCase x) = false)
                         names) pre
  | None =>
      Forall (fun x =>
                Forall (fun n => includes (toLowerCase n) (toLowerCase x) = false)
                       names) headers
  end.
Proof.
  assert (Hno : forall x, matches_any x names = false ->
                Forall (fun n => includes (toLowerCase n) (toLowerCase x) = false) names).
  { intros x Hx. apply Forall_forall. intros n Hn.
    destruct (includes (toLowerCase n) (toLowerCase x)) eqn:Hi; [|reflexivity].
    assert (matches_any x names = true); [|congruence].
    apply matches_any_Exists, Exists_exists. eauto. }
  pose proof (findColumn_spec headers names) as H.
  destruct (findColumn headers names) as [h|].
  - destruct H as (pre & post & -> & Hh & Hpre).
    exists pre, post. split; [reflexivity|].
    split; [now apply matches_any_Exists|].
    eapply Forall_impl; [exact Hpre | exact Hno].
  - eapply Forall_impl; [exact H | exact Hno].
Qed.

Lemma findColumn_In headers names h :
  findColumn headers names = Some h -> In h headers.
Proof.
  intros H. pose proof (findColumn_spec headers names) as Hs. rewrite H in Hs.
  destruct Hs as (pre & post & -> & _). apply in_or_app. right. now left.
Qed.

(** X3: for a generic file, every column that [generateColumnMapping] maps
    a field to is a header of the file, and payment type, installments,
    repeat and fixed are left unmapped. (For the bank export the three
    columns date, title and amount are named whatever the headers are.) *)
Theorem generic_mapping_names_real_headers (headers : list string) :
  let m := generateColumnMapping headers GenericCsv in
  Forall (fun field => match field with
                       | Some h => In h headers
                       | None => True
                       end)
         [m_date m; m_description m; m_amount m; m_category m] /\
  m_payment_type m = None /\ m_installments m = None /\
  m_repeat m = None /\ m_fixed m = None /\
  m_date (generateColumnMapping [] Nubank) = Some "date".
Proof.
  intros m. split; [|repeat split].
  subst m. cbn [generateColumnMapping m_date m_description m_amount m_category].
  repeat constructor;
    match goal with
    | |- match findColumn ?hs ?ns with _ => _ end =>
        destruct (findColumn hs ns) eqn:H; [eapply findColumn_In; eassumption | exact I]
    end.
Qed.

(** X4: with the mapping generated for a bank export or a generic file,
    which maps no payment type, installments, repeat or fixed column, every
    record built from a row has payment type "Nubank", installments "1/1"
    and both flags false. *)
Theorem generated_mapping_defaults
    (headers : list string) (type : ImportType) (row : Row)
    (categoryMapping : gmap string string) (user : string) (t : Transaction) :
  type <> GbmoneyCsv ->
  mapRowToTransaction row (generateColumnMapping headers type) categoryMapping user
    = Ok t ->
  payment_type t = "Nubank" /\ installments t = "1/1" /\
  repeat t = false /\ fixed t = false.
Proof.
  intros Htype. unfold mapRowToTransaction.
  destruct (parseDate _) as [d|]; [|discriminate]. cbn [result_bind].
  destruct (parseAmount _) as [v|]; [|discriminate]. cbn [result_bind].
  intros [= <-]. destruct type; [congruence | |]; cbn; auto.
Qed.

(** ** Preprocessing of the finance-app export *)

Lemma preprocess_lines_no_header lines :
  Forall (fun l => includes header_phrase (trim l) = false) lines ->
  preprocess_lines false lines = [].
Proof.
  induction 1 as [|l lines Hl _ IH]; [reflexivity|].
  cbn [preprocess_lines]. now rewrite Hl.
Qed.

(** X5: a text none of whose lines contains the header phrase
    [Descrição,Categoria,Data,Forma de Pagamento] is preprocessed to the
    empty text: without the header in the same text, no data line is kept. *)
Theorem preprocess_without_header_is_empty (content : string) :
  Forall (fun l => includes header_phrase (trim l) = false) (split newline content) ->
  preprocessGBMoneyCSV content = "".
Proof.
  intros H. unfold preprocessGBMoneyCSV.
  now rewrite preprocess_lines_no_header.
Qed.

Lemma split_not_nil c s : split c s <> [].
Proof.
  destruct s as [|a s]; cbn [split]; [discriminate|].
  destruct (Ascii.eqb a c); [discriminate|]. destruct (split c s); discriminate.
Qed.

Lemma split_parts_every (P : ascii -> bool) c s :
  every P s = true -> Forall (fun p => every P p = true) (split c s).
Proof.
  induction s as [|a s IH]; cbn [split every].
  - intros _. repeat constructor.
  - intros [Ha Hs]%andb_prop. specialize (IH Hs).
    destruct (Ascii.eqb a c); [constructor; [reflexivity | assumption]|].
    destruct (split c s) as [|h t]; [repeat constructor; cbn; now rewrite Ha|].
    inversion IH; subst. constructor; [cbn; now rewrite Ha | assumption].
Qed.

Lemma split_parts_no_sep c s :
  Forall (fun p => every (fun a => negb (Ascii.eqb a c)) p = true) (split c s).
Proof.
  induction s as [|a s IH]; cbn [split]; [repeat constructor|].
  destruct (Ascii.eqb a c) eqn:Ha; [constructor; [reflexivity | assumption]|].
  destruct (split c s) as [|h t]; [repeat constructor; cbn; now rewrite Ha|].
  inversion IH; subst. constructor; [cbn; now rewrite Ha | assumption].
Qed.

Lemma every_trimStart P s : every P s = true -> every P (trimStart s) = true.
Proof.
  induction s as [|a s IH]; [reflexivity|]. cbn [trimStart].
  destruct (is_space a); [|auto]. cbn [every]. intros [_ Hs]%andb_prop. auto.
Qed.

Lemma every_trimEnd P s : every P s = true -> every P (trimEnd s) = true.
Proof.
  induction s as [|a s IH]; [reflexivity|]. cbn [trimEnd every].
  intros [Ha Hs]%andb_prop. specialize (IH Hs).
  destruct (trimEnd s) as [|b t].
  - destruct (is_space a); [reflexivity|]. cbn. now rewrite Ha.
  - cbn [every] in *. now rewrite Ha.
Qed.

Lemma every_trim P s : every P s = true -> every P (trim s) = true.
Proof. intros H. unfold trim. now apply every_trimEnd, every_trimStart. Qed.

Lemma concat_cons2 sep (x y : string) l :
  String.concat sep (x :: y :: l) = x ++ sep ++ String.concat sep (y :: l).
Proof. reflexivity. Qed.

Lemma every_concat P sep (l : list string) :
  every P sep = true -> Forall (fun p => every P p = true) l ->
  every P (String.concat sep l) = true.
Proof.
  intros Hsep. induction 1 as [|x l Hx Hl IH]; [reflexivity|].
  destruct l as [|y l]; [exact Hx|].
  rewrite concat_cons2, !every_app, Hx, Hsep, IH. reflexivity.
Qed.

Lemma split_concat c (l : list string) :
  l <> [] ->
  Forall (fun p => every (fun a => negb (Ascii.eqb a c)) p = true) l ->
  split c (String.concat (String c "") l) = l.
Proof.
  intros Hne H. induction H as [|x l Hx Hl IH]; [congruence|].
  destruct l as [|y l].
  - cbn [String.concat]. now apply split_no_sep.
  - rewrite concat_cons2. rewrite app_cons, app_nil.
    rewrite split_app_sep by assumption. f_equal. apply IH. discriminate.
Qed.

Lemma Forall_take {A} (P : A -> Prop) n (l : list A) : Forall P l -> Forall P (take n l).
Proof.
  intros H. revert n. induction H as [|x l Hx Hl IH]; intros [|n]; cbn; constructor; auto.
Qed.

(** A line pushed by the preprocessing: free of line feeds, of eight fields
    at most. *)
Lemma first8_fields line :
  every (fun a => negb (Ascii.eqb a newline)) line = true ->
  every (fun a => negb (Ascii.eqb a newline)) (first8 line) = true /\
  (length (split "," (first8 line)) <= 8)%nat.
Proof.
  intros Hline. unfold first8. split.
  - apply every_concat; [reflexivity|]. apply Forall_take.
    now apply split_parts_every.
  - rewrite split_concat.
    + rewrite length_take. lia.
    + pose proof (split_not_nil "," line). destruct (split "," line); [congruence|].
      discriminate.
    + apply Forall_take, split_parts_no_sep.
Qed.

Lemma preprocess_lines_fields lines : forall found,
  Forall (fun l => every (fun a => negb (Ascii.eqb a newline)) l = true) lines ->
  Forall (fun l => every (fun a => negb (Ascii.eqb a newline)) l = true /\
                   (length (split "," l) <= 8)%nat)
         (preprocess_lines found lines).
Proof.
  induction lines as [|l lines IH]; intros found H; [constructor|].
  inversion H as [|? ? Hl Hrest]; subst.
  pose proof (first8_fields (trim l) (every_trim _ _ Hl)) as H8.
  cbn [preprocess_lines].
  destruct (includes header_phrase (trim l)); [constructor; auto|].
  destruct found; [|auto].
  destruct (is_stop_line (trim l)); [constructor|].
  destruct (truthy (trim l) && negb (startsWith ",,," (trim l))); [|auto].
  destruct (split "," (trim l)) as [|p0 ps]; [auto|].
  destruct (truthy p0 && negb (String.eqb (trim p0) "")); [constructor|]; auto.
Qed.

(** X6: every line of the preprocessed text has at most eight
    comma-separated fields, whatever the input. *)
Theorem preprocess_keeps_eight_fields (content : string) :
  Forall (fun l => (length (split "," l) <= 8)%nat)
         (split newline (preprocessGBMoneyCSV content)).
Proof.
  unfold preprocessGBMoneyCSV.
  pose proof (preprocess_lines_fields (split newline content) false
                (split_parts_no_sep newline content)) as H.
  destruct (preprocess_lines false (split newline content)) as [|x out] eqn:Hout.
  - cbn. repeat constructor.
  - rewrite split_concat; [| discriminate |].
    + eapply Forall_impl; [exact H|]. cbn. tauto.
    + eapply Forall_impl; [exact H|]. cbn. tauto.
Qed.

(** ** Rows and records *)

Lemma blank_test v :
  truthy v && negb (String.eqb (trim v) "") = true <-> trim v <> "".
Proof.
  split.
  - intros [_ H]%andb_prop. apply negb_true_iff, String.eqb_neq in H. exact H.
  - intros H. apply andb_true_intro. split.
    + destruct v; [now cbn in H | reflexivity].
    + apply negb_true_iff, String.eqb_neq. exact H.
Qed.

(** X7: a row of a file that is not a finance-app export passes the
    structural check exactly when one of its cells is not blank; the row
    without cells and the row of empty or white cells are skipped. *)
Theorem generic_row_valid_iff_some_cell (data : Row) (type : ImportType) :
  type <> GbmoneyCsv ->
  (isValidDataRow data type = true <->
   exists column value, data !! column = Some value /\ trim value <> "").
Proof.
  intros Htype.
  assert (Hgen : isValidDataRow data type =
                 existsb (fun value => truthy value && negb (String.eqb (trim value) ""))
                         (map snd (map_to_list data)))
    by (destruct type; [congruence | reflexivity | reflexivity]).
  rewrite Hgen, existsb_exists. split.
  - intros (v & Hin & Hv). apply in_map_iff in Hin as ([k v'] & <- & Hin).
    exists k, v'. split; [|now apply blank_test].
    apply elem_of_map_to_list. now apply list_elem_of_In.
  - intros (k & v & Hk & Hv). exists v. split; [|now apply blank_test].
    apply in_map_iff. exists (k, v). split; [reflexivity|].
    apply list_elem_of_In. now apply elem_of_map_to_list.
Qed.

Lemma determineType_values row mapping :
  determineTypeGBMoney row mapping = "income" \/
  determineTypeGBMoney row mapping = "expense".
Proof.
  unfold determineTypeGBMoney.
  destruct (truthy_opt _ && startsWith "-" _); [now right|].
  destruct (_ || _); [now left | now right].
Qed.

Lemma or_default_nonempty v d : d <> "" -> or_default v d <> "".
Proof.
  intros Hd. unfold or_default. destruct v as [[|c s]|]; cbn; try assumption.
  discriminate.
Qed.

(** X8: every record that [mapRowToTransaction] returns has a value that is
    not negative, a type that is income or expense, a category that is
    absent or not empty, and a payment type and an installment text that are
    not empty; a record accepted by [validateTransaction] has a date and a
    name that is not blank. *)
Theorem record_invariant
    (row : Row) (mapping : ColumnMapping) (categoryMapping : gmap string string)
    (user : string) (t : Transaction) :
  mapRowToTransaction row mapping categoryMapping user = Ok t ->
  nonnegative (bill_value t) /\
  (bill_type t = "income" \/ bill_type t = "expense") /\
  bill_category t <> Some "" /\
  payment_type t <> "" /\ installments t <> "" /\
  (validateTransaction t = true ->
   (exists date, buy_date t = Some date) /\ trim (bill_name t) <> "").
Proof.
  unfold mapRowToTransaction.
  destruct (parseDate _) as [d|]; [|discriminate]. cbn [result_bind].
  destruct (parseAmount _) as [v|] eqn:Hv; [|discriminate]. cbn [result_bind].
  intros [= <-]. cbn.
  split; [now apply parseAmount_nonnegative in Hv|].
  split; [apply determineType_values|].
  split.
  { unfold mapCategory. destruct (truthy _) eqn:Ht; [|discriminate].
    intros [= H]. unfold or_default at 1 in H.
    destruct (categoryMapping !! _) as [[|c s]|]; cbn in H; try discriminate;
      rewrite H in Ht; discriminate. }
  split.
  { destruct (truthy_opt (m_payment_type mapping)); [|discriminate].
    now apply or_default_nonempty. }
  split.
  { destruct (truthy_opt (m_installments mapping)); [|discriminate].
    now apply or_default_nonempty. }
  unfold validateTransaction. cbn.
  intros H. repeat (apply andb_prop in H as [H ?]).
  split.
  - destruct d; [eauto | discriminate].
  - match goal with
    | Hn : negb (String.eqb _ "") = true |- _ =>
        apply negb_true_iff, String.eqb_neq in Hn; exact Hn
    end.
Qed.

(** ** Dates with a four-digit year *)

Lemma eat_digits_inv k : forall s r,
  eat_digits k s = Some r ->
  exists ds, s = ds ++ r /\ all_digits ds = true /\ String.length ds = k.
Proof.
  induction k as [|k IH]; intros s r; cbn [eat_digits].
  - intros [= ->]. exists "". auto.
  - destruct s as [|a s]; [discriminate|].
    destruct (is_digit a) eqn:Ha; [|discriminate].
    intros H. destruct (IH _ _ H) as (ds & -> & Hds & Hlen).
    exists (String a ds). cbn. rewrite Ha. unfold all_digits in Hds. rewrite Hds. auto.
Qed.

Lemma test_digits_inv lo hi p s :
  test (Digits lo hi :: p) s = true ->
  exists ds r, s = ds ++ r /\ all_digits ds = true /\
               (lo <= String.length ds)%nat /\ test p r = true.
Proof.
  cbn [test]. intros (k & Hk & H)%existsb_exists.
  destruct (eat_digits k s) as [r|] eqn:He; [|discriminate].
  destruct (eat_digits_inv _ _ _ He) as (ds & -> & Hds & Hlen).
  exists ds, r. apply in_seq in Hk. repeat split; [assumption | lia | assumption].
Qed.

Lemma test_lit_inv c p s :
  test (Lit c :: p) s = true -> exists r, s = String c r /\ test p r = true.
Proof.
  cbn [test]. destruct s as [|a s]; [discriminate|].
  intros [Ha Hr]%andb_prop. apply Ascii.eqb_eq in Ha. subst. eauto.
Qed.

Lemma digits_prefix_unique c a : forall b x y,
  all_digits a = true -> all_digits b = true -> is_digit c = false ->
  a ++ String c x = b ++ String c y -> a = b /\ x = y.
Proof.
  induction a as [|u a IH]; intros [|v b] x y Ha Hb Hc; rewrite ?app_cons, ?app_nil.
  - intros [= ->]. auto.
  - intros [= -> _]. cbn in Hb. apply andb_prop in Hb as [Hv _]. congruence.
  - intros [= -> _]. cbn in Ha. apply andb_prop in Ha as [Hu _]. congruence.
  - intros [= -> H]. cbn in Ha, Hb.
    apply andb_prop in Ha as [_ Ha]. apply andb_prop in Hb as [_ Hb].
    destruct (IH b x y Ha Hb Hc H) as [-> ->]. auto.
Qed.

Lemma app_length_string (a b : string) :
  String.length (a ++ b) = (String.length a + String.length b)%nat.
Proof. induction a as [|x a IH]; [reflexivity|]. rewrite app_cons. cbn. now rewrite IH. Qed.

(** A day/month text with a four-digit year does not match the pattern of
    the two-digit year. *)
Lemma four_digit_year_not_dmy2 d m y :
  all_digits d = true -> all_digits m = true -> all_digits y = true ->
  String.length y = 4%nat ->
  test re_dmy2 (d ++ "/" ++ m ++ "/" ++ y) = false.
Proof.
  intros Hd Hm Hy Ly.
  destruct (test re_dmy2 (d ++ "/" ++ m ++ "/" ++ y)) eqn:Ht; [|reflexivity].
  exfalso. unfold re_dmy2 in Ht.
  apply test_digits_inv in Ht as (d1 & r1 & E1 & Hd1 & _ & Ht).
  apply test_lit_inv in Ht as (r2 & -> & Ht).
  rewrite !app_cons, !app_nil in E1.
  apply digits_prefix_unique in E1 as [<- <-]; [|assumption..|reflexivity].
  apply test_digits_inv in Ht as (d2 & r3 & E2 & Hd2 & _ & Ht).
  apply test_lit_inv in Ht as (r4 & -> & Ht).
  apply digits_prefix_unique in E2 as [<- <-]; [|assumption..|reflexivity].
  cbn [test existsb seq Nat.sub] in Ht. rewrite orb_false_r in Ht.
  destruct (eat_digits 2 y) as [r|] eqn:He; [|discriminate].
  destruct r; [|discriminate].
  destruct (eat_digits_inv _ _ _ He) as (ds & -> & _ & Hlen).
  rewrite app_nil_right in Ly. lia.
Qed.

(** X9: a text [D/M/YYYY] with one or two digits for the day and for the
    month, four for the year, a month from 1 to 12 and a day from 1 to 31 is
    parsed day first to a date of the year YYYY, except that a year from
    0000 to 0099 gives 1900 + YYYY. *)
Theorem parseDate_four_digit_year (d m y : string) :
  all_digits d = true -> all_digits m = true -> all_digits y = true ->
  (1 <= String.length d <= 2)%nat -> (1 <= String.length m <= 2)%nat ->
  String.length y = 4%nat ->
  1 <= digits_val m <= 12 ->
  1 <= digits_val d <= 31 ->
  exists date,
    parseDate (Some (d ++ "/" ++ m ++ "/" ++ y)) = Ok (Some date) /\
    getFullYear date =
      Some (if digits_val y <=? 99 then 1900 + digits_val y else digits_val y).
Proof.
  intros Hd Hm Hy Ld Lm Ly Vm Vd.
  set (s := d ++ "/" ++ m ++ "/" ++ y).
  assert (Hne : s <> "") by (subst s; destruct d; simpl in *; [lia | discriminate]).
  assert (Htrim : trim s = s).
  { apply trim_nospace. subst s. rewrite !every_app. cbn [every].
    rewrite !digits_nospace by assumption. reflexivity. }
  assert (Hnot : test re_dmy2 s = false) by now apply four_digit_year_not_dmy2.
  assert (Htest : test re_dmy4 s = true).
  { subst s. unfold re_dmy4.
    apply test_digits; [assumption | lia |]. norm_app. rewrite test_lit.
    apply test_digits; [assumption | lia |]. norm_app. rewrite test_lit.
    rewrite <- (app_nil_right y).
    apply test_digits; [assumption | lia | reflexivity]. }
  assert (Hsplit : split "/" s = [d; m; y]).
  { subst s. norm_app.
    rewrite split_app_sep by now apply digits_no_slash.
    rewrite split_app_sep by now apply digits_no_slash.
    rewrite split_no_sep by now apply digits_no_slash. reflexivity. }
  assert (Hyb : 0 <= digits_val y < 10000).
  { pose proof (digits_val_bounds y Hy) as H. rewrite Ly in H. exact H. }
  rewrite (parseDate_nonempty _ Hne), Htrim.
  unfold date_format. rewrite Hnot, Htest. unfold build_date. rewrite Hsplit.
  cbn [lookup list_lookup]. unfold parseInt_part. simpl mbind.
  rewrite !parseInt_digits by (try assumption; intros ->; simpl in *; lia).
  cbn [fmap option_fmap option_map]. unfold new_Date.
  replace ((0 <=? digits_val y) && (digits_val y <=? 99)) with (digits_val y <=? 99)
    by (destruct (Z.leb_spec 0 (digits_val y)); [reflexivity | lia]).
  set (yr := if digits_val y <=? 99 then 1900 + digits_val y else digits_val y).
  assert (Hyr : 0 <= yr <= 9999) by (subst yr; destruct (Z.leb_spec (digits_val y) 99); lia).
  assert (Hyear : YearFromDay (MakeDay yr (digits_val m - 1) (digits_val d)) = yr).
  { apply MakeDay_in_year; lia. }
  assert (Hrange : in_range (MakeDay yr (digits_val m - 1) (digits_val d)) = true).
  { unfold in_range. apply Z.leb_le.
    pose proof (month_offset_in_year (InLeapYear yr)
                  (digits_val m - 1) (digits_val d) ltac:(lia) Vd) as Hoff.
    pose proof (DayFromYear_bounds yr Hyr) as Hb.
    unfold MakeDay. rewrite Z.div_small, Z.mod_small, Z.add_0_r by lia.
    destruct (InLeapYear yr); lia. }
  rewrite Hrange. simpl toISOString_ok. cbv iota.
  eexists. split; [reflexivity|]. simpl. now rewrite Hyear.
Qed.

(** ** The whole import: accounting, bounds, failure *)

Section ImportFacts.
Context {DB Doc : Type} (M : Model DB Doc).
Variables (uploadData : UploadData) (mapping : ColumnMapping)
          (categoryMapping : gmap string string) (user id : string).

Local Abbreviation step := (transform M uploadData mapping categoryMapping user id).
Local Abbreviation type := (pv_type (up_preview uploadData)).

Lemma batch_sum batch (res : list Doc) db0 :
  bounded_bulk M ->
  let out := processBatchStreamingAsync M batch res id db0 in
  b_success out.1.1.1 + b_errors out.1.1.1 = Z.of_nat (length batch) /\
  0 <= b_success out.1.1.1 /\ 0 <= b_errors out.1.1.1.
Proof.
  intros Hb out. subst out. specialize (Hb db0 batch).
  unfold processBatchStreamingAsync, bulk_insert.
  destruct (insertMany M db0 batch) as [db1 [bulkError | saved]].
  - destruct (message_of bulkError).
    + pose proof (save_individually_length M id batch 0 db1) as Hlen.
      destruct (save_individually M id 0 batch db1) as [[settled db2] cs1].
      pose proof (count_settled_sum id settled 0 res 0 0) as Hsum. cbn zeta in Hsum.
      destruct (count_settled id 0 settled res 0 0) as [[[res' s'] e'] cs2].
      cbn [fst snd b_success b_errors] in *. rewrite Hlen in Hsum. lia.
    + cbn [fst snd b_success b_errors]. lia.
  - destruct (countDocuments M db1) as [bulkError|].
    + destruct (message_of bulkError).
      * pose proof (save_individually_length M id batch 0 db1) as Hlen.
        destruct (save_individually M id 0 batch db1) as [[settled db2] cs1].
        pose proof (count_settled_sum id settled 0 res 0 0) as Hsum. cbn zeta in Hsum.
        destruct (count_settled id 0 settled res 0 0) as [[[res' s'] e'] cs2].
        cbn [fst snd b_success b_errors] in *. rewrite Hlen in Hsum. lia.
      * cbn [fst snd b_success b_errors]. lia.
    + cbn [fst snd b_success b_errors].
      destruct (Z.ltb_spec (Z.of_nat (length saved)) (Z.of_nat (length batch))); lia.
Qed.

(** Rows counted so far as saved, as failed, or waiting in the batch. *)
Local Abbreviation settled_or_waiting st :=
  (successfulCount st + errorCount st + Z.of_nat (length (currentBatch_ st))).

Lemma step_accounts (st : PipelineState DB Doc) row :
  bounded_bulk M ->
  settled_or_waiting (step st row) =
    settled_or_waiting st + (if isValidDataRow row type then 1 else 0) /\
  (0 <= successfulCount st -> 0 <= successfulCount (step st row)) /\
  (0 <= errorCount st -> 0 <= errorCount (step st row)).
Proof.
  intros Hb. unfold transform.
  destruct (isValidDataRow row type); [|cbn; lia].
  destruct (mapRowToTransaction _ _ _ _) as [t|]; [|cbn; lia].
  destruct (validateTransaction t); [|cbn; lia].
  destruct (BATCH_SIZE <=? _).
  - pose proof (batch_sum (currentBatch_ st ++ [t]) (results st) (db st) Hb) as Hs.
    cbn zeta in Hs.
    destruct (processBatchStreamingAsync _ _ _ _ _) as [[[br res'] db'] bc].
    cbn [fst snd successfulCount errorCount currentBatch_ length] in *.
    rewrite length_app in Hs. cbn [length] in Hs. lia.
  - cbn [successfulCount errorCount currentBatch_]. rewrite length_app. cbn [length]. lia.
Qed.

Lemma fold_accounts rows : forall st : PipelineState DB Doc,
  bounded_bulk M ->
  0 <= successfulCount st -> 0 <= errorCount st ->
  settled_or_waiting (foldl step st rows) =
    settled_or_waiting st + valid_rows type rows /\
  0 <= successfulCount (foldl step st rows) /\
  0 <= errorCount (foldl step st rows).
Proof.
  induction rows as [|row rows IH]; intros st Hb Hs He.
  - cbn. unfold valid_rows. cbn. lia.
  - cbn [foldl]. destruct (step_accounts st row Hb) as (H1 & H2 & H3).
    destruct (IH (step st row) Hb (H2 Hs) (H3 He)) as (H4 & H5 & H6).
    split; [|auto]. rewrite H4, H1. unfold valid_rows. cbn [List.filter].
    destruct (isValidDataRow row type); cbn [length]; lia.
Qed.

Lemma fold_count rows : forall st : PipelineState DB Doc,
  processedCount (foldl step st rows) = processedCount st + Z.of_nat (length rows).
Proof.
  induction rows as [|row rows IH]; intros st; cbn [foldl length]; [lia|].
  rewrite IH. rewrite (step_count M uploadData mapping categoryMapping user id). lia.
Qed.

Lemma finish_result (st : PipelineState DB Doc) :
  r_success (finish M id st).1 = true /\
  r_imported (finish M id st).1 = Some (successfulCount (finish M id st).2) /\
  r_errors (finish M id st).1 = Some (errorCount (finish M id st).2) /\
  r_total (finish M id st).1 = Some (processedCount st) /\
  processedCount (finish M id st).2 = processedCount st.
Proof.
  unfold finish. destruct (currentBatch_ st) as [|t batch]; [cbn; auto|].
  destruct (processBatchStreamingAsync _ _ _ _ _) as [[[br res'] db'] bc]. cbn. auto.
Qed.

Lemma finish_accounts (st : PipelineState DB Doc) :
  bounded_bulk M ->
  0 <= successfulCount st -> 0 <= errorCount st ->
  successfulCount (finish M id st).2 + errorCount (finish M id st).2 =
    settled_or_waiting st /\
  0 <= successfulCount (finish M id st).2 /\ 0 <= errorCount (finish M id st).2.
Proof.
  intros Hb Hs He. unfold finish. destruct (currentBatch_ st) as [|t batch] eqn:Hbatch.
  - cbn. lia.
  - pose proof (batch_sum (t :: batch) (results st) (db st) Hb) as Hsum. cbn zeta in Hsum.
    destruct (processBatchStreamingAsync _ _ _ _ _) as [[[br res'] db'] bc].
    cbn [fst snd successfulCount errorCount] in *. lia.
Qed.

(** X10: when the stream of rows ends, the result counts every row once:
    its total is the number of rows read, and imported plus errors is the
    number of rows that pass the structural check (the skipped rows are in
    neither), both counts being natural numbers. The bulk insert is taken to
    return no more documents than it was given. *)
Theorem import_accounts_for_every_valid_row (rows : list Row) (db0 : DB) :
  bounded_bulk M ->
  exists r imported errors,
    (processImportWithStreaming M uploadData mapping categoryMapping user id
                                rows EndOfStream db0).1 = Ok r /\
    r_total r = Some (Z.of_nat (length rows)) /\
    r_imported r = Some imported /\ r_errors r = Some errors /\
    0 <= imported /\ 0 <= errors /\
    imported + errors = valid_rows type rows.
Proof.
  intros Hb. unfold processImportWithStreaming.
  set (st0 := foldl step (initial_state db0) rows).
  destruct (fold_accounts rows (initial_state db0) Hb) as (Hacc & Hs & He);
    [cbn; lia | cbn; lia |]. fold st0 in Hacc, Hs, He.
  pose proof (fold_count rows (initial_state db0)) as Hcount. fold st0 in Hcount.
  destruct (finish_result st0) as (_ & Hi & Her & Ht & _).
  destruct (finish_accounts st0 Hb Hs He) as (Hsum & Hs' & He').
  destruct (finish M id st0) as [r st'] eqn:Hfin. cbn [fst snd] in *.
  exists r, (successfulCount st'), (errorCount st').
  split; [reflexivity|]. rewrite Ht, Hcount. cbn in Hacc |- *.
  repeat split; try assumption. lia.
Qed.

Lemma step_batch_bound (st : PipelineState DB Doc) row :
  Z.of_nat (length (currentBatch_ st)) < BATCH_SIZE ->
  Z.of_nat (length (currentBatch_ (step st row))) < BATCH_SIZE.
Proof.
  intros H. unfold transform.
  destruct (isValidDataRow row type); [|exact H].
  destruct (mapRowToTransaction _ _ _ _) as [t|]; [|exact H].
  destruct (validateTransaction t); [|exact H].
  destruct (Z.leb_spec BATCH_SIZE (Z.of_nat (length (currentBatch_ st ++ [t])))).
  - destruct (processBatchStreamingAsync _ _ _ _ _) as [[[br res'] db'] bc].
    cbn. reflexivity.
  - cbn [currentBatch_]. assumption.
Qed.

(** X11: between two rows the batch waiting to be persisted never holds
    100 records: it is flushed as soon as it reaches that size, whatever the
    rows and whatever persistence answers. *)
Theorem waiting_batch_stays_below_100 (rows : list Row) (db0 : DB) :
  (length (currentBatch_ (foldl step (initial_state db0) rows)) < 100)%nat.
Proof.
  assert (H : forall st : PipelineState DB Doc,
             Z.of_nat (length (currentBatch_ st)) < BATCH_SIZE ->
             Z.of_nat (length (currentBatch_ (foldl step st rows))) < BATCH_SIZE).
  { induction rows as [|row rows IH]; intros st Hst; [exact Hst|].
    cbn [foldl]. apply IH. now apply step_batch_bound. }
  specialize (H (initial_state db0)). unfold BATCH_SIZE in H. cbn in H |- *. lia.
Qed.

End ImportFacts.

(** ** Confirming an upload *)

Section ConfirmFacts.
Context {DB Doc : Type} (M : Model DB Doc).
Variable clock : nat -> Z.

Lemma run_call_owner id c svc s :
  importSessions svc !! id = Some s ->
  exists s', importSessions (run_call clock svc c) !! id = Some s' /\
             userId s' = userId s.
Proof.
  intros Hs. destruct c as [id' u | id' e r]; cbn [run_call].
  - destruct (decide (id' = id)) as [->|Hne].
    + rewrite (updateProgress_sessions clock _ _ _ _ Hs), lookup_insert_eq. eauto.
    + destruct (importSessions svc !! id') as [s'|] eqn:Hs'.
      * rewrite (updateProgress_sessions clock _ _ _ _ Hs'), lookup_insert_ne by done.
        eauto.
      * unfold updateProgress. rewrite Hs'. eauto.
  - destruct (decide (id' = id)) as [->|Hne].
    + rewrite (addError_sessions clock _ _ _ _ _ Hs), lookup_insert_eq. eauto.
    + destruct (importSessions svc !! id') as [s'|] eqn:Hs'.
      * rewrite (addError_sessions clock _ _ _ _ _ Hs'), lookup_insert_ne by done.
        eauto.
      * unfold addError. rewrite Hs'. eauto.
Qed.

Lemma run_calls_owner id cs : forall svc s,
  importSessions svc !! id = Some s ->
  exists s', importSessions (run_calls clock cs svc) !! id = Some s' /\
             userId s' = userId s.
Proof.
  induction cs as [|c cs IH]; intros svc s Hs; [eauto|].
  cbn [run_calls foldl].
  destruct (run_call_owner id c svc s Hs) as (s1 & Hs1 & Ho1).
  destruct (IH _ _ Hs1) as (s2 & Hs2 & Ho2). exists s2. split; [assumption | congruence].
Qed.

Lemma complete_session id r svc s :
  importSessions svc !! id = Some s ->
  importSessions (completeImportSession clock id r svc) !! id =
    Some (set_completed s (if r_success r then Completed else Failed)
            (clock (ticks svc))
            (round (fdiv (of_Z (clock (ticks svc) - startTime s)) (of_Z 1000))) r).
Proof.
  intros Hs. unfold completeImportSession. rewrite Hs. cbn.
  rewrite broadcastToUser_sessions. cbn. now rewrite lookup_insert_eq.
Qed.

(** What [confirmImport] does once the owner is checked. *)
Lemma confirmImport_authorized (w : World DB) request rows ending uploadData :
  w_tempStorage w !! param_uploadId request = Some uploadData ->
  up_userId uploadData = req_user_id request ->
  let id := param_uploadId request in
  let started :=
    startImportSession clock id (req_user_id request)
      (pv_totalRows (up_preview uploadData)) (up_filename uploadData) (w_service w) in
  let run :=
    processImportWithStreaming M uploadData
      (default (pv_mapping (up_preview uploadData)) (body_mapping request))
      (default ∅ (body_categoryMapping request))
      (req_user_id request) id rows ending (w_db w) in
  let result :=
    match run.1 with
    | Ok finalResult => finalResult
    | Throw message =>
        {| r_success := false; r_imported := None; r_errors := None;
           r_total := None; r_message := None; r_error := Some message |}
    end in
  (confirmImport M clock w request rows ending).2 =
    {| w_tempStorage := delete id (w_tempStorage w);
       w_service :=
         completeImportSession clock id result
           (run_calls clock (calls run.2) started.2);
       w_db := db run.2 |} /\
  status_code (confirmImport M clock w request rows ending).1 = 200.
Proof.
  intros Hup Hown id started run result. subst id started run result.
  unfold confirmImport. rewrite Hup, Hown, String.eqb_refl. cbn [negb].
  destruct (startImportSession _ _ _ _ _ _) as [session svc1].
  destruct (processImportWithStreaming _ _ _ _ _ _ _ _ _) as [outcome st].
  cbn [fst snd]. split; reflexivity.
Qed.

(** X12: when the row stream fails, the session of a confirmed upload ends
    with status failed and a result carrying the error message of the
    stream; the staged upload is forgotten all the same, and the store is
    left as the rows read before the failure made it: nothing is rolled
    back. *)
Theorem stream_error_fails_the_session
    (w : World DB) (request : Request) (rows : list Row) (message : string)
    (uploadData : UploadData) :
  w_tempStorage w !! param_uploadId request = Some uploadData ->
  up_userId uploadData = req_user_id request ->
  let w' := (confirmImport M clock w request rows (StreamError message)).2 in
  (exists s r,
     importSessions (w_service w') !! param_uploadId request = Some s /\
     status s = Failed /\ result_ s = Some r /\
     r_success r = false /\ r_error r = Some message) /\
  w_tempStorage w' !! param_uploadId request = None /\
  w_db w' =
    db (foldl (transform M uploadData
                 (default (pv_mapping (up_preview uploadData)) (body_mapping request))
                 (default ∅ (body_categoryMapping request))
                 (req_user_id request) (param_uploadId request))
              (initial_state (w_db w)) rows).
Proof.
  intros Hup Hown w'. subst w'.
  destruct (confirmImport_authorized w request rows (StreamError message) uploadData
              Hup Hown) as [Hw _]. cbn zeta in Hw. rewrite Hw. clear Hw.
  cbn [w_tempStorage w_service w_db].
  split; [|split; [apply lookup_delete_eq | reflexivity]].
  cbn [processImportWithStreaming fst snd].
  set (svc1 := (startImportSession clock (param_uploadId request) (req_user_id request)
                  (pv_totalRows (up_preview uploadData)) (up_filename uploadData)
                  (w_service w)).2).
  assert (Hs1 : is_Some (importSessions svc1 !! param_uploadId request)).
  { subst svc1. rewrite startImportSession_sessions, lookup_insert_eq. eauto. }
  match goal with
  | |- context [run_calls clock ?cs svc1] =>
      destruct (run_calls_keep clock (param_uploadId request) cs svc1 Hs1) as [s2 Hs2]
  end.
  eexists _, _. rewrite (complete_session _ _ _ _ Hs2). cbn.
  repeat split; reflexivity.
Qed.

(** X13: when the row stream ends, the counters of the completed session
    are those of its result: processed rows is the total (the number of rows
    read), successful rows is imported, error rows is errors. *)
Theorem completed_session_matches_result
    (w : World DB) (request : Request) (rows : list Row) (uploadData : UploadData) :
  w_tempStorage w !! param_uploadId request = Some uploadData ->
  up_userId uploadData = req_user_id request ->
  let w' := (confirmImport M clock w request rows EndOfStream).2 in
  exists s r,
    importSessions (w_service w') !! param_uploadId request = Some s /\
    status s = Completed /\ result_ s = Some r /\
    r_total r = Some (processedRows s) /\
    r_imported r = Some (successfulRows s) /\
    r_errors r = Some (errorRows s) /\
    processedRows s = Z.of_nat (length rows).
Proof.
  intros Hup Hown w'. subst w'.
  destruct (confirmImport_authorized w request rows EndOfStream uploadData
              Hup Hown) as [Hw _]. cbn zeta in Hw. rewrite Hw. clear Hw.
  cbn [w_service]. unfold processImportWithStreaming.
  set (id := param_uploadId request).
  set (svc1 := (startImportSession clock id (req_user_id request)
                  (pv_totalRows (up_preview uploadData)) (up_filename uploadData)
                  (w_service w)).2).
  assert (Hs1 : is_Some (importSessions svc1 !! id)).
  { subst svc1. rewrite startImportSession_sessions, lookup_insert_eq. eauto. }
  set (st0 := foldl _ (initial_state (w_db w)) rows).
  pose proof (fold_count M uploadData
                (default (pv_mapping (up_preview uploadData)) (body_mapping request))
                (default ∅ (body_categoryMapping request))
                (req_user_id request) id rows (initial_state (w_db w))) as Hcount.
  fold st0 in Hcount. cbn [initial_state processedCount] in Hcount.
  clearbody st0 svc1.
  destruct (finish_calls M id st0) as (es & _ & Hcalls & _ & _).
  destruct (finish_result M id st0) as (Hsucc & Hi & He & Ht & _).
  destruct (finish M id st0) as [r st'] eqn:Hfin. cbn [fst snd] in *.
  rewrite Hcalls, app_assoc, run_calls_snoc. cbn [run_call].
  destruct (run_calls_keep clock id (calls st0 ++ es) svc1 Hs1) as [s2 Hs2].
  assert (Hs3 : importSessions
                  (updateProgress clock id
                     {| u_processedRows := Some (processedCount st0);
                        u_successfulRows := Some (successfulCount st');
                        u_errorRows := Some (errorCount st');
                        u_currentBatch := None;
                        u_status := Some Finalizing |}
                     (run_calls clock (calls st0 ++ es) svc1)) !! id
                = Some (recompute (clock (ticks (run_calls clock (calls st0 ++ es) svc1)))
                          (assign s2
                             {| u_processedRows := Some (processedCount st0);
                                u_successfulRows := Some (successfulCount st');
                                u_errorRows := Some (errorCount st');
                                u_currentBatch := None;
                                u_status := Some Finalizing |}))).
  { rewrite (updateProgress_sessions clock _ _ _ _ Hs2). apply lookup_insert_eq. }
  eexists _, r. rewrite (complete_session _ _ _ _ Hs3). rewrite Hsucc. cbn.
  rewrite Hi, He, Ht. repeat split; try reflexivity. cbn. lia.
Qed.

(** X14: a confirmation for an unknown upload (404) or for an upload of
    another owner (403) leaves the upload store, the sessions and the bills
    untouched. A confirmation by the owner is answered 200 as soon as the
    session is registered, and the upload stays staged while the detached
    import runs: a second confirmation in that window is accepted again and
    registers the session anew. The upload is forgotten only when the
    import ends; from then on the preview and a confirmation of the same
    upload are answered 404 and change nothing. *)
Theorem confirm_consumes_the_upload
    (w : World DB) (request : Request) (rows : list Row) (ending : StreamEnd) :
  (w_tempStorage w !! param_uploadId request = None ->
   confirmImport M clock w request rows ending =
     ({| status_code := 404;
         body := ErrorBody "Upload não encontrado ou expirado" |}, w)) /\
  (forall uploadData,
     w_tempStorage w !! param_uploadId request = Some uploadData ->
     up_userId uploadData <> req_user_id request ->
     confirmImport M clock w request rows ending =
       ({| status_code := 403; body := ErrorBody "Não autorizado" |}, w)) /\
  (forall uploadData,
     w_tempStorage w !! param_uploadId request = Some uploadData ->
     up_userId uploadData = req_user_id request ->
     let replied := confirm_reply clock w request in
     let again := confirm_reply clock replied.2 request in
     let w' := detached_import M clock uploadData request rows ending replied.2 in
     confirmImport M clock w request rows ending = (replied.1, w') /\
     status_code replied.1 = 200 /\
     w_tempStorage replied.2 = w_tempStorage w /\
     w_db replied.2 = w_db w /\
     status_code again.1 = 200 /\
     (exists s,
        importSessions (w_service again.2) !! param_uploadId request = Some s /\
        status s = Processing /\ processedRows s = 0 /\
        startTime s = clock (ticks (w_service replied.2))) /\
     w_tempStorage w' !! param_uploadId request = None /\
     status_code (getPreview (w_tempStorage w') request) = 404 /\
     confirm_reply clock w' request =
       ({| status_code := 404;
           body := ErrorBody "Upload não encontrado ou expirado" |}, w') /\
     forall rows' ending',
       confirmImport M clock w' request rows' ending' =
         ({| status_code := 404;
             body := ErrorBody "Upload não encontrado ou expirado" |}, w')).
Proof.
  split; [|split].
  - intros Hup. unfold confirmImport. now rewrite Hup.
  - intros uploadData Hup Hne. unfold confirmImport. rewrite Hup.
    apply String.eqb_neq in Hne. now rewrite Hne.
  - intros uploadData Hup Hown replied again w'.
    assert (Hreplied : replied =
              ({| status_code := 200;
                  body := ConfirmBody true
                    "Importação iniciada. Acompanhe o progresso em tempo real."
                    (param_uploadId request)
                    (StreamingService.uploadId
                       (startImportSession clock (param_uploadId request)
                          (req_user_id request) (pv_totalRows (up_preview uploadData))
                          (up_filename uploadData) (w_service w)).1) |},
               {| w_tempStorage := w_tempStorage w;
                  w_service :=
                    (startImportSession clock (param_uploadId request)
                       (req_user_id request) (pv_totalRows (up_preview uploadData))
                       (up_filename uploadData) (w_service w)).2;
                  w_db := w_db w |})).
    { subst replied. unfold confirm_reply. rewrite Hup, Hown, String.eqb_refl.
      cbn [negb]. now destruct (startImportSession _ _ _ _ _ _). }
    assert (Hup1 : w_tempStorage replied.2 !! param_uploadId request = Some uploadData)
      by now rewrite Hreplied.
    assert (Hnone : w_tempStorage w' !! param_uploadId request = None).
    { subst w'. unfold detached_import.
      destruct (processImportWithStreaming _ _ _ _ _ _ _ _ _) as [outcome st].
      cbn [w_tempStorage]. apply lookup_delete_eq. }
    split; [|split; [|split; [|split; [|split; [|split; [|split; [|split; [|split]]]]]]]].
    + subst w'. rewrite Hreplied. cbn [fst snd].
      unfold confirmImport, detached_import.
      rewrite Hup, Hown, String.eqb_refl. cbn [negb w_service w_db w_tempStorage].
      destruct (startImportSession _ _ _ _ _ _) as [session svc1]. cbn [fst snd].
      destruct (processImportWithStreaming _ _ _ _ _ _ _ _ _) as [outcome st].
      reflexivity.
    + now rewrite Hreplied.
    + now rewrite Hreplied.
    + now rewrite Hreplied.
    + subst again. unfold confirm_reply. rewrite Hup1, Hown, String.eqb_refl.
      cbn [negb]. now destruct (startImportSession _ _ _ _ _ _).
    + subst again. unfold confirm_reply. rewrite Hup1, Hown, String.eqb_refl.
      cbn [negb].
      destruct (startImportSession clock (param_uploadId request) (req_user_id request)
                  (pv_totalRows (up_preview uploadData)) (up_filename uploadData)
                  (w_service replied.2)) as [session svc2] eqn:Hstart.
      cbn [snd w_service]. exists session.
      replace svc2 with (session, svc2).2 by reflexivity.
      replace session with (session, svc2).1 at 2 3 4 5 by reflexivity.
      rewrite <- Hstart. rewrite startImportSession_sessions, lookup_insert_eq.
      repeat split.
    + exact Hnone.
    + unfold getPreview. now rewrite Hnone.
    + unfold confirm_reply. now rewrite Hnone.
    + intros rows' ending'. unfold confirmImport. now rewrite Hnone.
Qed.

(** X15: once a confirmed import has run, to its end or to a stream
    failure, the owner's status request is answered 200 with the session,
    completed or failed, and with the last ten entries of its error log at
    most; the deletion of the session is scheduled. *)
Theorem status_after_import
    (w : World DB) (request : Request) (rows : list Row) (ending : StreamEnd)
    (uploadData : UploadData) :
  w_tempStorage w !! param_uploadId request = Some uploadData ->
  up_userId uploadData = req_user_id request ->
  let w' := (confirmImport M clock w request rows ending).2 in
  exists s lastErrors,
    getImportStatus (w_service w') request =
      {| status_code := 200; body := StatusBody s lastErrors |} /\
    importSessions (w_service w') !! param_uploadId request = Some s /\
    status s = (match ending with EndOfStream => Completed | StreamError _ => Failed end) /\
    lastErrors = lastn 10 (errors s) /\
    (length lastErrors <= 10)%nat /\
    In (param_uploadId request) (timers (w_service w')).
Proof.
  intros Hup Hown w'. subst w'.
  destruct (confirmImport_authorized w request rows ending uploadData
              Hup Hown) as [Hw _]. cbn zeta in Hw. rewrite Hw. clear Hw.
  cbn [w_service].
  set (id := param_uploadId request).
  set (started := startImportSession clock id (req_user_id request)
                    (pv_totalRows (up_preview uploadData)) (up_filename uploadData)
                    (w_service w)).
  assert (Hs1 : importSessions started.2 !! id = Some started.1).
  { subst started. rewrite startImportSession_sessions. apply lookup_insert_eq. }
  set (run := processImportWithStreaming M uploadData _ _ _ id rows ending (w_db w)).
  destruct (run_calls_owner id (calls run.2) _ _ Hs1) as (s2 & Hs2 & Ho2).
  set (result := match run.1 with Ok r => r | Throw m => _ end).
  assert (Hres : r_success result =
                 match ending with EndOfStream => true | StreamError _ => false end).
  { subst result run. unfold processImportWithStreaming.
    destruct ending; [|reflexivity].
    match goal with
    | |- context [finish M id ?st] =>
        destruct (finish_result M id st) as (Hsucc & _);
        destruct (finish M id st) as [r st']
    end. exact Hsucc. }
  pose proof (complete_session id result _ s2 Hs2) as Hs3.
  eexists _, _. unfold getImportStatus, getSessionStatus. cbn zeta.
  fold id. rewrite Hs3.
  assert (Hown2 : userId s2 = req_user_id request) by (rewrite Ho2; reflexivity).
  unfold set_completed at 1. cbn [userId]. rewrite Hown2.
  rewrite String.eqb_refl. cbn [negb].
  split; [reflexivity|]. split; [reflexivity|].
  split; [cbn; rewrite Hres; now destruct ending|].
  split; [reflexivity|].
  split; [rewrite length_drop; lia|].
  unfold completeImportSession. rewrite Hs2. cbn. now left.
Qed.

End ConfirmFacts.

(** ** The session registry *)

Section RegistryFacts.
Variable clock : nat -> Z.

(** X16: a session that started more than one hour ago is swept even while
    its import is running: from then on the tracker calls of that import
    change nothing, the completion is not recorded, and the status
    request is answered 404. The sessions started within the hour stay as
    they were, and so do the subscriptions and the timers. *)
Theorem swept_session_is_forgotten
    (svc : Service) (id : string) (s : Session) (result : ImportResult) :
  importSessions svc !! id = Some s ->
  startTime s < clock (ticks svc) - ONE_HOUR ->
  let svc' := cleanup clock svc in
  importSessions svc' !! id = None /\
  (forall cs : list TrackerCall,
     Forall (fun c => match c with
                      | CallUpdateProgress i _ => i = id
                      | CallAddError i _ _ => i = id
                      end) cs ->
     run_calls clock cs svc' = svc') /\
  completeImportSession clock id result svc' = svc' /\
  (forall request, param_uploadId request = id ->
     status_code (getImportStatus svc' request) = 404) /\
  (forall id' s',
     importSessions svc !! id' = Some s' ->
     clock (ticks svc) - ONE_HOUR <= startTime s' ->
     importSessions svc' !! id' = Some s') /\
  clients svc' = clients svc /\ timers svc' = timers svc.
Proof.
  intros Hs Hold svc'.
  assert (Hnone : importSessions svc' !! id = None).
  { subst svc'. unfold cleanup.
    cbn [importSessions with_sessions tick].
    apply map_lookup_filter_None. right. intros s' Hs'. cbn [snd].
    rewrite Hs in Hs'. injection Hs' as <-. lia. }
  split; [exact Hnone|]. split; [|split; [|split; [|split; [|split]]]].
  - intros cs Hcs. induction Hcs as [|c cs Hc _ IH]; [reflexivity|].
    unfold run_calls in *. cbn [foldl].
    replace (run_call clock svc' c) with svc'; [exact IH|].
    destruct c; subst; cbn [run_call];
      unfold updateProgress, addError; now rewrite Hnone.
  - unfold completeImportSession. now rewrite Hnone.
  - intros request <-. unfold getImportStatus, getSessionStatus. cbn zeta.
    now rewrite Hnone.
  - intros id' s' Hs' Hyoung. subst svc'. unfold cleanup.
    cbn [importSessions with_sessions tick].
    apply map_lookup_filter_Some. split; [assumption|]. cbn [snd]. lia.
  - reflexivity.
  - reflexivity.
Qed.

(** X17: [getUserSessions] lists exactly the registered sessions whose owner
    is the user, each upload id once; a session just started is listed for
    its owner, with the session that was started. *)
Theorem getUserSessions_exact (user : string) (svc : Service) :
  (forall id s,
     In (id, s) (getUserSessions user svc) <->
     importSessions svc !! id = Some s /\ userId s = user) /\
  NoDup (getUserSessions user svc).*1 /\
  (forall id totalRows filename,
     let started := startImportSession clock id user totalRows filename svc in
     In (id, started.1) (getUserSessions user started.2)).
Proof.
  assert (Hin : forall svc0 id s,
     In (id, s) (getUserSessions user svc0) <->
     importSessions svc0 !! id = Some s /\ userId s = user).
  { intros svc0 id s. unfold getUserSessions. rewrite filter_In. cbn [snd].
    rewrite String.eqb_eq, <- list_elem_of_In, elem_of_map_to_list. reflexivity. }
  split; [apply Hin|]. split.
  - unfold getUserSessions.
    pose proof (NoDup_fst_map_to_list (importSessions svc)) as Hnd.
    induction (map_to_list (importSessions svc)) as [|kv l IH]; [constructor|].
    rewrite fmap_cons in Hnd. apply NoDup_cons in Hnd as [Hnotin Hnd].
    cbn [List.filter]. destruct (String.eqb (userId kv.2) user).
    + rewrite fmap_cons. apply NoDup_cons. split; [|now apply IH].
      intros Hx. apply Hnotin.
      apply list_elem_of_fmap in Hx as (x & Hx & Hx').
      apply list_elem_of_In, filter_In in Hx' as [Hx' _].
      apply list_elem_of_fmap. exists x. split; [assumption|].
      now apply list_elem_of_In.
    + now apply IH.
  - intros id totalRows filename started. apply Hin. subst started.
    rewrite startImportSession_sessions. split; [apply lookup_insert_eq|reflexivity].
Qed.

Lemma removeClient_sent ws svc : sent (removeClient ws svc) = sent svc.
Proof.
  unfold removeClient. destruct (ws_userId ws) as [u|]; [|reflexivity].
  destruct (truthy u); [|reflexivity].
  destruct (clients svc !! u) as [set|]; [|reflexivity].
  now destruct (filter _ set).
Qed.

Lemma broadcast_fold_sent message l : forall svc,
  sent (foldl (fun svc ws =>
                 if ws_open ws then
                   if ws_send_throws ws then removeClient ws svc
                   else with_sent svc ((ws_id ws, message) :: sent svc)
                 else svc) svc l)
  = (rev (map (fun ws => (ws_id ws, message))
              (List.filter (fun ws => ws_open ws && negb (ws_send_throws ws)) l))
     ++ sent svc)%list.
Proof.
  induction l as [|ws l IH]; intros svc; [reflexivity|].
  cbn [foldl List.filter]. rewrite IH.
  destruct (ws_open ws); cbn [andb]; [|reflexivity].
  destruct (ws_send_throws ws); cbn [negb].
  - now rewrite removeClient_sent.
  - cbn [map rev with_sent sent]. now rewrite <- app_assoc.
Qed.

Lemma broadcast_fold_clients message l : forall svc,
  Forall (fun ws => ws_open ws = false \/ ws_send_throws ws = false) l ->
  clients (foldl (fun svc ws =>
                 if ws_open ws then
                   if ws_send_throws ws then removeClient ws svc
                   else with_sent svc ((ws_id ws, message) :: sent svc)
                 else svc) svc l)
  = clients svc.
Proof.
  induction l as [|ws l IH]; intros svc Hl; [reflexivity|].
  apply Forall_cons in Hl as [Hws Hl]. cbn [foldl]. rewrite (IH _ Hl).
  destruct Hws as [-> | ->]; [reflexivity|].
  now destruct (ws_open ws).
Qed.

(** X18: [broadcastToUser] delivers the message once to each socket of the
    user that is open and whose [send] succeeds, in the order of the set,
    and to no other; when no open socket fails, the subscriptions are
    left as they were, closed sockets included. *)
Theorem broadcast_reaches_open_sockets (user : string) (message : Message) (svc : Service) :
  sent (broadcastToUser user message svc) =
    (rev (map (fun ws => (ws_id ws, message)) (reachable user svc)) ++ sent svc)%list /\
  (Forall (fun ws => ws_open ws = false \/ ws_send_throws ws = false)
          (default [] (clients svc !! user)) ->
   clients (broadcastToUser user message svc) = clients svc).
Proof.
  unfold broadcastToUser, reachable.
  destruct (clients svc !! user) as [set|]; cbn [default].
  - split; [apply broadcast_fold_sent|apply broadcast_fold_clients].
  - split; reflexivity.
Qed.

(** X19: [removeClient] takes the socket out of the set of the user it is
    tagged with, whether the socket is open or not: the set becomes the
    other sockets in their order, no socket left in it is the removed one,
    the user's entry is deleted when no other socket is left (never an
    empty set), and no other user is touched. [unsubscribeClient] takes
    the socket out in the same way but keeps the user's entry, even when
    the set becomes empty. After either, a broadcast to that user does not
    reach the socket. *)
Theorem socket_removal (ws : WebSocketClient) (u : string) (svc : Service) :
  ws_userId ws = Some u ->
  truthy u = true ->
  ((forall set, clients svc !! u = Some set ->
      clients (removeClient ws svc) !! u =
        match filter (fun w => negb (ws_id w =? ws_id ws)%nat) set with
        | [] => None
        | rest => Some rest
        end) /\
   (clients svc !! u = None -> removeClient ws svc = svc) /\
   (forall set', clients (removeClient ws svc) !! u = Some set' ->
      set' <> [] /\ Forall (fun w => ws_id w <> ws_id ws) set') /\
   (forall set w, clients svc !! u = Some set -> In w set -> ws_id w <> ws_id ws ->
      exists set', clients (removeClient ws svc) !! u = Some set' /\ In w set') /\
   clients (removeClient ws svc) !! u <> Some [] /\
   Forall (fun w => ws_id w <> ws_id ws) (reachable u (removeClient ws svc)) /\
   (forall v, v <> u -> clients (removeClient ws svc) !! v = clients svc !! v)) /\
  (forall set, clients svc !! u = Some set ->
     clients (unsubscribeClient ws u svc) !! u =
       Some (filter (fun w => negb (ws_id w =? ws_id ws)%nat) set)) /\
  (forall set', clients (unsubscribeClient ws u svc) !! u = Some set' ->
     Forall (fun w => ws_id w <> ws_id ws) set') /\
  (forall v, v <> u -> clients (unsubscribeClient ws u svc) !! v = clients svc !! v) /\
  Forall (fun w => ws_id w <> ws_id ws) (reachable u (unsubscribeClient ws u svc)).
Proof.
  intros Hu Ht.
  assert (Hrest : forall set,
            Forall (fun w => ws_id w <> ws_id ws)
                   (filter (fun w => negb (ws_id w =? ws_id ws)%nat) set)).
  { intros set. apply List.Forall_forall. intros w Hin.
    apply list_elem_of_In, list_elem_of_filter in Hin as [Hin _].
    apply Is_true_true, negb_true_iff, Nat.eqb_neq in Hin. exact Hin. }
  assert (Hkeep : forall set w, In w set -> ws_id w <> ws_id ws ->
            In w (filter (fun w => negb (ws_id w =? ws_id ws)%nat) set)).
  { intros set w Hin Hne. apply list_elem_of_In, list_elem_of_filter.
    split; [|now apply list_elem_of_In].
    apply Is_true_true, negb_true_iff, Nat.eqb_neq. exact Hne. }
  assert (Hreach : forall set,
            Forall (fun w => ws_id w <> ws_id ws) set ->
            Forall (fun w => ws_id w <> ws_id ws)
                   (List.filter (fun w => ws_open w && negb (ws_send_throws w)) set)).
  { intros set Hset. apply List.Forall_forall. intros w Hin.
    apply filter_In in Hin as [Hin _].
    revert w Hin. now apply List.Forall_forall. }
  assert (Hremove : forall set, clients svc !! u = Some set ->
            clients (removeClient ws svc) !! u =
              match filter (fun w => negb (ws_id w =? ws_id ws)%nat) set with
              | [] => None
              | rest => Some rest
              end).
  { intros set Hset. unfold removeClient. rewrite Hu, Ht, Hset.
    destruct (filter (fun w => negb (ws_id w =? ws_id ws)%nat) set) as [|w rest];
      cbn [clients with_clients];
      [apply lookup_delete_eq | apply lookup_insert_eq]. }
  assert (Hsame : clients svc !! u = None -> removeClient ws svc = svc).
  { intros Hnone. unfold removeClient. now rewrite Hu, Ht, Hnone. }
  assert (Hafter : forall set', clients (removeClient ws svc) !! u = Some set' ->
            set' <> [] /\ Forall (fun w => ws_id w <> ws_id ws) set').
  { intros set' H. destruct (clients svc !! u) as [set|] eqn:Hset.
    - rewrite (Hremove set eq_refl) in H. specialize (Hrest set).
      destruct (filter (fun w => negb (ws_id w =? ws_id ws)%nat) set) as [|w rest];
        [discriminate|]. injection H as <-. split; [discriminate|exact Hrest].
    - rewrite (Hsame eq_refl), Hset in H. discriminate. }
  split; [split; [exact Hremove|]; split; [exact Hsame|]; split; [exact Hafter|];
          split; [|split; [|split]]|].
  - intros set w Hset Hin Hne. rewrite (Hremove set Hset).
    pose proof (Hkeep set w Hin Hne) as Hk.
    destruct (filter (fun w => negb (ws_id w =? ws_id ws)%nat) set) as [|w0 rest];
      [destruct Hk|]. eauto.
  - intros H. now destruct (Hafter [] H).
  - unfold reachable.
    destruct (clients (removeClient ws svc) !! u) as [set'|] eqn:H; cbn [default];
      [|constructor].
    apply Hreach. now destruct (Hafter set' eq_refl).
  - intros v Hv. unfold removeClient. rewrite Hu, Ht.
    destruct (clients svc !! u) as [set|]; [|reflexivity].
    destruct (filter (fun w => negb (ws_id w =? ws_id ws)%nat) set) as [|w rest];
      cbn [clients with_clients];
      [now rewrite lookup_delete_ne | now rewrite lookup_insert_ne].
  - assert (Hunsub : forall set, clients svc !! u = Some set ->
              clients (unsubscribeClient ws u svc) !! u =
                Some (filter (fun w => negb (ws_id w =? ws_id ws)%nat) set)).
    { intros set Hset. unfold unsubscribeClient. rewrite Hset.
      cbn [clients with_clients]. apply lookup_insert_eq. }
    assert (Hafter' : forall set',
              clients (unsubscribeClient ws u svc) !! u = Some set' ->
              Forall (fun w => ws_id w <> ws_id ws) set').
    { intros set' H. destruct (clients svc !! u) as [set|] eqn:Hset.
      - rewrite (Hunsub set eq_refl) in H. injection H as <-. apply Hrest.
      - unfold unsubscribeClient in H. rewrite Hset in H. congruence. }
    split; [exact Hunsub|]. split; [exact Hafter'|]. split.
    + intros v Hv. unfold unsubscribeClient.
      destruct (clients svc !! u) as [set|]; [|reflexivity].
      cbn [clients with_clients]. now rewrite lookup_insert_ne.
    + unfold reachable.
      destruct (clients (unsubscribeClient ws u svc) !! u) as [set'|] eqn:H;
        cbn [default]; [|constructor].
      apply Hreach. now apply Hafter'.
Qed.

(** X20: the counter of failed rows is not capped with the log: [addError]
    called once for each entry of [log] raises [errorRows] by the number
    of calls and leaves the counts of processed and saved rows alone. *)
Theorem errorRows_counts_every_error (log : list (string * option Z)) :
  forall (id : string) (svc : Service) (s : Session),
  importSessions svc !! id = Some s ->
  exists s',
    importSessions (add_errors clock id log svc) !! id = Some s' /\
    errorRows s' = errorRows s + Z.of_nat (length log) /\
    processedRows s' = processedRows s /\
    successfulRows s' = successfulRows s /\
    userId s' = userId s.
Proof.
  induction log as [|[e r] log IH]; intros id svc s Hs.
  - exists s. cbn. repeat split; [assumption|lia].
  - unfold add_errors in *. cbn [foldl fst snd].
    assert (Hs1 : exists s1,
              importSessions (addError clock id e r svc) !! id = Some s1 /\
              errorRows s1 = errorRows s + 1 /\
              processedRows s1 = processedRows s /\
              successfulRows s1 = successfulRows s /\
              userId s1 = userId s).
    { rewrite (addError_sessions clock _ _ _ _ _ Hs), lookup_insert_eq.
      eexists. split; [reflexivity|]. cbn. repeat split. }
    destruct Hs1 as (s1 & Hs1 & He1 & Hp1 & Hsu1 & Hu1).
    destruct (IH id _ s1 Hs1) as (s' & Hs' & He' & Hp' & Hsu' & Hu').
    exists s'. split; [exact Hs'|].
    cbn [length]. repeat split; try congruence. lia.
Qed.

End RegistryFacts.

(** ** The upload store *)

(** X21: [cleanupOldUploads] keeps exactly the uploads created no more than
    one hour before now; an upload that was swept is answered 404 by the
    preview and by the confirmation, which then starts nothing. *)
Theorem swept_upload_is_gone {DB Doc : Type} (M : Model DB Doc) (clock : nat -> Z)
    (now : Z) (w : World DB) (request : Request) (rows : list Row) (ending : StreamEnd) :
  let storage := cleanupOldUploads now (w_tempStorage w) in
  let w' := {| w_tempStorage := storage; w_service := w_service w; w_db := w_db w |} in
  (forall id u,
     storage !! id = Some u <->
     w_tempStorage w !! id = Some u /\ now - 60 * 60 * 1000 <= up_createdAt u) /\
  (forall u,
     w_tempStorage w !! param_uploadId request = Some u ->
     up_createdAt u < now - 60 * 60 * 1000 ->
     status_code (getPreview storage request) = 404 /\
     status_code (confirmImport M clock w' request rows ending).1 = 404 /\
     (confirmImport M clock w' request rows ending).2 = w').
Proof.
  intros storage w'.
  assert (Hiff : forall id u,
     storage !! id = Some u <->
     w_tempStorage w !! id = Some u /\ now - 60 * 60 * 1000 <= up_createdAt u).
  { intros id u. subst storage. unfold cleanupOldUploads. cbn zeta.
    rewrite map_lookup_filter_Some. cbn [snd]. split.
    - intros [H1 H2]. split; [assumption|lia].
    - intros [H1 H2]. split; [assumption|lia]. }
  split; [exact Hiff|].
  intros u Hu Hold.
  assert (Hnone : storage !! param_uploadId request = None).
  { destruct (storage !! param_uploadId request) as [u'|] eqn:E; [|reflexivity].
    apply Hiff in E as [E1 E2]. rewrite Hu in E1. injection E1 as <-. lia. }
  unfold getPreview, confirmImport. cbn zeta.
  subst w'. cbn [w_tempStorage]. rewrite Hnone. repeat split.
Qed.

(** ** The monthly bills *)

Section MonthlyFacts.
Context {DB Doc : Type} (M : Model DB Doc).
Variables (endOfLastMonth : jsdate) (owner : ObjectId).

Lemma installments_parts k n :
  all_digits k = true -> k <> "" -> all_digits n = true -> n <> "" ->
  parseInt_part (split "/" (k ++ "/" ++ n) !! 0%nat) = Some (digits_val k) /\
  parseInt_part (split "/" (k ++ "/" ++ n) !! 1%nat) = Some (digits_val n).
Proof.
  intros Hk Hk0 Hn Hn0.
  rewrite app_cons, app_nil, split_app_sep by now apply digits_no_slash.
  rewrite split_no_sep by now apply digits_no_slash.
  cbn [lookup list_lookup parseInt_part mbind option_bind].
  now rewrite !parseInt_digits.
Qed.

(** X23: a repeated bill whose installments read k/n, two numbers of at
    most fifteen digits, is left out when k and n are the same number, and is otherwise
    copied to the end of last month with installments (k+1)/n in plain
    decimal, name, value, category, type and payment type unchanged: also
    when k is already larger than n. A bill that is not repeated is copied
    with its installments as they are. The counters of an earlier bill never
    reach the next one. *)
Theorem installments_roll_forward (bill : Transaction) (parcel totalParcel : option Z) :
  (forall k n,
     repeat bill = true ->
     installments bill = k ++ "/" ++ n ->
     all_digits k = true -> k <> "" -> all_digits n = true -> n <> "" ->
     (String.length k <= 15)%nat -> (String.length n <= 15)%nat ->
     match (next_bill endOfLastMonth owner bill parcel totalParcel).2 with
     | None => digits_val k = digits_val n
     | Some data =>
         digits_val k <> digits_val n /\
         installments data = pretty (digits_val k + 1) ++ "/" ++ pretty (digits_val n) /\
         repeat data = true
     end) /\
  (repeat bill = false ->
   exists data,
     (next_bill endOfLastMonth owner bill parcel totalParcel).2 = Some data /\
     installments data = installments bill /\ repeat data = false) /\
  (forall data,
     (next_bill endOfLastMonth owner bill parcel totalParcel).2 = Some data ->
     bill_name data = bill_name bill /\ bill_value data = bill_value bill /\
     bill_category data = bill_category bill /\ bill_type data = bill_type bill /\
     payment_type data = payment_type bill /\ fixed data = fixed bill /\
     buy_date data = Some endOfLastMonth /\ user_id data = owner) /\
  (forall parcel' totalParcel',
     (next_bill endOfLastMonth owner bill parcel' totalParcel').2 =
     (next_bill endOfLastMonth owner bill parcel totalParcel).2).
Proof.
  split; [|split; [|split]].
  - intros k n Hr Hi Hk Hk0 Hn Hn0 _ _. unfold next_bill. rewrite Hr, Hi.
    destruct (installments_parts k n Hk Hk0 Hn Hn0) as [-> ->].
    cbn [andb loose_eq]. destruct (Z.eqb_spec (digits_val k) (digits_val n)).
    + cbn [snd]. assumption.
    + cbn [snd installments repeat show succ_number option_map].
      split; [assumption|]. split; reflexivity.
  - intros Hr. unfold next_bill. rewrite Hr. cbn [andb snd].
    eexists. split; [reflexivity|]. cbn [installments repeat].
    split; reflexivity.
  - intros data. unfold next_bill.
    destruct (repeat bill);
      [destruct (loose_eq _ _)|]; cbn [andb snd]; try discriminate;
      intros [= <-]; cbn; repeat split.
  - intros parcel' totalParcel'. unfold next_bill.
    destruct (repeat bill); [reflexivity|]. cbn [andb snd]. reflexivity.
Qed.

Lemma next_bill_finished bill parcel totalParcel :
  (next_bill endOfLastMonth owner bill parcel totalParcel).2 = None <->
  finished bill = true.
Proof.
  unfold next_bill, finished. destruct (repeat bill); cbn [andb].
  - destruct (loose_eq _ _); cbn [snd]; split; congruence.
  - cbn [snd]. split; discriminate.
Qed.

Lemma monthly_loop_count (bills : list Transaction) :
  (forall db t, exists db' d, create M db t = (db', inr d)) ->
  forall parcel totalParcel db acc,
  exists db' data,
    monthly_loop M endOfLastMonth owner bills parcel totalParcel db acc
      = (db', inr data) /\
    length data =
      (length acc + length (List.filter (fun b => negb (finished b)) bills))%nat.
Proof.
  intros Hcreate. induction bills as [|bill bills IH]; intros parcel totalParcel db acc.
  - exists db, acc. split; [reflexivity|]. cbn. lia.
  - cbn [monthly_loop List.filter].
    pose proof (next_bill_finished bill parcel totalParcel) as Hf.
    destruct (next_bill endOfLastMonth owner bill parcel totalParcel)
      as [[p t] [data|]]; cbn [snd] in Hf.
    + assert (Hnf : finished bill = false).
      { destruct (finished bill); [|reflexivity].
        destruct Hf as [_ Hf]. discriminate (Hf eq_refl). }
      rewrite Hnf. cbn [negb length].
      destruct (Hcreate db data) as (db1 & d & ->).
      destruct (IH p t db1 (acc ++ [d])%list) as (db' & out & -> & Hlen).
      exists db', out. split; [reflexivity|].
      rewrite Hlen, length_app. cbn [length]. lia.
    + rewrite (proj1 Hf eq_refl). cbn [negb]. apply IH.
Qed.

Lemma monthly_loop_bound (bills : list Transaction) :
  forall parcel totalParcel db acc,
  match (monthly_loop M endOfLastMonth owner bills parcel totalParcel db acc).2 with
  | inr data => (length data <= length acc + length bills)%nat
  | inl _ => True
  end.
Proof.
  induction bills as [|bill bills IH]; intros parcel totalParcel db acc.
  - cbn. lia.
  - cbn [monthly_loop].
    destruct (next_bill endOfLastMonth owner bill parcel totalParcel)
      as [[p t] [data|]].
    + destruct (create M db data) as [db1 [e|d]]; [exact I|].
      specialize (IH p t db1 (acc ++ [d])%list).
      destruct (monthly_loop _ _ _ _ _ _ _ _).2; [exact I|].
      rewrite length_app in IH. cbn [length] in *. lia.
    + specialize (IH p t db acc).
      destruct (monthly_loop _ _ _ _ _ _ _ _).2; [exact I|].
      cbn [length]. lia.
Qed.

(** X24: [createMonthlyBills] answers 404 when the query fails, without
    touching the store; it never answers more bills than the query found;
    and when the store rejects nothing and the repeated bills found have
    their installments written k/n, it answers 200 with one bill for each
    bill found that is not a finished installment plan. *)
Theorem monthly_bills_created (found : Thrown + list Transaction) (db : DB) :
  (forall error, found = inl error ->
     createMonthlyBills M endOfLastMonth owner found db = (db, MonthlyFailed error)) /\
  (forall bills data, found = inr bills ->
     (createMonthlyBills M endOfLastMonth owner found db).2 = MonthlyCreated data ->
     (length data <= length bills)%nat) /\
  (forall bills, found = inr bills ->
     (forall db t, exists db' d, create M db t = (db', inr d)) ->
     Forall (fun b => repeat b = true -> written_k_of_n (installments b) = true)
            bills ->
     exists data,
       (createMonthlyBills M endOfLastMonth owner found db).2 = MonthlyCreated data /\
       length data = length (List.filter (fun b => negb (finished b)) bills)).
Proof.
  split; [|split].
  - intros error ->. reflexivity.
  - intros bills data -> H. unfold createMonthlyBills in H.
    pose proof (monthly_loop_bound bills (Some 0) (Some 0) db []) as Hb.
    destruct (monthly_loop _ _ _ _ _ _ _ _) as [db' [e|out]];
      cbn [snd] in *; [discriminate|].
    injection H as <-. cbn [length] in Hb. lia.
  - intros bills -> Hcreate _. unfold createMonthlyBills.
    destruct (monthly_loop_count bills Hcreate (Some 0) (Some 0) db [])
      as (db' & data & -> & Hlen).
    exists data. split; [reflexivity|]. rewrite Hlen. reflexivity.
Qed.

End MonthlyFacts.

(** ** The properties on the example data *)

Import Scenarios.

Lemma insert_each_saved batch : forall db,
  (length (MemoryStore.insert_each db batch).1.2 <= length batch)%nat.
Proof.
  induction batch as [|t batch IH]; intros db; [cbn; lia|].
  cbn [MemoryStore.insert_each]. destruct (MemoryStore.taken db t).
  - specialize (IH db).
    destruct (MemoryStore.insert_each db batch) as [[db' saved] c].
    cbn [fst snd length] in *. lia.
  - specialize (IH (db ++ [t])%list).
    destruct (MemoryStore.insert_each (db ++ [t]) batch) as [[db' saved] c].
    cbn [fst snd length] in *. lia.
Qed.

Lemma memory_store_bounded : bounded_bulk MemoryStore.model.
Proof.
  intros db batch. cbn [insertMany MemoryStore.model].
  pose proof (insert_each_saved batch db) as H.
  destruct (MemoryStore.insert_each db batch) as [[db' saved] c].
  destruct c; [exact I | exact H].
Qed.

Lemma generated_mapping_defaults_witness :
  GenericCsv <> GbmoneyCsv /\
  exists t,
    mapRowToTransaction row_market (generateColumnMapping headers GenericCsv) ∅ "alice"
      = Ok t /\
    payment_type t = "Nubank" /\ installments t = "1/1" /\
    repeat t = false /\ fixed t = false.
Proof.
  assert (H1 : GenericCsv <> GbmoneyCsv) by discriminate.
  split; [exact H1|].
  destruct (mapRowToTransaction row_market (generateColumnMapping headers GenericCsv)
              ∅ "alice") as [t|m] eqn:E.
  - exists t. split; [reflexivity|].
    exact (generated_mapping_defaults headers GenericCsv row_market ∅ "alice" t H1 E).
  - vm_compute in E. discriminate.
Defined.

Lemma preprocess_without_header_witness :
  Forall (fun l => includes header_phrase (trim l) = false) (split newline bank_text) /\
  preprocessGBMoneyCSV bank_text = "".
Proof.
  assert (H : Forall (fun l => includes header_phrase (trim l) = false)
                     (split newline bank_text))
    by (vm_compute; repeat constructor).
  split; [exact H|].
  exact (preprocess_without_header_is_empty bank_text H).
Defined.

Lemma generic_row_valid_witness :
  GenericCsv <> GbmoneyCsv /\
  (isValidDataRow row_blank GenericCsv = true <->
   exists column value, row_blank !! column = Some value /\ trim value <> "").
Proof.
  assert (H : GenericCsv <> GbmoneyCsv) by discriminate.
  split; [exact H|].
  exact (generic_row_valid_iff_some_cell row_blank GenericCsv H).
Defined.

Lemma record_invariant_witness :
  exists t,
    mapRowToTransaction row_refund mapping ∅ "alice" = Ok t /\
    nonnegative (bill_value t) /\
    (bill_type t = "income" \/ bill_type t = "expense") /\
    bill_category t <> Some "" /\
    payment_type t <> "" /\ installments t <> "" /\
    (validateTransaction t = true ->
     (exists date, buy_date t = Some date) /\ trim (bill_name t) <> "").
Proof.
  destruct (mapRowToTransaction row_refund mapping ∅ "alice") as [t|m] eqn:E.
  - exists t. split; [reflexivity|].
    exact (record_invariant row_refund mapping ∅ "alice" t E).
  - vm_compute in E. discriminate.
Defined.

Lemma four_digit_year_witness :
  all_digits "15" = true /\ all_digits "03" = true /\ all_digits "2024" = true /\
  (1 <= String.length "15" <= 2)%nat /\ (1 <= String.length "03" <= 2)%nat /\
  String.length "2024" = 4%nat /\
  1 <= digits_val "03" <= 12 /\
  1 <= digits_val "15" <= 31 /\
  exists date,
    parseDate (Some ("15" ++ "/" ++ "03" ++ "/" ++ "2024")) = Ok (Some date) /\
    getFullYear date =
      Some (if digits_val "2024" <=? 99 then 1900 + digits_val "2024"
            else digits_val "2024").
Proof.
  assert (H4 : (1 <= String.length "15" <= 2)%nat) by (simpl; lia).
  assert (H5 : (1 <= String.length "03" <= 2)%nat) by (simpl; lia).
  assert (H7 : 1 <= digits_val "03" <= 12) by (vm_compute; split; discriminate).
  assert (H8 : 1 <= digits_val "15" <= 31) by (vm_compute; split; discriminate).
  repeat (split; [first [reflexivity | assumption]|]).
  exact (parseDate_four_digit_year "15" "03" "2024" eq_refl eq_refl eq_refl
           H4 H5 eq_refl H7 H8).
Defined.

Lemma import_accounts_witness :
  bounded_bulk MemoryStore.model /\
  exists r imported errors,
    (processImportWithStreaming MemoryStore.model upload mapping ∅ "alice" "u1"
                                file_rows EndOfStream []).1 = Ok r /\
    r_total r = Some (Z.of_nat (length file_rows)) /\
    r_imported r = Some imported /\ r_errors r = Some errors /\
    0 <= imported /\ 0 <= errors /\
    imported + errors = valid_rows (pv_type (up_preview upload)) file_rows.
Proof.
  split; [exact memory_store_bounded|].
  exact (import_accounts_for_every_valid_row MemoryStore.model upload mapping ∅
           "alice" "u1" file_rows [] memory_store_bounded).
Defined.

Lemma stream_error_witness :
  w_tempStorage world0 !! param_uploadId (request_of "alice") = Some upload /\
  up_userId upload = req_user_id (request_of "alice") /\
  let w' := (confirmImport MemoryStore.model clock world0 (request_of "alice")
               file_rows (StreamError "EIO: i/o error, read")).2 in
  (exists s r,
     importSessions (w_service w') !! param_uploadId (request_of "alice") = Some s /\
     status s = Failed /\ result_ s = Some r /\
     r_success r = false /\ r_error r = Some "EIO: i/o error, read") /\
  w_tempStorage w' !! param_uploadId (request_of "alice") = None /\
  w_db w' =
    db (foldl (transform MemoryStore.model upload
                 (default (pv_mapping (up_preview upload))
                          (body_mapping (request_of "alice")))
                 (default ∅ (body_categoryMapping (request_of "alice")))
                 (req_user_id (request_of "alice"))
                 (param_uploadId (request_of "alice")))
              (initial_state (w_db world0)) file_rows).
Proof.
  assert (H1 : w_tempStorage world0 !! param_uploadId (request_of "alice") = Some upload)
    by (vm_compute; reflexivity).
  assert (H2 : up_userId upload = req_user_id (request_of "alice")) by reflexivity.
  split; [exact H1|]. split; [exact H2|].
  exact (stream_error_fails_the_session MemoryStore.model clock world0
           (request_of "alice") file_rows "EIO: i/o error, read" upload H1 H2).
Defined.

Lemma completed_session_witness :
  w_tempStorage world0 !! param_uploadId (request_of "alice") = Some upload /\
  up_userId upload = req_user_id (request_of "alice") /\
  let w' := (confirmImport MemoryStore.model clock world0 (request_of "alice")
               file_rows EndOfStream).2 in
  exists s r,
    importSessions (w_service w') !! param_uploadId (request_of "alice") = Some s /\
    status s = Completed /\ result_ s = Some r /\
    r_total r = Some (processedRows s) /\
    r_imported r = Some (successfulRows s) /\
    r_errors r = Some (errorRows s) /\
    processedRows s = Z.of_nat (length file_rows).
Proof.
  assert (H1 : w_tempStorage world0 !! param_uploadId (request_of "alice") = Some upload)
    by (vm_compute; reflexivity).
  assert (H2 : up_userId upload = req_user_id (request_of "alice")) by reflexivity.
  split; [exact H1|]. split; [exact H2|].
  exact (completed_session_matches_result MemoryStore.model clock world0
           (request_of "alice") file_rows upload H1 H2).
Defined.

Lemma confirm_consumes_witness :
  w_tempStorage world0 !! param_uploadId (request_of "alice") = Some upload /\
  up_userId upload = req_user_id (request_of "alice") /\
  let replied := confirm_reply clock world0 (request_of "alice") in
  let again := confirm_reply clock replied.2 (request_of "alice") in
  let w' := detached_import MemoryStore.model clock upload (request_of "alice")
              file_rows EndOfStream replied.2 in
  confirmImport MemoryStore.model clock world0 (request_of "alice") file_rows EndOfStream
    = (replied.1, w') /\
  status_code replied.1 = 200 /\
  w_tempStorage replied.2 = w_tempStorage world0 /\
  w_db replied.2 = w_db world0 /\
  status_code again.1 = 200 /\
  (exists s,
     importSessions (w_service again.2) !! param_uploadId (request_of "alice") = Some s /\
     status s = Processing /\ processedRows s = 0 /\
     startTime s = clock (ticks (w_service replied.2))) /\
  w_tempStorage w' !! param_uploadId (request_of "alice") = None /\
  status_code (getPreview (w_tempStorage w') (request_of "alice")) = 404 /\
  confirm_reply clock w' (request_of "alice") =
    ({| status_code := 404;
        body := ErrorBody "Upload não encontrado ou expirado" |}, w') /\
  forall rows' ending',
    confirmImport MemoryStore.model clock w' (request_of "alice") rows' ending' =
      ({| status_code := 404;
          body := ErrorBody "Upload não encontrado ou expirado" |}, w').
Proof.
  assert (H1 : w_tempStorage world0 !! param_uploadId (request_of "alice") = Some upload)
    by (vm_compute; reflexivity).
  assert (H2 : up_userId upload = req_user_id (request_of "alice")) by reflexivity.
  split; [exact H1|]. split; [exact H2|].
  exact (proj2 (proj2 (confirm_consumes_the_upload MemoryStore.model clock world0
                         (request_of "alice") file_rows EndOfStream))
               upload H1 H2).
Defined.

Lemma status_after_import_witness :
  w_tempStorage world0 !! param_uploadId (request_of "alice") = Some upload /\
  up_userId upload = req_user_id (request_of "alice") /\
  let w' := (confirmImport MemoryStore.model clock world0 (request_of "alice")
               file_rows EndOfStream).2 in
  exists s lastErrors,
    getImportStatus (w_service w') (request_of "alice") =
      {| status_code := 200; body := StatusBody s lastErrors |} /\
    importSessions (w_service w') !! param_uploadId (request_of "alice") = Some s /\
    status s = Completed /\
    lastErrors = lastn 10 (errors s) /\
    (length lastErrors <= 10)%nat /\
    In (param_uploadId (request_of "alice")) (timers (w_service w')).
Proof.
  assert (H1 : w_tempStorage world0 !! param_uploadId (request_of "alice") = Some upload)
    by (vm_compute; reflexivity).
  assert (H2 : up_userId upload = req_user_id (request_of "alice")) by reflexivity.
  split; [exact H1|]. split; [exact H2|].
  exact (status_after_import MemoryStore.model clock world0 (request_of "alice")
           file_rows EndOfStream upload H1 H2).
Defined.

Lemma swept_session_witness :
  let result := {| r_success := true; r_imported := Some 0; r_errors := Some 0;
                   r_total := Some 0; r_message := None; r_error := None |} in
  importSessions (service_with_errors 3) !! "u1" = Some (session_with_errors 3) /\
  startTime (session_with_errors 3)
    < late_clock (ticks (service_with_errors 3)) - ONE_HOUR /\
  status (session_with_errors 3) = Processing /\
  let svc' := cleanup late_clock (service_with_errors 3) in
  importSessions svc' !! "u1" = None /\
  (forall cs : list TrackerCall,
     Forall (fun c => match c with
                      | CallUpdateProgress i _ => i = "u1"
                      | CallAddError i _ _ => i = "u1"
                      end) cs ->
     run_calls late_clock cs svc' = svc') /\
  completeImportSession late_clock "u1" result svc' = svc' /\
  (forall request, param_uploadId request = "u1" ->
     status_code (getImportStatus svc' request) = 404) /\
  (forall id' s',
     importSessions (service_with_errors 3) !! id' = Some s' ->
     late_clock (ticks (service_with_errors 3)) - ONE_HOUR <= startTime s' ->
     importSessions svc' !! id' = Some s') /\
  clients svc' = clients (service_with_errors 3) /\
  timers svc' = timers (service_with_errors 3).
Proof.
  intros result.
  assert (H1 : importSessions (service_with_errors 3) !! "u1"
               = Some (session_with_errors 3)) by (vm_compute; reflexivity).
  assert (H2 : startTime (session_with_errors 3)
               < late_clock (ticks (service_with_errors 3)) - ONE_HOUR)
    by (vm_compute; reflexivity).
  split; [exact H1|]. split; [exact H2|]. split; [reflexivity|].
  exact (swept_session_is_forgotten late_clock (service_with_errors 3) "u1"
           (session_with_errors 3) result H1 H2).
Defined.

Lemma broadcast_witness :
  Forall (fun ws => ws_open ws = false \/ ws_send_throws ws = false)
         (default [] (clients service_two_sockets !! "alice")) /\
  sent (broadcastToUser "alice" started_message service_two_sockets)
    = [(1%nat, started_message)] /\
  clients (broadcastToUser "alice" started_message service_two_sockets)
    = clients service_two_sockets.
Proof.
  assert (H : Forall (fun ws => ws_open ws = false \/ ws_send_throws ws = false)
                     (default [] (clients service_two_sockets !! "alice")))
    by (vm_compute; repeat constructor; auto).
  split; [exact H|]. split.
  - rewrite (proj1 (broadcast_reaches_open_sockets "alice" started_message
                      service_two_sockets)).
    vm_compute. reflexivity.
  - exact (proj2 (broadcast_reaches_open_sockets "alice" started_message
                    service_two_sockets) H).
Defined.

Lemma socket_removal_witness :
  ws_userId closed_socket = Some "alice" /\ truthy "alice" = true /\
  clients (removeClient closed_socket service_two_sockets) !! "alice" = Some [socket] /\
  Forall (fun w => ws_id w <> ws_id closed_socket)
         (reachable "alice" (unsubscribeClient closed_socket "alice" service_two_sockets)).
Proof.
  split; [reflexivity|]. split; [reflexivity|].
  pose proof (socket_removal closed_socket "alice" service_two_sockets eq_refl eq_refl)
    as [[Hremove _] (_ & _ & _ & Hreach)].
  split; [|exact Hreach].
  rewrite (Hremove [socket; closed_socket]) by (vm_compute; reflexivity).
  vm_compute. reflexivity.
Defined.

Lemma errorRows_witness :
  let log := [("Valor inválido: abc", Some 101); ("Erro crítico no lote: x", None)] in
  importSessions (service_with_errors 100) !! "u1" = Some (session_with_errors 100) /\
  exists s',
    importSessions (add_errors clock "u1" log (service_with_errors 100)) !! "u1"
      = Some s' /\
    errorRows s' = errorRows (session_with_errors 100) + Z.of_nat (length log) /\
    processedRows s' = processedRows (session_with_errors 100) /\
    successfulRows s' = successfulRows (session_with_errors 100) /\
    userId s' = userId (session_with_errors 100).
Proof.
  intros log.
  assert (H1 : importSessions (service_with_errors 100) !! "u1"
               = Some (session_with_errors 100)) by (vm_compute; reflexivity).
  split; [exact H1|].
  exact (errorRows_counts_every_error clock log "u1" (service_with_errors 100)
           (session_with_errors 100) H1).
Defined.

Lemma swept_upload_witness :
  w_tempStorage world0 !! param_uploadId (request_of "alice") = Some upload /\
  up_createdAt upload < 3600001 - 60 * 60 * 1000 /\
  let storage := cleanupOldUploads 3600001 (w_tempStorage world0) in
  let w' := {| w_tempStorage := storage; w_service := w_service world0;
               w_db := w_db world0 |} in
  status_code (getPreview storage (request_of "alice")) = 404 /\
  status_code (confirmImport MemoryStore.model clock w' (request_of "alice")
                 file_rows EndOfStream).1 = 404 /\
  (confirmImport MemoryStore.model clock w' (request_of "alice")
     file_rows EndOfStream).2 = w'.
Proof.
  assert (H1 : w_tempStorage world0 !! param_uploadId (request_of "alice") = Some upload)
    by (vm_compute; reflexivity).
  assert (H2 : up_createdAt upload < 3600001 - 60 * 60 * 1000)
    by (vm_compute; reflexivity).
  split; [exact H1|]. split; [exact H2|].
  exact (proj2 (swept_upload_is_gone MemoryStore.model clock 3600001 world0
                  (request_of "alice") file_rows EndOfStream) upload H1 H2).
Defined.

Lemma installments_roll_forward_witness :
  let bill := bill_of "Celular" "5/3" true false in
  repeat bill = true /\ installments bill = "5" ++ "/" ++ "3" /\
  all_digits "5" = true /\ "5" <> "" /\ all_digits "3" = true /\ "3" <> "" /\
  (String.length "5" <= 15)%nat /\ (String.length "3" <= 15)%nat /\
  match (next_bill (LocalDate 19812) (ObjectIdOf "64b7f0c2a1b2c3d4e5f60718")
                   bill (Some 0) (Some 0)).2 with
  | None => digits_val "5" = digits_val "3"
  | Some data =>
      digits_val "5" <> digits_val "3" /\
      installments data = pretty (digits_val "5" + 1) ++ "/" ++ pretty (digits_val "3") /\
      repeat data = true
  end.
Proof.
  intros bill.
  assert (H4 : "5" <> "") by discriminate.
  assert (H6 : "3" <> "") by discriminate.
  assert (H7 : (String.length "5" <= 15)%nat) by (simpl; lia).
  assert (H8 : (String.length "3" <= 15)%nat) by (simpl; lia).
  repeat (split; [first [reflexivity | assumption]|]).
  exact (proj1 (installments_roll_forward (LocalDate 19812)
                  (ObjectIdOf "64b7f0c2a1b2c3d4e5f60718") bill (Some 0) (Some 0))
               "5" "3" eq_refl eq_refl eq_refl H4 eq_refl H6 H7 H8).
Defined.

Lemma monthly_bills_witness :
  (forall db t, exists db' d, create append_model db t = (db', inr d)) /\
  Forall (fun b => repeat b = true -> written_k_of_n (installments b) = true)
         last_month /\
  exists data,
    (createMonthlyBills append_model (LocalDate 19812)
       (ObjectIdOf "64b7f0c2a1b2c3d4e5f60718") (inr last_month) []).2
      = MonthlyCreated data /\
    length data = length (List.filter (fun b => negb (finished b)) last_month).
Proof.
  assert (H : forall db t, exists db' d, create append_model db t = (db', inr d))
    by (intros db t; eexists _, _; reflexivity).
  assert (Hw : Forall (fun b => repeat b = true ->
                                written_k_of_n (installments b) = true) last_month)
    by (repeat constructor; vm_compute; reflexivity).
  split; [exact H|]. split; [exact Hw|].
  exact (proj2 (proj2 (monthly_bills_created append_model (LocalDate 19812)
                         (ObjectIdOf "64b7f0c2a1b2c3d4e5f60718") (inr last_month) []))
               last_month eq_refl H Hw).
Defined.
